(** * comet-tensorflow-distributed-multiworker-mirrored-strategy.py

    A shallow embedding of the multi-worker training script and the
    properties of its orchestration code: the cluster descriptor written
    to [TF_CONFIG], the coordinator-only tracking session, the epoch
    loop, the accuracy metric and the pixel normalisation.

    The script is glue over libraries (TensorFlow, Keras, comet_ml,
    argparse).  Their operations are inputs of the model: a [World]
    record gives the outcome of every library call, and each call may
    raise.  What the script computes itself is modelled concretely and
    is executable: the split of the host string, the JSON text, the
    float32 arithmetic on losses and pixels, the 0.5 threshold.

    The script is a computation in a monad of store, exceptions and
    written events; the monad has no handler, as the script has none.
    The properties are stated on the trace of events of a run.

    Contents: the model of the script; the vocabulary of the properties;
    lemmas on runs; the claims [C1] to [C10]; further properties of the
    module body, the descriptor, the calls before the loop, the steps
    and the epochs. *)

From Stdlib Require Import ZArith NArith QArith Qabs List String Ascii Bool Lia.
From Stdlib Require Import DecimalString SpecFloat.
From Stdlib Require DecimalZ.
From stdpp Require Import base option list gmap.

Local Open Scope Z_scope.
Local Set Warnings "-register-all".

(** ** Python strings

    A Python [str] is a sequence of Unicode code points. *)

Definition pystr := list N.

(** A literal of the script, character by character. *)
Definition str (s : string) : pystr :=
  map N_of_ascii (list_ascii_of_string s).

Arguments str : simpl never.

(** [sep.join(parts)] *)
Fixpoint join (sep : pystr) (parts : list pystr) : pystr :=
  match parts with
  | [] => []
  | [p] => p
  | p :: ps => p ++ sep ++ join sep ps
  end.

(** [s.split(sep)] for a one-character separator: the pieces between
    the occurrences of [sep], empty pieces included. *)
Fixpoint split (sep : N) (s : pystr) : list pystr :=
  match s with
  | [] => [[]]
  | c :: s' =>
      if N.eqb c sep then [] :: split sep s'
      else match split sep s' with
           | [] => [[c]]
           | w :: ws => (c :: w) :: ws
           end
  end.

Definition comma : N := 44.

(** [s.count(c)] *)
Fixpoint count_char (c : N) (s : pystr) : nat :=
  match s with
  | [] => O
  | x :: s' => ((if N.eqb x c then 1 else 0) + count_char c s')%nat
  end.

(** ** json.dumps with its default options

    [ensure_ascii=True], separators [", "] and [": "], keys in insertion
    order. *)

Inductive json :=
| JNull
| JInt (z : Z)
| JStr (s : pystr)
| JList (items : list json)
| JDict (items : list (pystr * json)).

Definition hex_digit (n : N) : N :=
  if N.ltb n 10 then 48 + n else 87 + n.

(** ['{0:04x}'.format(n)] for [n < 0x10000] *)
Definition hex4 (n : N) : pystr :=
  [ hex_digit (N.land (N.shiftr n 12) 15); hex_digit (N.land (N.shiftr n 8) 15);
    hex_digit (N.land (N.shiftr n 4) 15);  hex_digit (N.land n 15) ]%N.

Definition backslash : N := 92.
Definition dquote : N := 34.

Definition u_escape (n : N) : pystr := backslash :: 117%N :: hex4 n.

(** The replacement function of [py_encode_basestring_ascii]: the short
    escapes of [ESCAPE_DCT], printable ASCII unchanged, everything else
    as [\uXXXX], above the BMP as a surrogate pair. *)
Definition escape_char (c : N) : pystr :=
  if N.eqb c backslash then [backslash; backslash]
  else if N.eqb c dquote then [backslash; dquote]
  else if N.eqb c 8 then [backslash; 98%N]
  else if N.eqb c 12 then [backslash; 102%N]
  else if N.eqb c 10 then [backslash; 110%N]
  else if N.eqb c 13 then [backslash; 114%N]
  else if N.eqb c 9 then [backslash; 116%N]
  else if (N.leb 32 c && N.leb c 126)%bool then [c]
  else if N.ltb c 65536 then u_escape c
  else
    let n := (c - 65536)%N in
    let s1 := N.lor 55296 (N.land (N.shiftr n 10) 1023) in
    let s2 := N.lor 56320 (N.land n 1023) in
    u_escape s1 ++ u_escape s2.

Definition encode_basestring_ascii (s : pystr) : pystr :=
  dquote :: flat_map escape_char s ++ [dquote].

(** [int.__repr__] *)
Definition repr_int (z : Z) : pystr :=
  str (NilZero.string_of_int (Z.to_int z)).

Fixpoint dumps (j : json) : pystr :=
  match j with
  | JNull => str "null"
  | JInt z => repr_int z
  | JStr s => encode_basestring_ascii s
  | JList items =>
      match items with
      | [] => str "[]"
      | _ => str "[" ++ join (str ", ") (map dumps items) ++ str "]"
      end
  | JDict items =>
      match items with
      | [] => str "{}"
      | _ =>
          str "{"
          ++ join (str ", ")
               (map (fun kv => encode_basestring_ascii (fst kv) ++ str ": " ++ dumps (snd kv))
                  items)
          ++ str "}"
      end
  end.

(** ** float32

    IEEE 754 binary32 through the Standard Library's executable
    specification of floating-point numbers (precision 24, [emax] 128). *)

Definition f32 := spec_float.
Definition f32_of_Z (z : Z) : f32 := binary_normalize 24 128 z 0 false.
Definition f32_add : f32 -> f32 -> f32 := SFadd 24 128.
Definition f32_div : f32 -> f32 -> f32 := SFdiv 24 128.
Definition f32_ltb : f32 -> f32 -> bool := SFltb.
Definition f32_zero : f32 := f32_of_Z 0.
Definition f32_one : f32 := f32_of_Z 1.
(** [0.5 = 1 * 2^-1] *)
Definition f32_half : f32 := binary_normalize 24 128 1 (-1) false.

Arguments f32_of_Z : simpl never.
Arguments f32_add : simpl never.
Arguments f32_div : simpl never.


(** ** uint8 image arrays and their normalisation *)

Definition uint8 := Byte.byte.
Definition uint8_to_Z (p : uint8) : Z := Z.of_N (Byte.to_N p).

(** [x[..., None]]: a new last axis of length one. *)
Definition expand_last_axis {A} (x : list (list (list A))) : list (list (list (list A))) :=
  map (map (map (fun p => [p]))) x.

(** One element of [x / np.float32(255)] for a uint8 array [x]: the
    pixel is converted to float32 and divided in float32. *)
Definition normalize_pixel (p : uint8) : f32 :=
  f32_div (f32_of_Z (uint8_to_Z p)) (f32_of_Z 255).

Definition normalize (x : list (list (list (list uint8)))) : list (list (list (list f32))) :=
  map (map (map (map normalize_pixel))) x.




(** ** Outcomes of operations *)

Inductive exn :=
| AttributeError      (** [None.split] *)
| ZeroDivisionError   (** [0 / 0] *)
| UnboundLocalError   (** a local variable read before assignment *)
| LibraryError (code : nat).  (** raised inside a library call, [SystemExit] included *)

Inductive outcome (A : Type) :=
| Ok (a : A)
| Raise (e : exn).
Arguments Ok {A} a.
Arguments Raise {A} e.

(** ** Values of the script *)

Inductive pyval :=
| PNone
| PInt (z : Z)
| PStr (s : pystr).

Definition of_opt_int (o : option Z) : pyval :=
  match o with Some z => PInt z | None => PNone end.
Definition of_opt_str (o : option pystr) : pyval :=
  match o with Some s => PStr s | None => PNone end.

(** The [Namespace] returned by [parser.parse_args()]: a flag that is
    not given is [None]. *)
Record Namespace := {
  run_id : option Z;
  worker_hosts : option pystr;
  task_index : option Z
}.

(** [total_loss]: the int [0] it is initialised to, or a float32 tensor
    once a loss has been added. *)
Inductive total :=
| Int0
| Sum (t : f32).

(** The value of [total_loss / num_batches]: a Python float when both
    are ints, a float32 tensor otherwise. *)
Inductive scalar :=
| PyFloat (x : spec_float)
| Tensor (x : f32).

(** [total_loss += loss]; the int is converted to float32 by the
    tensor's reflected addition. *)
Definition iadd (total_loss : total) (loss : f32) : total :=
  match total_loss with
  | Int0 => Sum (f32_add (f32_of_Z 0) loss)
  | Sum t => Sum (f32_add t loss)
  end.

(** [total_loss / num_batches] *)
Definition truediv (total_loss : total) (num_batches : nat) : outcome scalar :=
  match total_loss with
  | Int0 =>
      match num_batches with
      | O => Raise ZeroDivisionError
      | S _ => Ok (PyFloat (S754_zero false))
      end
  | Sum t => Ok (Tensor (f32_div t (f32_of_Z (Z.of_nat num_batches))))
  end.

(** [task_index == 0] *)
Definition eq0 (task_index : option Z) : bool :=
  match task_index with
  | Some z => Z.eqb z 0
  | None => false
  end.

(** ** The libraries *)

Record batch := { b_images : list (list (list (list f32))); b_labels : list uint8 }.

(** One [update_state(labels, actual_pred)]. *)
Definition update : Type := list uint8 * list (list Z).

(** The object returned by [distribute_datasets_from_function]: its
    [n]-th iteration yields per-replica inputs and then stops, or
    raises. *)
Definition dist_dataset : Type := nat -> list (list batch) * option exn.

(** The outcome of every library call of one run.  Calls inside the
    loops are indexed by epoch, step and replica; the script's own
    arguments to a call are arguments here. *)
Record World := {
  (** the imports of lines 21 to 28, on the process environment: the
      environment they leave ([import tensorflow] writes to
      [os.environ]) and the exception, if one of them raises *)
  imports : gmap (list N) (list N) -> gmap (list N) (list N) * option exn;
  load_data :
    outcome ((list (list (list uint8)) * list uint8) * (list (list (list uint8)) * list uint8));
  Experiment : pystr -> outcome unit;
  log_other : pystr -> pyval -> outcome unit;
  log_metric : pystr -> scalar -> nat -> outcome unit;
  (** [MultiWorkerMirroredStrategy()] reads the environment; the result
      is [num_replicas_in_sync]. *)
  MultiWorkerMirroredStrategy : gmap (list N) (list N) -> outcome nat;
  (** the model, optimizer, loss and metric objects made in [strategy.scope()] *)
  scope_objects : outcome unit;
  distribute_datasets_from_function :
    list (list (list (list f32))) -> list uint8 -> nat -> Z -> outcome dist_dataset;
  (** [model(images, training=True)]: one row of logits per example *)
  model : nat -> nat -> nat -> list (list (list (list f32))) -> outcome (list (list f32));
  (** [compute_loss(labels, pred)] with the global batch size *)
  compute_loss : list uint8 -> list (list f32) -> Z -> outcome f32;
  (** [tape.gradient] and [optimizer.apply_gradients] *)
  apply_gradients : nat -> nat -> nat -> outcome unit;
  (** [strategy.reduce(SUM, losses, axis=None)] *)
  reduce_sum : nat -> nat -> list f32 -> outcome f32;
  (** [train_accuracy.result().numpy()] on the updates since the last reset *)
  result : nat -> list update -> outcome f32
}.

(** ** What a run leaves behind

    The calls that reach the tracking service and the standard output,
    the calls on the accuracy metric, the value each training step
    returns, and the raise that ends the run, in the order they happen.
    The epoch, step and replica of an event say where in the loops it
    happened. *)

Inductive event :=
| Experiment_opened (project_name : pystr)
| Log_other (key : pystr) (value : pyval)
| Log_metric (name : pystr) (value : scalar) (epoch : nat)
| Metric_update (epoch step replica : nat) (y_true : list uint8) (y_pred : list (list Z))
| Step_returned (epoch step : nat) (loss : f32)   (** the value of [step_fn(x)] *)
| Printed (epoch : nat) (accuracy : f32)          (** the line [Finished epoch ...] *)
| Metric_reset (epoch : nat)
| Raised (e : exn).

(** The process environment and the state of [train_accuracy] (the
    updates since it was made or last reset). *)
Record store := {
  environ : gmap (list N) (list N);
  train_accuracy : list update
}.

(** ** The monad of the script: store, exceptions, events written *)

Definition M (A : Type) : Type := store -> outcome A * store * list event.

Definition ret {A} (a : A) : M A := fun st => (Ok a, st, []).

Definition bind {A B} (m : M A) (f : A -> M B) : M B :=
  fun st =>
    match m st with
    | (Ok a, st1, t1) =>
        match f a st1 with
        | (r, st2, t2) => (r, st2, t1 ++ t2)
        end
    | (Raise e, st1, t1) => (Raise e, st1, t1)
    end.

Notation "'let*' x := m 'in' k" := (bind m (fun x => k))
  (at level 10, x name, m at level 200, k at level 200).

Definition throw {A} (e : exn) : M A := fun st => (Raise e, st, [Raised e]).

Definition emit (ev : event) : M unit := fun st => (Ok tt, st, [ev]).

(** A library call with a given outcome. *)
Definition lib {A} (o : outcome A) : M A :=
  match o with
  | Ok a => ret a
  | Raise e => throw e
  end.

(** [os.environ[k] = v] *)
Definition setenv (k v : pystr) : M unit :=
  fun st =>
    (Ok tt, {| environ := <[k := v]> (environ st); train_accuracy := train_accuracy st |}, []).

Definition getenv : M (gmap (list N) (list N)) := fun st => (Ok (environ st), st, []).

(** [for x in xs: body], with the loop-carried variables as [acc] and
    the iteration number as first argument of [body]. *)
Fixpoint for_each {A B} (body : nat -> A -> B -> M B) (k : nat) (xs : list A) (acc : B) : M B :=
  match xs with
  | [] => ret acc
  | x :: xs' => let* acc' := body k x acc in for_each body (S k) xs' acc'
  end.

(** Iterating an object that yields [fst it] and then stops or raises. *)
Definition iterate {A B} (it : list A * option exn) (body : nat -> A -> B -> M B) (acc : B) : M B :=
  let* acc' := for_each body 0 (fst it) acc in
  match snd it with
  | None => ret acc'
  | Some e => throw e
  end.

(** ** The script *)

Definition PROJECT_NAME : pystr := str "tf-distributed-multiworker-mirrored".
Definition EPOCHS : nat := 10.
Definition BATCH_SIZE_PER_REPLICA : Z := 64.

Record globals := {
  train_images : list (list (list (list f32)));
  train_labels : list uint8;
  test_images : list (list (list (list f32)));
  test_labels : list uint8;
  BUFFER_SIZE : nat
}.

(** Lines 21 to 28: [import comet_ml], [os], [argparse], [json],
    [numpy], [tensorflow] and [tensorflow.keras]. *)
Definition import_modules (w : World) : M unit :=
  fun st =>
    let st' := {| environ := fst (imports w (environ st));
                  train_accuracy := train_accuracy st |} in
    match snd (imports w (environ st)) with
    | None => (Ok tt, st', [])
    | Some e => (Raise e, st', [Raised e])
    end.

(** Lines 21 to 43. *)
Definition module_level (w : World) : M globals :=
  let* _ := import_modules w in
  let* _ := setenv (str "GRPC_FAIL_FAST") (str "use_caller") in
  let* d := lib (load_data w) in
  let train_images := expand_last_axis (fst (fst d)) in
  let test_images := expand_last_axis (fst (snd d)) in
  let train_images := normalize train_images in
  let test_images := normalize test_images in
  ret {| train_images := train_images; train_labels := snd (fst d);
         test_images := test_images; test_labels := snd (snd d);
         BUFFER_SIZE := length train_images |}.

(** [args.worker_hosts.split(",")] *)
Definition split_hosts (worker_hosts : option pystr) : M (list pystr) :=
  match worker_hosts with
  | Some s => ret (split comma s)
  | None => throw AttributeError
  end.

Definition cluster_dict (worker_hosts : list pystr) (task_index : option Z) : json :=
  JDict [ (str "cluster", JDict [ (str "worker", JList (map JStr worker_hosts)) ]);
          (str "task", JDict [ (str "type", JStr (str "worker"));
                               (str "index", match task_index with
                                             | Some z => JInt z
                                             | None => JNull
                                             end) ]) ].

(** [tf.cast(tf.greater(pred, 0.5), tf.int64)] *)
Definition greater (x y : f32) : bool := f32_ltb y x.
Definition cast_int64 (b : bool) : Z := if b then 1 else 0.
Definition actual_pred (pred : list (list f32)) : list (list Z) :=
  map (map (fun x => cast_int64 (greater x f32_half))) pred.

Definition update_state (i j r : nat) (labels : list uint8) (y_pred : list (list Z)) : M unit :=
  fun st =>
    (Ok tt,
     {| environ := environ st; train_accuracy := train_accuracy st ++ [(labels, y_pred)] |},
     [Metric_update i j r labels y_pred]).

Definition accuracy_result (w : World) (i : nat) : M f32 :=
  fun st => lib (result w i (train_accuracy st)) st.

Definition reset_states (i : nat) : M unit :=
  fun st => (Ok tt, {| environ := environ st; train_accuracy := [] |}, [Metric_reset i]).

(** [train_step] of step [j] of epoch [i] on replica [r]. *)
Definition train_step (w : World) (GLOBAL_BATCH_SIZE : Z) (i j r : nat) (inputs : batch) : M f32 :=
  let images := b_images inputs in
  let labels := b_labels inputs in
  let* pred := lib (model w i j r images) in
  let* loss := lib (compute_loss w labels pred GLOBAL_BATCH_SIZE) in
  let* _ := lib (apply_gradients w i j r) in
  let* _ := update_state i j r labels (actual_pred pred) in
  ret loss.

(** [strategy.run(train_step, args=(dataset_inputs,))]: [train_step] on
    the input of each local replica, in replica order. *)
Definition strategy_run (fn : nat -> batch -> M f32) (dataset_inputs : list batch) : M (list f32) :=
  for_each (fun r x losses => let* l := fn r x in ret (losses ++ [l])) 0 dataset_inputs [].

Definition step_fn (w : World) (GLOBAL_BATCH_SIZE : Z) (i j : nat)
    (dataset_inputs : list batch) : M f32 :=
  let* losses := strategy_run (train_step w GLOBAL_BATCH_SIZE i j) dataset_inputs in
  lib (reduce_sum w i j losses).

(** Lines 138 to 140: the body of [for x in dist_dataset], on the pair
    [(total_loss, num_batches)]. *)
Definition accumulate (w : World) (GLOBAL_BATCH_SIZE : Z) (i j : nat) (x : list batch)
    (tn : total * nat) : M (total * nat) :=
  let* loss := step_fn w GLOBAL_BATCH_SIZE i j x in
  let* _ := emit (Step_returned i j loss) in
  ret (iadd (fst tn) loss, S (snd tn)).

(** Lines 141 and 142.  [experiment] is bound only if line 89 ran. *)
Definition log_train_loss (w : World) (task_index : option Z) (experiment : option unit)
    (tn : total * nat) (i : nat) : M unit :=
  if eq0 task_index then
    match experiment with
    | None => throw UnboundLocalError
    | Some _ =>
        let* q := lib (truediv (fst tn) (snd tn)) in
        let* _ := lib (log_metric w (str "train_loss") q i) in
        emit (Log_metric (str "train_loss") q i)
    end
  else ret tt.

(** Lines 135 to 147: the body of [for i in range(EPOCHS)]. *)
Definition epoch (w : World) (task_index : option Z) (experiment : option unit)
    (GLOBAL_BATCH_SIZE : Z) (dataset : dist_dataset) (i : nat) : M unit :=
  let total_loss := Int0 in
  let num_batches := O in
  let* tn := iterate (dataset i) (accumulate w GLOBAL_BATCH_SIZE i) (total_loss, num_batches) in
  let* _ := log_train_loss w task_index experiment tn i in
  let* acc := accuracy_result w i in
  let* _ := emit (Printed i acc) in
  reset_states i.

Definition get_args (cli : outcome Namespace) : M Namespace := lib cli.

(** Lines 88 to 91; the result is the binding of the local [experiment]. *)
Definition open_experiment (w : World) (args : Namespace) : M (option unit) :=
  if eq0 (task_index args) then
    let* _ := lib (Experiment w PROJECT_NAME) in
    let* _ := emit (Experiment_opened PROJECT_NAME) in
    let* _ := lib (log_other w (str "run_id") (of_opt_int (run_id args))) in
    let* _ := emit (Log_other (str "run_id") (of_opt_int (run_id args))) in
    let* _ := lib (log_other w (str "worker_hosts") (of_opt_str (worker_hosts args))) in
    let* _ := emit (Log_other (str "worker_hosts") (of_opt_str (worker_hosts args))) in
    ret (Some tt)
  else ret None.

(** Lines 93 to 147: the strategy, the objects made in its scope, the
    distributed dataset and the loop over the epochs. *)
Definition training (w : World) (task_index : option Z) (g : globals)
    (experiment : option unit) : M unit :=
  let* env := getenv in
  let* num_replicas_in_sync := lib (MultiWorkerMirroredStrategy w env) in
  let GLOBAL_BATCH_SIZE := BATCH_SIZE_PER_REPLICA * Z.of_nat num_replicas_in_sync in
  let* _ := lib (scope_objects w) in
  let* dataset :=
    lib (distribute_datasets_from_function w (train_images g) (train_labels g)
           (BUFFER_SIZE g) GLOBAL_BATCH_SIZE) in
  for_each (fun _ i _ => epoch w task_index experiment GLOBAL_BATCH_SIZE dataset i)
    0 (seq 0 EPOCHS) tt.

(** Lines 75 to 147.  [cli] is the outcome of [parser.parse_args()]. *)
Definition main (cli : outcome Namespace) (w : World) (g : globals) : M unit :=
  let* args := get_args cli in
  let run_id := run_id args in
  let task_index := task_index args in
  let* hosts := split_hosts (worker_hosts args) in
  let num_workers := length hosts in
  let* _ := setenv (str "TF_CONFIG") (dumps (cluster_dict hosts task_index)) in
  let* experiment := open_experiment w args in
  training w task_index g experiment.

(** The module body followed by [main()]. *)
Definition script (cli : outcome Namespace) (w : World) : M unit :=
  let* g := module_level w in
  main cli w g.

Definition initial : store := {| environ := ∅; train_accuracy := [] |}.

Definition run (cli : outcome Namespace) (w : World) : outcome unit * store * list event :=
  script cli w initial.

(** ** A small world to run the script in

    Two workers on one machine, one replica each; the dataset yields two
    steps per epoch, every library call succeeds. *)

Definition demo_logits : list (list f32) :=
  [ [ f32_zero; f32_of_Z 3; f32_half; f32_one; f32_zero;
      f32_zero; f32_zero; f32_zero; f32_zero; f32_of_Z (-2) ] ].

Definition demo_batch : batch :=
  {| b_images := [ [ [ [f32_one]; [f32_zero] ] ] ]; b_labels := [Byte.x01] |}.

Definition demo_world : World :=
  {| imports := fun env => (<[str "TPU_ML_PLATFORM" := str "Tensorflow"]>
                              (<[str "TF2_BEHAVIOR" := str "1"]> env), None);
     load_data := Ok (([ [ [Byte.xff; Byte.x00] ] ], [Byte.x01]),
                      ([ [ [Byte.x80; Byte.x01] ] ], [Byte.x03]));
     Experiment := fun _ => Ok tt;
     log_other := fun _ _ => Ok tt;
     log_metric := fun _ _ _ => Ok tt;
     MultiWorkerMirroredStrategy := fun _ => Ok 2%nat;
     scope_objects := Ok tt;
     distribute_datasets_from_function :=
       fun _ _ _ _ => Ok (fun _ => ([ [demo_batch]; [demo_batch] ], None));
     model := fun _ _ _ _ => Ok demo_logits;
     compute_loss := fun _ _ _ => Ok f32_one;
     apply_gradients := fun _ _ _ => Ok tt;
     reduce_sum := fun _ _ losses => Ok (fold_left f32_add losses f32_zero);
     result := fun _ ups => Ok (f32_of_Z (Z.of_nat (length ups))) |}.

Definition demo_args (task : Z) : Namespace :=
  {| run_id := Some 7;
     worker_hosts := Some (str "localhost:2222,localhost:2223");
     task_index := Some task |}.

(** The globals of the example after lines 35 to 43. *)
Definition demo_globals : globals :=
  {| train_images := normalize (expand_last_axis [ [ [Byte.xff; Byte.x00] ] ]);
     train_labels := [Byte.x01];
     test_images := normalize (expand_last_axis [ [ [Byte.x80; Byte.x01] ] ]);
     test_labels := [Byte.x03];
     BUFFER_SIZE := 1 |}.

(** The command line of the example with another run identifier, and
    without the host list. *)
Definition demo_args_run_8 : Namespace :=
  {| run_id := Some 8;
     worker_hosts := Some (str "localhost:2222,localhost:2223");
     task_index := Some 0 |}.

Definition no_hosts : Namespace :=
  {| run_id := Some 7; worker_hosts := None; task_index := Some 0 |}.

(** * The vocabulary of the properties *)

(** ** The three components of a run *)

Definition outcome_of {A} (x : outcome A * store * list event) : outcome A := fst (fst x).
Definition store_of {A} (x : outcome A * store * list event) : store := snd (fst x).
Definition trace_of {A} (x : outcome A * store * list event) : list event := snd x.

(** The task index of a command line; none when parsing fails. *)
Definition cli_task_index (cli : outcome Namespace) : option Z :=
  match cli with
  | Ok ns => task_index ns
  | Raise _ => None
  end.

(** ** Reading a trace *)

(** The values returned by [step_fn], in order. *)
Definition step_losses (t : list event) : list f32 :=
  omap (fun ev => match ev with Step_returned _ _ l => Some l | _ => None end) t.

(** The arguments of the calls of [update_state], in order. *)
Definition metric_updates (t : list event) : list update :=
  omap (fun ev => match ev with Metric_update _ _ _ l p => Some (l, p) | _ => None end) t.

(** The calls of [log_metric]: name, value and epoch. *)
Definition logged_metrics (t : list event) : list (pystr * scalar * nat) :=
  omap (fun ev => match ev with Log_metric n v i => Some (n, v, i) | _ => None end) t.

(** The lines printed: epoch and accuracy. *)
Definition printed (t : list event) : list (nat * f32) :=
  omap (fun ev => match ev with Printed i a => Some (i, a) | _ => None end) t.

(** The epochs whose line [Finished epoch ...] was printed, in order. *)
Definition printed_epochs (t : list event) : list nat := map fst (printed t).

(** The tracking session: its opening and the metadata it receives. *)
Definition session (t : list event) : list event :=
  omap (fun ev => match ev with
                  | Experiment_opened _ | Log_other _ _ => Some ev
                  | _ => None
                  end) t.


(** The events that are not records of the tracking session. *)
Definition untracked (t : list event) : list event :=
  omap (fun ev => match ev with
                  | Experiment_opened _ | Log_other _ _ | Log_metric _ _ _ => None
                  | _ => Some ev
                  end) t.

(** The epoch an event belongs to. *)
Definition epoch_of (ev : event) : option nat :=
  match ev with
  | Log_metric _ _ i | Metric_update i _ _ _ _ | Step_returned i _ _
  | Printed i _ | Metric_reset i => Some i
  | _ => None
  end.

(** The events of epoch [i]. *)
Definition at_epoch (i : nat) (t : list event) : list event :=
  omap (fun ev => if decide (epoch_of ev = Some i) then Some ev else None) t.

Definition is_raised (ev : event) : Prop :=
  match ev with Raised _ => True | _ => False end.

Definition not_session (ev : event) : Prop :=
  match ev with Experiment_opened _ | Log_other _ _ => False | _ => True end.

Definition not_printed (ev : event) : Prop :=
  match ev with Printed _ _ => False | _ => True end.

(** The events of the steps of epoch [i]; those of one call of
    [step_fn], where a raise may end it. *)
Definition step_event (i : nat) (ev : event) : Prop :=
  match ev with Metric_update i' _ _ _ _ | Step_returned i' _ _ => i' = i | _ => False end.

Definition update_event (i : nat) (ev : event) : Prop :=
  match ev with Metric_update i' _ _ _ _ => i' = i | Raised _ => True | _ => False end.

(** [replay t acc] is the state of [train_accuracy] after the calls
    recorded in [t], starting from the state [acc]: [update_state] adds
    an update, [reset_states] empties it. *)
Fixpoint replay (t : list event) (acc : list update) : list update :=
  match t with
  | [] => acc
  | Metric_update _ _ _ l p :: t' => replay t' (acc ++ [(l, p)])
  | Metric_reset _ :: t' => replay t' []
  | _ :: t' => replay t' acc
  end.

(** ** What the claims speak of *)

(** The float32 sum of the losses of an epoch, from the first to the
    last, and that sum divided by their number. *)
Definition sum_f32 (losses : list f32) : f32 := fold_left f32_add losses f32_zero.
Definition mean_loss (losses : list f32) : f32 :=
  f32_div (sum_f32 losses) (f32_of_Z (Z.of_nat (length losses))).

(** The value [main] gives to [TF_CONFIG]. *)
Definition TF_CONFIG (ns : Namespace) (hosts : pystr) : pystr :=
  dumps (cluster_dict (split comma hosts) (task_index ns)).

(** The events of lines 89 to 91. *)
Definition opening (ns : Namespace) : list event :=
  if eq0 (task_index ns)
  then [ Experiment_opened PROJECT_NAME;
         Log_other (str "run_id") (of_opt_int (run_id ns));
         Log_other (str "worker_hosts") (of_opt_str (worker_hosts ns)) ]
  else [].

(** The events of an epoch that ran to its end, from a metric in its
    initial state: the steps, the loss logged by the coordinator, the
    line printed, the reset. *)
Definition epoch_trace (w : World) (ti : option Z) (i : nat) (seg : list event) : Prop :=
  exists steps acc,
    seg = steps
          ++ (if eq0 ti
              then [Log_metric (str "train_loss") (Tensor (mean_loss (step_losses steps))) i]
              else [])
          ++ [Printed i acc; Metric_reset i] /\
    Forall (step_event i) steps /\
    (eq0 ti = true -> step_losses steps <> []) /\
    result w i (metric_updates steps) = Ok acc.

(** The globals after lines 35 to 43, from what the loader returned. *)
Definition globals_of
    (d : (list (list (list uint8)) * list uint8) * (list (list (list uint8)) * list uint8)) :
    globals :=
  {| train_images := normalize (expand_last_axis (fst (fst d)));
     train_labels := snd (fst d);
     test_images := normalize (expand_last_axis (fst (snd d)));
     test_labels := snd (snd d);
     BUFFER_SIZE := length (normalize (expand_last_axis (fst (fst d)))) |}.

(** [tf.argmax] of one row of logits: the first index of a largest one. *)
Fixpoint argmax_from (best : f32) (best_at next : nat) (row : list f32) : nat :=
  match row with
  | [] => best_at
  | x :: row' =>
      if f32_ltb best x then argmax_from x next (S next) row'
      else argmax_from best best_at (S next) row'
  end.

Definition argmax (row : list f32) : nat :=
  match row with
  | [] => O
  | x :: row' => argmax_from x 0 1 row'
  end.

(** Printable ASCII: what [os.environ] takes without an encoding step
    and without the NUL character it refuses. *)
Definition printable (c : N) : bool := (N.leb 32 c && N.leb c 126)%bool.
Definition ascii_text (s : pystr) : Prop := forallb printable s = true.

(** ** Two runs compared

    What two runs have in common apart from the records of the tracking
    session.  [c1] and [c2] say whether each run is a coordinator's. *)

#[local] Instance exn_eq_dec : EqDecision exn.
Proof. solve_decision. Defined.

#[local] Instance outcome_eq_dec {A} `{EqDecision A} : EqDecision (outcome A).
Proof. solve_decision. Defined.





(** ** Properties of computations *)

(** Every event [m] writes satisfies [P]. *)
Definition emits {A} (P : event -> Prop) (m : M A) : Prop :=
  forall st r st' t, m st = (r, st', t) -> Forall P t.

(** Whatever the libraries do, an event of a run is one of these. [ti]
    is the parsed task index. *)
Definition script_event (w : World) (ti : option Z) (ev : event) : Prop :=
  match ev with
  | Experiment_opened p => eq0 ti = true /\ p = PROJECT_NAME
  | Log_other _ _ => eq0 ti = true
  | Log_metric n _ i => eq0 ti = true /\ n = str "train_loss" /\ (i < EPOCHS)%nat
  | Metric_update i j r _ p =>
      (i < EPOCHS)%nat /\
      exists images logits, model w i j r images = Ok logits /\ p = actual_pred logits
  | Step_returned i _ _ | Printed i _ | Metric_reset i => (i < EPOCHS)%nat
  | Raised _ => True
  end.

(** A run is regular when an exception ends it (the event of the raise
    is the last one, and the outcome is that exception), when it
    records no raise otherwise, and when the store's metric state is
    the replay of the recorded calls. *)
Definition regular_run {A} (st : store) (x : outcome A * store * list event) : Prop :=
  train_accuracy (store_of x) = replay (trace_of x) (train_accuracy st) /\
  match outcome_of x with
  | Ok _ => Forall (fun ev => ~ is_raised ev) (trace_of x)
  | Raise e =>
      exists pre, trace_of x = pre ++ [Raised e] /\ Forall (fun ev => ~ is_raised ev) pre
  end.

Definition regular {A} (m : M A) : Prop := forall st, regular_run st (m st).

(** [m] neither reads nor writes the environment: with another
    environment it does the same and leaves that environment. *)
Definition with_env (e : gmap (list N) (list N)) (st : store) : store :=
  {| environ := e; train_accuracy := train_accuracy st |}.

Definition env_blind {A} (m : M A) : Prop :=
  forall st e,
    m (with_env e st) = (outcome_of (m st), with_env e (store_of (m st)), trace_of (m st)).

Definition keeps_env {A} (m : M A) : Prop :=
  forall st, environ (store_of (m st)) = environ st.

(** The shape of the trace of any run, returning or not: events before
    the loop, the segments of the epochs 0 to [m - 1] that ran to their
    end, and the events of an epoch [m] that a raise cut short. *)
Definition no_epoch (ev : event) : Prop := epoch_of ev = None.

Definition in_epoch_or_raised (i : nat) (ev : event) : Prop :=
  epoch_of ev = Some i \/ is_raised ev.

Definition run_shape (w : World) (ti : option Z) (t : list event) : Prop :=
  exists pre m segs rest,
    t = pre ++ concat segs ++ rest /\
    Forall no_epoch pre /\
    Forall2 (epoch_trace w ti) (seq 0 m) segs /\
    Forall (in_epoch_or_raised m) rest /\
    printed rest = [].

Definition shaped (w : World) (ti : option Z) (m : M unit) : Prop :=
  forall st, train_accuracy st = [] -> run_shape w ti (trace_of (m st)).

(** [m] returns, from every store. *)
Definition returns {A} (m : M A) : Prop :=
  forall st, exists a st' t, m st = (Ok a, st', t).

(** No library call raises, and the distributed dataset yields at least
    one batch in every epoch. *)
Definition well_behaved (w : World) : Prop :=
  (forall env, snd (imports w env) = None) /\
  (exists d, load_data w = Ok d) /\
  (forall p, Experiment w p = Ok tt) /\
  (forall k v, log_other w k v = Ok tt) /\
  (forall n v i, log_metric w n v i = Ok tt) /\
  (forall env, exists n, MultiWorkerMirroredStrategy w env = Ok n) /\
  scope_objects w = Ok tt /\
  (forall imgs lbls n gbs,
     exists ds, distribute_datasets_from_function w imgs lbls n gbs = Ok ds /\
                forall i, snd (ds i) = None /\ fst (ds i) <> []) /\
  (forall i j r imgs, exists l, model w i j r imgs = Ok l) /\
  (forall lbls l gbs, exists x, compute_loss w lbls l gbs = Ok x) /\
  (forall i j r, apply_gradients w i j r = Ok tt) /\
  (forall i j ls, exists x, reduce_sum w i j ls = Ok x) /\
  (forall i ups, exists a, result w i ups = Ok a).

(** The lines printed are those of the epochs 0 to [m - 1], and all
    [EPOCHS] of them exactly when the run returns. *)
Definition prints_epochs {A} (x : outcome A * store * list event) : Prop :=
  exists m,
    (m <= EPOCHS)%nat /\ printed_epochs (trace_of x) = seq 0 m /\
    (m = EPOCHS <-> exists a, outcome_of x = Ok a).

(** ** What the further properties speak of *)

Definition has_shape3 {A} (n h w : nat) (x : list (list (list A))) : Prop :=
  length x = n /\
  Forall (fun image => length image = h /\ Forall (fun row => length row = w) image) x.

Definition has_shape4 {A} (n h w c : nat) (x : list (list (list (list A)))) : Prop :=
  length x = n /\
  Forall (fun image =>
            length image = h /\
            Forall (fun row => length row = w /\ Forall (fun px => length px = c) row) image) x.

Definition pixel_index (n : nat) : f32 :=
  f32_div (f32_of_Z (Z.of_nat n)) (f32_of_Z 255).


(** The pixel values 0 to 255. *)
Definition pixel_values : list Z := map Z.of_nat (seq 0 256).

(** The pixel values with their images by the normalisation. *)
Definition normalized_values : list (Z * f32) :=
  map (fun a => (a, f32_div (f32_of_Z a) (f32_of_Z 255))) pixel_values.

(** Of two pixel values with their images, the lesser value has the
    lesser image, and no image is less than itself. *)
Definition increasing_at (x y : Z * f32) : bool :=
  implb (Z.ltb (fst x) (fst y)) (f32_ltb (snd x) (snd y)) && negb (f32_ltb (snd x) (snd x)).

(** ** The text of the cluster descriptor *)

(** The characters [json.dumps] copies as they are: printable ASCII
    other than the quote and the backslash. *)
Definition plain (c : N) : bool :=
  printable c && negb (N.eqb c dquote) && negb (N.eqb c backslash).

(** [s] between quotes. *)
Definition quoted (s : pystr) : pystr := dquote :: s ++ [dquote].

(** The text of the descriptor around the JSON texts [workers] of the
    host names and the text [index] of the task index. *)
Definition descriptor_text (workers : list pystr) (index : pystr) : pystr :=
  str "{" ++ quoted (str "cluster") ++ str ": {" ++ quoted (str "worker") ++ str ": ["
  ++ join (str ", ") workers
  ++ str "]}, " ++ quoted (str "task") ++ str ": {" ++ quoted (str "type") ++ str ": "
  ++ quoted (str "worker") ++ str ", " ++ quoted (str "index") ++ str ": " ++ index ++ str "}}".

(** The JSON text of the task index: [None] is [null]. *)
Definition index_text (task_index : option Z) : pystr :=
  match task_index with
  | Some z => repr_int z
  | None => str "null"
  end.

(** ** Reading back what [json.dumps] wrote *)

(** The first code unit of a surrogate pair. *)
Definition high_surrogate (c : N) : bool := (N.leb 55296 c && N.ltb c 56320)%bool.

(** A code point of a Python string (below [0x110000]) that is not the
    first half of a surrogate pair. *)
Definition unpaired (c : N) : bool := (N.ltb c 1114112 && negb (high_surrogate c))%bool.

Definition unhex_digit (d : N) : N := (if N.ltb d 58 then d - 48 else d - 87)%N.

Definition unhex4 (a b c d : N) : N :=
  (((unhex_digit a * 16 + unhex_digit b) * 16 + unhex_digit c) * 16 + unhex_digit d)%N.

(** The four hex digits after [\u], and the rest. *)
Definition read_hex4 (s : pystr) : option (N * pystr) :=
  match s with
  | a :: b :: c :: d :: rest => Some (unhex4 a b c d, rest)
  | _ => None
  end.

(** One character of the contents of a JSON string written by
    [encode_basestring_ascii], and the rest; nothing at the closing
    quote. *)
Definition unescape_char (s : pystr) : option (N * pystr) :=
  match s with
  | [] => None
  | c :: rest =>
      if N.eqb c dquote then None
      else if N.eqb c backslash then
        match rest with
        | [] => None
        | x :: rest1 =>
            if N.eqb x backslash then Some (backslash, rest1)
            else if N.eqb x dquote then Some (dquote, rest1)
            else if N.eqb x 98 then Some (8%N, rest1)
            else if N.eqb x 102 then Some (12%N, rest1)
            else if N.eqb x 110 then Some (10%N, rest1)
            else if N.eqb x 114 then Some (13%N, rest1)
            else if N.eqb x 116 then Some (9%N, rest1)
            else if N.eqb x 117 then
              match read_hex4 rest1 with
              | Some (hi, rest2) =>
                  if high_surrogate hi then
                    match rest2 with
                    | b :: u :: rest3 =>
                        match read_hex4 rest3 with
                        | Some (lo, rest4) =>
                            Some ((65536 + (hi - 55296) * 1024 + (lo - 56320))%N, rest4)
                        | None => None
                        end
                    | _ => None
                    end
                  else Some (hi, rest2)
              | None => None
              end
            else None
        end
      else Some (c, rest)
  end.

(** ** The calls before the loop *)

(** The environment the imports of a run leave. *)
Definition imported (w : World) : gmap (list N) (list N) := fst (imports w ∅).

(** The environment when line 93 makes the strategy. *)
Definition training_environ (w : World) (ns : Namespace) (hosts : pystr) :
    gmap (list N) (list N) :=
  <[str "TF_CONFIG" := TF_CONFIG ns hosts]>
    (<[str "GRPC_FAIL_FAST" := str "use_caller"]> (imported w)).

(** The calls of lines 89 to 91, made when the task index is 0, return. *)
Definition tracking_opens (w : World) (ns : Namespace) : Prop :=
  eq0 (task_index ns) = true ->
  Experiment w PROJECT_NAME = Ok tt /\
  log_other w (str "run_id") (of_opt_int (run_id ns)) = Ok tt /\
  log_other w (str "worker_hosts") (of_opt_str (worker_hosts ns)) = Ok tt.

(** Every call before the loop returns: the imports, the loader, which
    gives [d], the split of the host list [hosts], the session, the
    strategy, which has [nr] replicas, the objects of its scope and the
    distributed dataset [ds]. *)
Definition setup_returns (w : World) (ns : Namespace)
    (d : (list (list (list uint8)) * list uint8) * (list (list (list uint8)) * list uint8))
    (hosts : pystr) (nr : nat) (ds : dist_dataset) : Prop :=
  snd (imports w ∅) = None /\
  load_data w = Ok d /\
  worker_hosts ns = Some hosts /\
  tracking_opens w ns /\
  MultiWorkerMirroredStrategy w (training_environ w ns hosts) = Ok nr /\
  scope_objects w = Ok tt /\
  distribute_datasets_from_function w (train_images (globals_of d))
    (train_labels (globals_of d)) (BUFFER_SIZE (globals_of d))
    (BATCH_SIZE_PER_REPLICA * Z.of_nat nr) = Ok ds.

(** The binding of [experiment] after lines 88 to 91. *)
Definition experiment_of (ns : Namespace) : option unit :=
  if eq0 (task_index ns) then Some tt else None.

(** The loop of lines 134 to 147. *)
Definition epochs (w : World) (ns : Namespace) (nr : nat) (ds : dist_dataset) : M unit :=
  for_each (fun _ i _ => epoch w (task_index ns) (experiment_of ns)
                           (BATCH_SIZE_PER_REPLICA * Z.of_nat nr) ds i)
    0 (seq 0 EPOCHS) tt.

(** The store when the loop starts. *)
Definition training_store (w : World) (ns : Namespace) (hosts : pystr) : store :=
  {| environ := training_environ w ns hosts; train_accuracy := [] |}.

(** The world of the example where the cluster cannot be joined, and
    where the dataset is empty. *)
Definition demo_world_no_cluster : World :=
  {| imports := imports demo_world;
     load_data := load_data demo_world;
     Experiment := Experiment demo_world;
     log_other := log_other demo_world;
     log_metric := log_metric demo_world;
     MultiWorkerMirroredStrategy := fun _ => Raise (LibraryError 14);
     scope_objects := scope_objects demo_world;
     distribute_datasets_from_function := distribute_datasets_from_function demo_world;
     model := model demo_world;
     compute_loss := compute_loss demo_world;
     apply_gradients := apply_gradients demo_world;
     reduce_sum := reduce_sum demo_world;
     result := result demo_world |}.

Definition demo_world_no_batch : World :=
  {| imports := imports demo_world;
     load_data := load_data demo_world;
     Experiment := Experiment demo_world;
     log_other := log_other demo_world;
     log_metric := log_metric demo_world;
     MultiWorkerMirroredStrategy := MultiWorkerMirroredStrategy demo_world;
     scope_objects := scope_objects demo_world;
     distribute_datasets_from_function := fun _ _ _ _ => Ok (fun _ => ([], None));
     model := model demo_world;
     compute_loss := compute_loss demo_world;
     apply_gradients := apply_gradients demo_world;
     reduce_sum := reduce_sum demo_world;
     result := result demo_world |}.

(** ** Where an exception comes from *)

(** A library call of the run raises [e]: an import, the argument
    parser, the loader, the tracking session, the strategy, the objects of its
    scope, the distributed dataset or its iteration, the model, the
    loss, the optimizer, the reduction or the metric. *)
Inductive library_raises (cli : outcome Namespace) (w : World) (e : exn) : Prop :=
| in_imports env : snd (imports w env) = Some e -> library_raises cli w e
| in_parse_args : cli = Raise e -> library_raises cli w e
| in_load_data : load_data w = Raise e -> library_raises cli w e
| in_Experiment p : Experiment w p = Raise e -> library_raises cli w e
| in_log_other k v : log_other w k v = Raise e -> library_raises cli w e
| in_log_metric n v i : log_metric w n v i = Raise e -> library_raises cli w e
| in_strategy env : MultiWorkerMirroredStrategy w env = Raise e -> library_raises cli w e
| in_scope : scope_objects w = Raise e -> library_raises cli w e
| in_distribute images labels n gbs :
    distribute_datasets_from_function w images labels n gbs = Raise e ->
    library_raises cli w e
| in_iteration images labels n gbs ds i :
    distribute_datasets_from_function w images labels n gbs = Ok ds ->
    snd (ds i) = Some e -> library_raises cli w e
| in_model i j r images : model w i j r images = Raise e -> library_raises cli w e
| in_compute_loss labels pred gbs :
    compute_loss w labels pred gbs = Raise e -> library_raises cli w e
| in_apply_gradients i j r : apply_gradients w i j r = Raise e -> library_raises cli w e
| in_reduce i j losses : reduce_sum w i j losses = Raise e -> library_raises cli w e
| in_result i ups : result w i ups = Raise e -> library_raises cli w e.

(** The script's own code raises [e]: the split of a host list that is
    [None], or the division by [num_batches] on the coordinator after an
    epoch in which the dataset yielded nothing. *)
Inductive script_raises (cli : outcome Namespace) (w : World) : exn -> Prop :=
| split_of_None ns :
    cli = Ok ns -> worker_hosts ns = None -> script_raises cli w AttributeError
| division_by_zero_batches images labels n gbs ds i :
    eq0 (cli_task_index cli) = true ->
    distribute_datasets_from_function w images labels n gbs = Ok ds ->
    ds i = ([], None) -> (i < EPOCHS)%nat ->
    script_raises cli w ZeroDivisionError.

(** An event that is a raise is the raise of a library call or of the
    script's own code. *)
Definition explained (cli : outcome Namespace) (w : World) (ev : event) : Prop :=
  match ev with
  | Raised e => library_raises cli w e \/ script_raises cli w e
  | _ => True
  end.

(** [w] with other outcomes for the calls on the tracking session. *)
Definition with_tracking (w : World) (experiment : pystr -> outcome unit)
    (other : pystr -> pyval -> outcome unit)
    (metric : pystr -> scalar -> nat -> outcome unit) : World :=
  {| imports := imports w;
     load_data := load_data w;
     Experiment := experiment;
     log_other := other;
     log_metric := metric;
     MultiWorkerMirroredStrategy := MultiWorkerMirroredStrategy w;
     scope_objects := scope_objects w;
     distribute_datasets_from_function := distribute_datasets_from_function w;
     model := model w;
     compute_loss := compute_loss w;
     apply_gradients := apply_gradients w;
     reduce_sum := reduce_sum w;
     result := result w |}.

(** ** One step of the training *)

(** The calls of [train_step] for the input [x] of replica [r] return:
    the model gives the logits [pred], the loss is [loss], and the
    gradients are applied. *)
Definition replica_trained (w : World) (GLOBAL_BATCH_SIZE : Z) (i j r : nat) (x : batch)
    (pred : list (list f32)) (loss : f32) : Prop :=
  model w i j r (b_images x) = Ok pred /\
  compute_loss w (b_labels x) pred GLOBAL_BATCH_SIZE = Ok loss /\
  apply_gradients w i j r = Ok tt.

(** The same for the inputs [xs] of the replicas [r], [r + 1], ... *)
Fixpoint replicas_trained (w : World) (GLOBAL_BATCH_SIZE : Z) (i j r : nat) (xs : list batch)
    (preds : list (list (list f32))) (losses : list f32) : Prop :=
  match xs, preds, losses with
  | [], [], [] => True
  | x :: xs', pred :: preds', loss :: losses' =>
      replica_trained w GLOBAL_BATCH_SIZE i j r x pred loss /\
      replicas_trained w GLOBAL_BATCH_SIZE i j (S r) xs' preds' losses'
  | _, _, _ => False
  end.

(** The updates of the accuracy metric in one step: for each replica,
    the labels of its input and the thresholded logits of the model. *)
Fixpoint replica_updates (i j r : nat) (xs : list batch) (preds : list (list (list f32))) :
    list event :=
  match xs, preds with
  | x :: xs', pred :: preds' =>
      Metric_update i j r (b_labels x) (actual_pred pred) :: replica_updates i j (S r) xs' preds'
  | _, _ => []
  end.

(** What an epoch that ran to its end did with the elements the
    dataset yielded: the iteration stopped without a raise, there is one
    step per element, and the metric was given the labels of every
    replica's input, in order. *)
Definition epoch_covers (ds : dist_dataset) (i : nat) (seg : list event) : Prop :=
  snd (ds i) = None /\
  length (step_losses seg) = length (fst (ds i)) /\
  map fst (metric_updates seg) = map b_labels (concat (fst (ds i))).

(** An event of a step is accounted for by the dataset [ds] and the
    global batch size: a value returned by [step_fn] is the reduction
    of the losses of the replicas on the [j]-th element of epoch [i],
    each computed with that batch size; an update of the metric pairs
    the labels of a replica's input with the thresholded logits of the
    model on the images of the same input. *)
Definition step_accounted (w : World) (GLOBAL_BATCH_SIZE : Z) (ds : dist_dataset)
    (ev : event) : Prop :=
  match ev with
  | Step_returned i j loss =>
      exists xs preds losses,
        fst (ds i) !! j = Some xs /\
        replicas_trained w GLOBAL_BATCH_SIZE i j 0 xs preds losses /\
        reduce_sum w i j losses = Ok loss
  | Metric_update i j r labels y_pred =>
      exists xs x pred,
        fst (ds i) !! j = Some xs /\ xs !! r = Some x /\
        labels = b_labels x /\
        model w i j r (b_images x) = Ok pred /\
        y_pred = actual_pred pred
  | _ => True
  end.

(** ** The first call that raises

    The calls of a run in the order the script makes them, given by the
    outcomes of the world: which of them return, and which is the first
    to raise. *)

(** In [train_step] on the input [x] of replica [r], the first of the
    model, the loss and the optimizer that raises, raises [e]. *)
Definition replica_raises (w : World) (GLOBAL_BATCH_SIZE : Z) (i j r : nat) (x : batch)
    (e : exn) : Prop :=
  match model w i j r (b_images x) with
  | Raise e' => e' = e
  | Ok pred =>
      match compute_loss w (b_labels x) pred GLOBAL_BATCH_SIZE with
      | Raise e' => e' = e
      | Ok _ => apply_gradients w i j r = Raise e
      end
  end.

(** In [step_fn] on the element [xs]: the replicas before one of them
    are trained and that one raises [e], or all are trained and the
    reduction raises [e]. *)
Inductive step_raises (w : World) (GLOBAL_BATCH_SIZE : Z) (i j : nat) (xs : list batch)
    (e : exn) : Prop :=
| replica_fails xs1 x xs2 preds losses :
    xs = xs1 ++ x :: xs2 ->
    replicas_trained w GLOBAL_BATCH_SIZE i j 0 xs1 preds losses ->
    replica_raises w GLOBAL_BATCH_SIZE i j (length xs1) x e ->
    step_raises w GLOBAL_BATCH_SIZE i j xs e
| reduction_fails preds losses :
    replicas_trained w GLOBAL_BATCH_SIZE i j 0 xs preds losses ->
    reduce_sum w i j losses = Raise e ->
    step_raises w GLOBAL_BATCH_SIZE i j xs e.

(** The steps [j], [j + 1], ... on the elements [xss] return the values
    [losses]; [predss] are the logits of the model for each replica. *)
Fixpoint steps_return (w : World) (GLOBAL_BATCH_SIZE : Z) (i j : nat) (xss : list (list batch))
    (predss : list (list (list (list f32)))) (losses : list f32) : Prop :=
  match xss, predss, losses with
  | [], [], [] => True
  | xs :: xss', preds :: predss', loss :: losses' =>
      (exists replica_losses,
         replicas_trained w GLOBAL_BATCH_SIZE i j 0 xs preds replica_losses /\
         reduce_sum w i j replica_losses = Ok loss) /\
      steps_return w GLOBAL_BATCH_SIZE i (S j) xss' predss' losses'
  | _, _, _ => False
  end.

(** The updates of the metric in these steps. *)
Fixpoint updates_of (xss : list (list batch)) (predss : list (list (list (list f32)))) :
    list update :=
  match xss, predss with
  | xs :: xss', preds :: predss' =>
      map (fun xp => (b_labels (fst xp), actual_pred (snd xp))) (combine xs preds)
      ++ updates_of xss' predss'
  | _, _ => []
  end.

(** Every call of epoch [i] returns: the steps on the elements the
    dataset yields, the iteration, on the coordinator the division and
    [log_metric], and the result of the metric. *)
Definition epoch_returns (w : World) (task_index : option Z) (GLOBAL_BATCH_SIZE : Z)
    (ds : dist_dataset) (i : nat) : Prop :=
  exists predss losses,
    steps_return w GLOBAL_BATCH_SIZE i 0 (fst (ds i)) predss losses /\
    snd (ds i) = None /\
    (eq0 task_index = true ->
     losses <> [] /\
     log_metric w (str "train_loss") (Tensor (mean_loss losses)) i = Ok tt) /\
    exists acc, result w i (updates_of (fst (ds i)) predss) = Ok acc.

(** In epoch [i], the first call that raises, raises [e]: a step after
    the steps before it returned; the iteration of the dataset after
    all steps; on the coordinator the division by zero batches, or
    [log_metric]; the result of the metric. *)
Inductive epoch_raises (w : World) (task_index : option Z) (GLOBAL_BATCH_SIZE : Z)
    (ds : dist_dataset) (i : nat) (e : exn) : Prop :=
| step_fails xss1 xs xss2 predss losses :
    fst (ds i) = xss1 ++ xs :: xss2 ->
    steps_return w GLOBAL_BATCH_SIZE i 0 xss1 predss losses ->
    step_raises w GLOBAL_BATCH_SIZE i (length xss1) xs e ->
    epoch_raises w task_index GLOBAL_BATCH_SIZE ds i e
| iteration_fails predss losses :
    steps_return w GLOBAL_BATCH_SIZE i 0 (fst (ds i)) predss losses ->
    snd (ds i) = Some e ->
    epoch_raises w task_index GLOBAL_BATCH_SIZE ds i e
| division_fails :
    ds i = ([], None) -> eq0 task_index = true -> e = ZeroDivisionError ->
    epoch_raises w task_index GLOBAL_BATCH_SIZE ds i e
| log_metric_fails predss losses :
    steps_return w GLOBAL_BATCH_SIZE i 0 (fst (ds i)) predss losses ->
    snd (ds i) = None -> eq0 task_index = true -> losses <> [] ->
    log_metric w (str "train_loss") (Tensor (mean_loss losses)) i = Raise e ->
    epoch_raises w task_index GLOBAL_BATCH_SIZE ds i e
| result_fails predss losses :
    steps_return w GLOBAL_BATCH_SIZE i 0 (fst (ds i)) predss losses ->
    snd (ds i) = None ->
    (eq0 task_index = true ->
     losses <> [] /\
     log_metric w (str "train_loss") (Tensor (mean_loss losses)) i = Ok tt) ->
    result w i (updates_of (fst (ds i)) predss) = Raise e ->
    epoch_raises w task_index GLOBAL_BATCH_SIZE ds i e.

(** In the run of [cli] in [w], the first call that raises, raises [e]:
    every call the script makes before it returns.  The calls are, in
    the order of the script: the imports, the loader, the argument
    parser, the split of the host list, on the coordinator
    [Experiment] and the two [log_other], the strategy, the objects of
    its scope, the distributed dataset, and the calls of the epochs 0,
    1, ... *)
Inductive raises_first (cli : outcome Namespace) (w : World) (e : exn) : Prop :=
| imports_fail :
    snd (imports w ∅) = Some e -> raises_first cli w e
| load_data_fails :
    snd (imports w ∅) = None -> load_data w = Raise e -> raises_first cli w e
| parse_args_fails d :
    snd (imports w ∅) = None -> load_data w = Ok d -> cli = Raise e -> raises_first cli w e
| split_fails d ns :
    snd (imports w ∅) = None -> load_data w = Ok d -> cli = Ok ns ->
    worker_hosts ns = None -> e = AttributeError -> raises_first cli w e
| Experiment_fails d ns hosts :
    snd (imports w ∅) = None -> load_data w = Ok d -> cli = Ok ns ->
    worker_hosts ns = Some hosts -> eq0 (task_index ns) = true ->
    Experiment w PROJECT_NAME = Raise e -> raises_first cli w e
| log_run_id_fails d ns hosts :
    snd (imports w ∅) = None -> load_data w = Ok d -> cli = Ok ns ->
    worker_hosts ns = Some hosts -> eq0 (task_index ns) = true ->
    Experiment w PROJECT_NAME = Ok tt ->
    log_other w (str "run_id") (of_opt_int (run_id ns)) = Raise e -> raises_first cli w e
| log_worker_hosts_fails d ns hosts :
    snd (imports w ∅) = None -> load_data w = Ok d -> cli = Ok ns ->
    worker_hosts ns = Some hosts -> eq0 (task_index ns) = true ->
    Experiment w PROJECT_NAME = Ok tt ->
    log_other w (str "run_id") (of_opt_int (run_id ns)) = Ok tt ->
    log_other w (str "worker_hosts") (of_opt_str (worker_hosts ns)) = Raise e ->
    raises_first cli w e
| strategy_fails d ns hosts :
    snd (imports w ∅) = None -> load_data w = Ok d -> cli = Ok ns ->
    worker_hosts ns = Some hosts -> tracking_opens w ns ->
    MultiWorkerMirroredStrategy w (training_environ w ns hosts) = Raise e ->
    raises_first cli w e
| scope_fails d ns hosts nr :
    snd (imports w ∅) = None -> load_data w = Ok d -> cli = Ok ns ->
    worker_hosts ns = Some hosts -> tracking_opens w ns ->
    MultiWorkerMirroredStrategy w (training_environ w ns hosts) = Ok nr ->
    scope_objects w = Raise e -> raises_first cli w e
| dataset_fails d ns hosts nr :
    snd (imports w ∅) = None -> load_data w = Ok d -> cli = Ok ns ->
    worker_hosts ns = Some hosts -> tracking_opens w ns ->
    MultiWorkerMirroredStrategy w (training_environ w ns hosts) = Ok nr ->
    scope_objects w = Ok tt ->
    distribute_datasets_from_function w (train_images (globals_of d))
      (train_labels (globals_of d)) (BUFFER_SIZE (globals_of d))
      (BATCH_SIZE_PER_REPLICA * Z.of_nat nr) = Raise e ->
    raises_first cli w e
| epoch_fails d ns hosts nr ds i :
    cli = Ok ns -> setup_returns w ns d hosts nr ds -> (i < EPOCHS)%nat ->
    (forall k, (k < i)%nat ->
       epoch_returns w (task_index ns) (BATCH_SIZE_PER_REPLICA * Z.of_nat nr) ds k) ->
    epoch_raises w (task_index ns) (BATCH_SIZE_PER_REPLICA * Z.of_nat nr) ds i e ->
    raises_first cli w e.

(** The world of the example where the optimizer raises in the second
    step of epoch 1. *)
Definition demo_world_optimizer_fails : World :=
  {| imports := imports demo_world;
     load_data := load_data demo_world;
     Experiment := Experiment demo_world;
     log_other := log_other demo_world;
     log_metric := log_metric demo_world;
     MultiWorkerMirroredStrategy := MultiWorkerMirroredStrategy demo_world;
     scope_objects := scope_objects demo_world;
     distribute_datasets_from_function := distribute_datasets_from_function demo_world;
     model := model demo_world;
     compute_loss := compute_loss demo_world;
     apply_gradients :=
       fun i j r => if (Nat.eqb i 1 && Nat.eqb j 1)%bool then Raise (LibraryError 3) else Ok tt;
     reduce_sum := reduce_sum demo_world;
     result := result demo_world |}.

(** * Reasoning about runs *)

Lemma bind_run {A B} (m : M A) (f : A -> M B) st r st' t :
  bind m f st = (r, st', t) ->
  (exists e, m st = (Raise e, st', t) /\ r = Raise e) \/
  (exists a st1 t1 t2, m st = (Ok a, st1, t1) /\ f a st1 = (r, st', t2) /\ t = t1 ++ t2).
Proof.
  unfold bind. destruct (m st) as [[[a|e] st1] t1].
  - destruct (f a st1) as [[r2 st2] t2] eqn:E. intros [= <- <- <-]. right. eauto 10.
  - intros [= <- <- <-]. left. eauto.
Qed.

Lemma bind_ok {A B} (m : M A) (f : A -> M B) st b st' t :
  bind m f st = (Ok b, st', t) ->
  exists a st1 t1 t2, m st = (Ok a, st1, t1) /\ f a st1 = (Ok b, st', t2) /\ t = t1 ++ t2.
Proof.
  intros H. apply bind_run in H as [(e & _ & He) | H]; [discriminate | exact H].
Qed.

Lemma lib_ok {A} (o : outcome A) st a st' t :
  lib o st = (Ok a, st', t) -> o = Ok a /\ st' = st /\ t = [].
Proof. destruct o; cbn; intros [= <- <- <-]; auto. Qed.

Lemma lib_run {A} (o : outcome A) st r st' t :
  lib o st = (r, st', t) ->
  r = o /\ st' = st /\ t = match o with Ok _ => [] | Raise e => [Raised e] end.
Proof. destruct o; cbn; intros [= <- <- <-]; auto. Qed.

Lemma bind_ret_l {A B} (a : A) (f : A -> M B) st : bind (ret a) f st = f a st.
Proof. unfold bind, ret. now destruct (f a st) as [[r st2] t2]. Qed.

Lemma bind_setenv {B} k v (f : unit -> M B) st :
  bind (setenv k v) f st
  = f tt {| environ := <[k := v]> (environ st); train_accuracy := train_accuracy st |}.
Proof.
  unfold bind, setenv.
  now destruct (f tt {| environ := <[k := v]> (environ st);
                        train_accuracy := train_accuracy st |}) as [[r st2] t2].
Qed.

Lemma bind_quiet {A B} (m : M A) (f : A -> M B) st a st1 :
  m st = (Ok a, st1, []) -> bind m f st = f a st1.
Proof. intros H. unfold bind. rewrite H. now destruct (f a st1) as [[r st2] t2]. Qed.

Lemma bind_raised {A B} (m : M A) (f : A -> M B) st e st1 t1 :
  m st = (Raise e, st1, t1) -> bind m f st = (Raise e, st1, t1).
Proof. intros H. unfold bind. now rewrite H. Qed.

(** Lines 21 to 43 import the modules, set [GRPC_FAIL_FAST] and load
    the dataset. *)
Lemma module_level_run w st :
  module_level w st
  = match snd (imports w (environ st)) with
    | Some e =>
        (Raise e,
         {| environ := fst (imports w (environ st)); train_accuracy := train_accuracy st |},
         [Raised e])
    | None =>
        let st' := {| environ := <[str "GRPC_FAIL_FAST" := str "use_caller"]>
                                   (fst (imports w (environ st)));
                      train_accuracy := train_accuracy st |} in
        match load_data w with
        | Ok d =>
            (Ok {| train_images := normalize (expand_last_axis (fst (fst d)));
                   train_labels := snd (fst d);
                   test_images := normalize (expand_last_axis (fst (snd d)));
                   test_labels := snd (snd d);
                   BUFFER_SIZE := length (normalize (expand_last_axis (fst (fst d)))) |},
             st', [])
        | Raise e => (Raise e, st', [Raised e])
        end
    end.
Proof.
  unfold module_level, import_modules. unfold bind at 1.
  destruct (snd (imports w (environ st))); [reflexivity|].
  rewrite bind_setenv. cbn [app environ train_accuracy].
  now destruct (load_data w).
Qed.

(** ** Events of a kind *)

Section Emits.
Context (P : event -> Prop).

Lemma emits_ret {A} (a : A) : emits P (ret a).
Proof. intros st r st' t [= <- <- <-]. constructor. Qed.

Lemma emits_throw {A} e : P (Raised e) -> emits P (@throw A e).
Proof. intros H st r st' t [= <- <- <-]. auto. Qed.

Lemma emits_emit ev : P ev -> emits P (emit ev).
Proof. intros H st r st' t [= <- <- <-]. auto. Qed.

Lemma emits_lib {A} (o : outcome A) :
  (forall e, o = Raise e -> P (Raised e)) -> emits P (lib o).
Proof.
  intros H st r st' t Hrun. apply lib_run in Hrun as (_ & _ & ->).
  destruct o; auto.
Qed.

Lemma emits_bind {A B} (m : M A) (f : A -> M B) :
  emits P m -> (forall a, emits P (f a)) -> emits P (bind m f).
Proof.
  intros Hm Hf st r st' t Hrun.
  apply bind_run in Hrun as [(e & Hrun & _) | (a & st1 & t1 & t2 & H1 & H2 & ->)].
  - eapply Hm, Hrun.
  - apply Forall_app. split; [eapply Hm, H1 | eapply Hf, H2].
Qed.

Lemma emits_bind_ret {A B} (a : A) (f : A -> M B) :
  emits P (f a) -> emits P (bind (ret a) f).
Proof.
  intros Hf st r st' t Hrun.
  apply bind_run in Hrun as [(e & [=] & _) | (a' & st1 & t1 & t2 & [= <- <- <-] & H2 & ->)].
  eapply Hf, H2.
Qed.

Lemma emits_bind_throw {A B} e (f : A -> M B) :
  P (Raised e) -> emits P (bind (throw e) f).
Proof.
  intros H st r st' t Hrun.
  apply bind_run in Hrun as [(e' & [= <- <- <-] & _) | (a' & st1 & t1 & t2 & [=] & _)].
  auto.
Qed.

(** The continuation of a library call runs only when the call returned. *)
Lemma emits_bind_lib {A B} (o : outcome A) (f : A -> M B) :
  (forall e, o = Raise e -> P (Raised e)) ->
  (forall a, o = Ok a -> emits P (f a)) ->
  emits P (bind (lib o) f).
Proof.
  intros Ho Hf st r st' t Hrun.
  apply bind_run in Hrun as [(e & Hrun & _) | (a & st1 & t1 & t2 & H1 & H2 & ->)].
  - eapply emits_lib; eauto.
  - apply lib_ok in H1 as (-> & -> & ->). cbn. eapply Hf; eauto.
Qed.

Lemma emits_for_each {A B} (body : nat -> A -> B -> M B) xs :
  (forall k x acc, In x xs -> emits P (body k x acc)) ->
  forall k acc, emits P (for_each body k xs acc).
Proof.
  induction xs as [|x xs IH]; intros Hbody k acc; cbn.
  - apply emits_ret.
  - apply emits_bind.
    + apply Hbody. now left.
    + intros a. apply IH. intros k' x' acc' Hin. apply Hbody. now right.
Qed.

Lemma emits_iterate {A B} (it : list A * option exn) (body : nat -> A -> B -> M B) acc :
  (forall k x acc, emits P (body k x acc)) ->
  (forall e, snd it = Some e -> P (Raised e)) ->
  emits P (iterate it body acc).
Proof.
  intros Hbody Hend. unfold iterate. apply emits_bind.
  - apply emits_for_each. intros. apply Hbody.
  - intros a. destruct (snd it); [apply emits_throw; auto | apply emits_ret].
Qed.

Lemma emits_setenv k v : emits P (setenv k v).
Proof. intros st r st' t [= <- <- <-]. constructor. Qed.

Lemma emits_getenv : emits P getenv.
Proof. intros st r st' t [= <- <- <-]. constructor. Qed.

Lemma emits_update_state i j r l p :
  P (Metric_update i j r l p) -> emits P (update_state i j r l p).
Proof. intros H st r0 st' t [= <- <- <-]. auto. Qed.

Lemma emits_accuracy_result w i :
  (forall e, P (Raised e)) -> emits P (accuracy_result w i).
Proof. intros H st r st' t Hrun. eapply emits_lib; eauto. Qed.

Lemma emits_import_modules w :
  (forall env e, snd (imports w env) = Some e -> P (Raised e)) -> emits P (import_modules w).
Proof.
  intros H st r st' t. unfold import_modules.
  destruct (snd (imports w (environ st))) eqn:E; intros [= <- <- <-].
  - constructor; [eapply H, E | constructor].
  - constructor.
Qed.

Lemma emits_reset_states i : P (Metric_reset i) -> emits P (reset_states i).
Proof. intros H st r st' t [= <- <- <-]. auto. Qed.
End Emits.

(** ** Raising and the metric's state *)

Lemma replay_app t1 t2 acc : replay (t1 ++ t2) acc = replay t2 (replay t1 acc).
Proof.
  revert acc. induction t1 as [|ev t1 IH]; intros acc; [reflexivity|].
  destruct ev; cbn; apply IH.
Qed.

Lemma regular_ret {A} (a : A) : regular (ret a).
Proof. intros st. split; cbn; auto. Qed.

Lemma regular_throw {A} e : regular (@throw A e).
Proof. intros st. split; cbn; auto. exists []. auto. Qed.

Lemma regular_emit ev :
  match ev with Raised _ | Metric_update _ _ _ _ _ | Metric_reset _ => False | _ => True end ->
  regular (emit ev).
Proof.
  intros H st. split; cbn.
  - destruct ev; try reflexivity; contradiction.
  - constructor; [|constructor]. destruct ev; cbn; auto.
Qed.

Lemma regular_lib {A} (o : outcome A) : regular (lib o).
Proof. destruct o; [apply regular_ret | apply regular_throw]. Qed.

Lemma regular_bind {A B} (m : M A) (f : A -> M B) :
  regular m -> (forall a, regular (f a)) -> regular (bind m f).
Proof.
  intros Hm Hf st. specialize (Hm st). unfold bind.
  destruct (m st) as [[[a|e] st1] t1]; [|exact Hm].
  specialize (Hf a st1). destruct (f a st1) as [[r st2] t2].
  destruct Hm as [Hc1 Hd1], Hf as [Hc2 Hd2]. cbn in *.
  split; cbn.
  - rewrite replay_app, <- Hc1. exact Hc2.
  - destruct r as [b|e].
    + apply Forall_app; auto.
    + destruct Hd2 as (pre & -> & Hpre). exists (t1 ++ pre).
      rewrite <- app_assoc. split; [reflexivity | apply Forall_app; auto].
Qed.

Lemma regular_for_each {A B} (body : nat -> A -> B -> M B) xs :
  (forall k x acc, regular (body k x acc)) ->
  forall k acc, regular (for_each body k xs acc).
Proof.
  intros Hbody. induction xs as [|x xs IH]; intros k acc; cbn.
  - apply regular_ret.
  - apply regular_bind; auto.
Qed.

Lemma regular_iterate {A B} (it : list A * option exn) (body : nat -> A -> B -> M B) acc :
  (forall k x acc, regular (body k x acc)) -> regular (iterate it body acc).
Proof.
  intros Hbody. unfold iterate. apply regular_bind.
  - apply regular_for_each, Hbody.
  - intros a. destruct (snd it); [apply regular_throw | apply regular_ret].
Qed.

Lemma regular_setenv k v : regular (setenv k v).
Proof. intros st. split; cbn; auto. Qed.

Lemma regular_getenv : regular getenv.
Proof. intros st. split; cbn; auto. Qed.

Lemma regular_update_state i j r l p : regular (update_state i j r l p).
Proof. intros st. split; cbn; auto. Qed.

Lemma regular_accuracy_result w i : regular (accuracy_result w i).
Proof. intros st. unfold accuracy_result. apply regular_lib. Qed.

Lemma regular_import_modules w : regular (import_modules w).
Proof.
  intros st. unfold import_modules, regular_run.
  destruct (snd (imports w (environ st))); cbn; split; auto.
  exists []. auto.
Qed.

Lemma regular_reset_states i : regular (reset_states i).
Proof. intros st. split; cbn; auto. Qed.

Ltac regular_step :=
  lazymatch goal with
  | |- regular (ret _) => apply regular_ret
  | |- regular (throw _) => apply regular_throw
  | |- regular (lib _) => apply regular_lib
  | |- regular (emit _) => apply regular_emit; exact I
  | |- regular (setenv _ _) => apply regular_setenv
  | |- regular getenv => apply regular_getenv
  | |- regular (update_state _ _ _ _ _) => apply regular_update_state
  | |- regular (accuracy_result _ _) => apply regular_accuracy_result
  | |- regular (reset_states _) => apply regular_reset_states
  | |- regular (import_modules _) => apply regular_import_modules
  | |- regular (bind _ _) => apply regular_bind; [|intros ?]
  | |- regular (for_each _ _ _ _) => apply regular_for_each; intros ? ? ?
  | |- regular (iterate _ _ _) => apply regular_iterate; intros ? ? ?
  | |- regular (if ?b then _ else _) => destruct b
  | |- regular (match ?x with _ => _ end) => destruct x
  end.

Lemma regular_train_step w GBS i j r x : regular (train_step w GBS i j r x).
Proof. unfold train_step. repeat regular_step. Qed.

Lemma regular_step_fn w GBS i j xs : regular (step_fn w GBS i j xs).
Proof.
  unfold step_fn, strategy_run. repeat regular_step. apply regular_train_step.
Qed.

Lemma regular_accumulate_all w GBS i j xs tn :
  regular (for_each (accumulate w GBS i) j xs tn).
Proof. unfold accumulate. repeat regular_step. apply regular_step_fn. Qed.

Lemma regular_epoch w ti ex GBS ds i : regular (epoch w ti ex GBS ds i).
Proof.
  unfold epoch, log_train_loss, accumulate.
  repeat regular_step; apply regular_step_fn.
Qed.

Lemma regular_main cli w g : regular (main cli w g).
Proof.
  unfold main, training, get_args, split_hosts, open_experiment.
  repeat regular_step; apply regular_epoch.
Qed.

Lemma regular_script cli w : regular (script cli w).
Proof.
  unfold script, module_level. repeat regular_step. apply regular_main.
Qed.

(** ** The events the script can write *)

Ltac emits_step :=
  lazymatch goal with
  | |- emits _ (ret _) => apply emits_ret
  | |- emits _ (throw _) => apply emits_throw
  | |- emits _ (emit _) => apply emits_emit
  | |- emits _ (setenv _ _) => apply emits_setenv
  | |- emits _ getenv => apply emits_getenv
  | |- emits _ (update_state _ _ _ _ _) => apply emits_update_state
  | |- emits _ (accuracy_result _ _) => apply emits_accuracy_result; intros ?
  | |- emits _ (reset_states _) => apply emits_reset_states
  | |- emits _ (import_modules _) => apply emits_import_modules; intros ? ? ?
  | |- emits _ (lib _) => apply emits_lib; intros ? ?
  | |- emits _ (bind (lib _) _) => apply emits_bind_lib; [intros ? ?|intros ? ?]
  | |- emits _ (bind _ _) => apply emits_bind; [|intros ?]
  | |- emits _ (iterate _ _ _) => apply emits_iterate; [intros ? ? ?|intros ? ?]
  | |- emits _ (for_each _ _ _ _) => apply emits_for_each; intros ? ? ? ?
  | |- emits _ (if ?b then _ else _) => destruct b eqn:?
  | |- emits _ (match ?x with _ => _ end) => destruct x eqn:?
  end.

Lemma emits_train_step w ti GBS i j r x :
  (i < EPOCHS)%nat -> emits (script_event w ti) (train_step w GBS i j r x).
Proof.
  intros Hi. unfold train_step. repeat emits_step; cbn [script_event]; eauto.
Qed.

Lemma emits_step_fn w ti GBS i j xs :
  (i < EPOCHS)%nat -> emits (script_event w ti) (step_fn w GBS i j xs).
Proof.
  intros Hi. unfold step_fn, strategy_run. apply emits_bind.
  - apply emits_for_each. intros. repeat emits_step. now apply emits_train_step.
  - intros a. repeat emits_step. exact I.
Qed.

Lemma emits_epoch w ti ex GBS ds i :
  (i < EPOCHS)%nat -> emits (script_event w ti) (epoch w ti ex GBS ds i).
Proof.
  intros Hi. unfold epoch, log_train_loss, accumulate.
  repeat emits_step; cbn [script_event]; auto; now apply emits_step_fn.
Qed.

Lemma emits_main cli w g : emits (script_event w (cli_task_index cli)) (main cli w g).
Proof.
  destruct cli as [ns|e]; cbn [cli_task_index].
  - unfold main, training, get_args, split_hosts, open_experiment. cbn [lib].
    apply emits_bind_ret.
    repeat emits_step; cbn [script_event]; auto.
    all: apply emits_epoch.
    all: match goal with H : In _ (seq _ _) |- _ => apply in_seq in H; lia end.
  - unfold main, get_args. cbn [lib]. apply emits_bind_throw. exact I.
Qed.

Lemma emits_script cli w : emits (script_event w (cli_task_index cli)) (script cli w).
Proof.
  unfold script, module_level. repeat emits_step; cbn [script_event]; auto.
  apply emits_main.
Qed.

Lemma script_events cli w :
  Forall (script_event w (cli_task_index cli)) (trace_of (run cli w)).
Proof.
  unfold run. destruct (script cli w initial) as [[r st] t] eqn:H.
  eapply emits_script, H.
Qed.

(** ** Computations that neither read nor write the environment *)

Lemma with_env_same st : with_env (environ st) st = st.
Proof. now destruct st. Qed.

Lemma env_blind_environ {A} (m : M A) st :
  env_blind m -> environ (store_of (m st)) = environ st.
Proof.
  intros H. specialize (H st (environ st)). rewrite with_env_same in H.
  destruct (m st) as [[r st'] t]. cbn in *. now inversion H.
Qed.

Lemma env_blind_ret {A} (a : A) : env_blind (ret a).
Proof. intros st e. reflexivity. Qed.

Lemma env_blind_throw {A} e : env_blind (@throw A e).
Proof. intros st e'. reflexivity. Qed.

Lemma env_blind_emit ev : env_blind (emit ev).
Proof. intros st e. reflexivity. Qed.

Lemma env_blind_lib {A} (o : outcome A) : env_blind (lib o).
Proof. destruct o; [apply env_blind_ret | apply env_blind_throw]. Qed.

Lemma env_blind_bind {A B} (m : M A) (f : A -> M B) :
  env_blind m -> (forall a, env_blind (f a)) -> env_blind (bind m f).
Proof.
  intros Hm Hf st e. unfold bind. rewrite (Hm st e).
  destruct (m st) as [[[a|e1] st1] t1]; cbn; [|reflexivity].
  rewrite (Hf a st1 e). now destruct (f a st1) as [[r st2] t2].
Qed.

Lemma env_blind_for_each {A B} (body : nat -> A -> B -> M B) xs :
  (forall k x acc, env_blind (body k x acc)) ->
  forall k acc, env_blind (for_each body k xs acc).
Proof.
  intros Hbody. induction xs as [|x xs IH]; intros k acc; cbn.
  - apply env_blind_ret.
  - apply env_blind_bind; auto.
Qed.

Lemma env_blind_iterate {A B} (it : list A * option exn) (body : nat -> A -> B -> M B) acc :
  (forall k x acc, env_blind (body k x acc)) -> env_blind (iterate it body acc).
Proof.
  intros Hbody. unfold iterate. apply env_blind_bind.
  - apply env_blind_for_each, Hbody.
  - intros a. destruct (snd it); [apply env_blind_throw | apply env_blind_ret].
Qed.

Lemma env_blind_update_state i j r l p : env_blind (update_state i j r l p).
Proof. intros st e. reflexivity. Qed.

Lemma env_blind_accuracy_result w i : env_blind (accuracy_result w i).
Proof.
  intros st e. unfold accuracy_result. cbn [with_env train_accuracy].
  now destruct (result w i (train_accuracy st)).
Qed.

Lemma env_blind_reset_states i : env_blind (reset_states i).
Proof. intros st e. reflexivity. Qed.

Ltac env_blind_step :=
  lazymatch goal with
  | |- env_blind (ret _) => apply env_blind_ret
  | |- env_blind (throw _) => apply env_blind_throw
  | |- env_blind (lib _) => apply env_blind_lib
  | |- env_blind (emit _) => apply env_blind_emit
  | |- env_blind (update_state _ _ _ _ _) => apply env_blind_update_state
  | |- env_blind (accuracy_result _ _) => apply env_blind_accuracy_result
  | |- env_blind (reset_states _) => apply env_blind_reset_states
  | |- env_blind (bind _ _) => apply env_blind_bind; [|intros ?]
  | |- env_blind (for_each _ _ _ _) => apply env_blind_for_each; intros ? ? ?
  | |- env_blind (iterate _ _ _) => apply env_blind_iterate; intros ? ? ?
  | |- env_blind (if ?b then _ else _) => destruct b
  | |- env_blind (match ?x with _ => _ end) => destruct x
  end.

Lemma env_blind_step_fn w GBS i j xs : env_blind (step_fn w GBS i j xs).
Proof.
  unfold step_fn, strategy_run. repeat env_blind_step.
  unfold train_step. repeat env_blind_step.
Qed.

Lemma env_blind_epoch w ti ex GBS ds i : env_blind (epoch w ti ex GBS ds i).
Proof.
  unfold epoch, log_train_loss, accumulate.
  repeat env_blind_step; apply env_blind_step_fn.
Qed.

(** Lines 134 to 147. *)
Lemma env_blind_epochs w ti ex GBS ds k xs :
  env_blind (for_each (fun _ i _ => epoch w ti ex GBS ds i) k xs tt).
Proof. apply env_blind_for_each. intros. apply env_blind_epoch. Qed.

(** ** The losses and the events of the steps *)

Lemma fold_left_iadd_Sum losses t :
  fold_left iadd losses (Sum t) = Sum (fold_left f32_add losses t).
Proof. revert t. induction losses as [|l ls IH]; intros t; cbn; auto. Qed.

Lemma truediv_ok losses q :
  truediv (fold_left iadd losses Int0) (length losses) = Ok q ->
  losses <> [] /\ q = Tensor (mean_loss losses).
Proof.
  destruct losses as [|l ls]; cbn; [discriminate|].
  rewrite fold_left_iadd_Sum. cbn. intros [= <-]. split; [discriminate|].
  reflexivity.
Qed.

(** With no batch, [0 / 0]. *)
Lemma truediv_empty : truediv Int0 0 = Raise ZeroDivisionError.
Proof. reflexivity. Qed.

Lemma step_events_projections i t :
  Forall (step_event i) t ->
  logged_metrics t = [] /\ printed t = [] /\ session t = [] /\ at_epoch i t = t /\
  (forall acc, replay t acc = acc ++ metric_updates t) /\
  (forall k, k <> i -> at_epoch k t = []).
Proof.
  induction 1 as [|ev t Hev _ (IH1 & IH2 & IH3 & IH4 & IH5 & IH6)].
  - repeat split; auto. intros acc. now rewrite app_nil_r.
  - destruct ev; try contradiction; cbn in Hev; subst; cbn.
    + repeat split; auto.
      * unfold at_epoch in *. cbn. rewrite decide_True by reflexivity. now rewrite IH4.
      * intros acc. rewrite IH5, <- app_assoc. reflexivity.
      * intros k Hk. unfold at_epoch in *. cbn.
        rewrite decide_False by congruence. now apply IH6.
    + repeat split; auto.
      * unfold at_epoch in *. cbn. rewrite decide_True by reflexivity. now rewrite IH4.
      * intros k Hk. unfold at_epoch in *. cbn.
        rewrite decide_False by congruence. now apply IH6.
Qed.

Lemma update_events_step i t :
  Forall (update_event i) t -> Forall (fun ev => ~ is_raised ev) t ->
  Forall (step_event i) t /\ step_losses t = [].
Proof.
  induction 1 as [|ev t Hev _ IH]; intros Hno; [auto|].
  apply Forall_cons_1 in Hno as [Hno1 Hno]. destruct (IH Hno) as [IH1 IH2].
  destruct ev; cbn in *; try contradiction; try tauto.
  split; [constructor; auto | exact IH2].
Qed.

(** ** Runs that return *)

Ltac inv_ok H :=
  lazymatch type of H with
  | bind _ _ _ = (Ok _, _, _) =>
      let H1 := fresh "Hrun" in
      let H2 := fresh "Hrun" in
      apply bind_ok in H as (? & ? & ? & ? & H1 & H2 & ->); inv_ok H1; inv_ok H2
  | lib _ _ = (Ok _, _, _) => apply lib_ok in H as (H & -> & ->)
  | ret _ _ = _ => cbv [ret] in H; inversion H; subst; clear H
  | emit _ _ = _ => cbv [emit] in H; inversion H; subst; clear H
  | throw _ _ = (Ok _, _, _) => discriminate H
  | setenv _ _ _ = _ => cbv [setenv] in H; inversion H; subst; clear H
  | getenv _ = _ => cbv [getenv] in H; inversion H; subst; clear H
  | reset_states _ _ = _ => cbv [reset_states] in H; inversion H; subst; clear H
  | _ => idtac
  end.

Lemma regular_ok {A} (m : M A) st a st' t :
  regular m -> m st = (Ok a, st', t) ->
  train_accuracy st' = replay t (train_accuracy st) /\ Forall (fun ev => ~ is_raised ev) t.
Proof. intros Hm H. specialize (Hm st). rewrite H in Hm. exact Hm. Qed.

Lemma emits_update_step_fn w GBS i j xs : emits (update_event i) (step_fn w GBS i j xs).
Proof.
  unfold step_fn, strategy_run. apply emits_bind.
  - apply emits_for_each. intros. unfold train_step. repeat emits_step; now cbn.
  - intros a. repeat emits_step. exact I.
Qed.

Lemma step_fn_ok w GBS i j xs st loss st' t :
  step_fn w GBS i j xs st = (Ok loss, st', t) ->
  Forall (step_event i) t /\ step_losses t = [].
Proof.
  intros H. apply update_events_step.
  - eapply emits_update_step_fn, H.
  - eapply regular_ok; [apply regular_step_fn | exact H].
Qed.

Lemma accumulate_ok w GBS i j x tn st tn' st' t :
  accumulate w GBS i j x tn st = (Ok tn', st', t) ->
  exists loss,
    Forall (step_event i) t /\ step_losses t = [loss] /\
    tn' = (iadd (fst tn) loss, S (snd tn)).
Proof.
  unfold accumulate. intros H. inv_ok H.
  match goal with H : step_fn _ _ _ _ _ _ = (Ok ?l, _, _) |- _ =>
    apply step_fn_ok in H as [Hs Hl]; exists l end.
  split; [|split; [|reflexivity]].
  - apply Forall_app. split; [exact Hs|]. repeat constructor.
  - unfold step_losses in *. rewrite omap_app, Hl. reflexivity.
Qed.

Lemma accumulate_all_ok w GBS i xs :
  forall j tn st tn' st' t,
    for_each (accumulate w GBS i) j xs tn st = (Ok tn', st', t) ->
    Forall (step_event i) t /\
    fst tn' = fold_left iadd (step_losses t) (fst tn) /\
    snd tn' = (snd tn + length (step_losses t))%nat /\
    length (step_losses t) = length xs.
Proof.
  induction xs as [|x xs IH]; intros j tn st tn' st' t H; cbn in H.
  - inv_ok H. cbn. repeat split; auto.
  - inv_ok H.
    match goal with H : accumulate _ _ _ _ _ _ _ = _ |- _ =>
      apply accumulate_ok in H as (loss & Hs & Hl & ->) end.
    match goal with H : for_each _ _ _ _ _ = _ |- _ =>
      apply IH in H as (Hs' & Hf & Hn & Hlen) end.
    cbn [fst snd] in *. unfold step_losses in *.
    rewrite omap_app, Hl. cbn. split; [|split; [|split]].
    + apply Forall_app; auto.
    + exact Hf.
    + rewrite Hn. lia.
    + now rewrite Hlen.
Qed.

Lemma log_train_loss_ok w ti ex tn i st u st' t :
  log_train_loss w ti ex tn i st = (Ok u, st', t) ->
  st' = st /\
  ((eq0 ti = true /\
    exists q, truediv (fst tn) (snd tn) = Ok q /\ t = [Log_metric (str "train_loss") q i]) \/
   (eq0 ti = false /\ t = [])).
Proof.
  unfold log_train_loss. destruct (eq0 ti); intros H.
  - destruct ex; [|discriminate].
    apply bind_ok in H as (q & sa & ta & tb & Hq & H & ->).
    apply bind_ok in H as (u2 & sb & tc & td & Hl & H & ->).
    inv_ok Hq. inv_ok Hl. inv_ok H. split; [reflexivity|]. left. eauto.
  - inv_ok H. auto.
Qed.

(** The parts of an epoch that ran to its end. *)
Lemma epoch_inv w ti ex GBS ds i st st' t :
  epoch w ti ex GBS ds i st = (Ok tt, st', t) ->
  exists tn st1 steps tlog acc,
    for_each (accumulate w GBS i) 0 (fst (ds i)) (Int0, O) st = (Ok tn, st1, steps) /\
    log_train_loss w ti ex tn i st1 = (Ok tt, st1, tlog) /\
    result w i (train_accuracy st1) = Ok acc /\
    st' = {| environ := environ st1; train_accuracy := [] |} /\
    t = steps ++ tlog ++ [Printed i acc; Metric_reset i].
Proof.
  intros H. unfold epoch in H.
  apply bind_ok in H as (tn & st1 & t1 & t2 & Hit & H & ->).
  apply bind_ok in H as ([] & st2 & tlog & t3 & Hlog & H & ->).
  apply bind_ok in H as (acc & st3 & tacc & t4 & Hres & H & ->).
  apply bind_ok in H as (u' & st4 & tp & tr & Hp & Hr & ->).
  inv_ok Hp. inv_ok Hr.
  unfold accuracy_result in Hres. apply lib_ok in Hres as (Hres & -> & ->).
  unfold iterate in Hit.
  apply bind_ok in Hit as (tn0 & st0 & steps & tend & Hsteps & Hend & ->).
  destruct (snd (ds i)); [discriminate|]. inv_ok Hend.
  pose proof (log_train_loss_ok _ _ _ _ _ _ _ _ _ Hlog) as [-> _].
  exists tn, st1, steps, tlog, acc. rewrite !app_nil_r. repeat split; auto.
Qed.

Lemma epoch_ok w ti ex GBS ds i st st' t :
  train_accuracy st = [] ->
  epoch w ti ex GBS ds i st = (Ok tt, st', t) ->
  epoch_trace w ti i t /\ train_accuracy st' = [] /\ environ st' = environ st.
Proof.
  intros Hinit H.
  assert (Henv : environ st' = environ st).
  { pose proof (env_blind_environ _ st (env_blind_epoch w ti ex GBS ds i)) as E.
    now rewrite H in E. }
  apply epoch_inv in H as (tn & st1 & steps & tlog & acc & Hsteps & Hlog & Hres & -> & ->).
  pose proof Hsteps as Hacc.
  apply regular_ok in Hacc as [Hacc _]; [|apply regular_accumulate_all].
  apply accumulate_all_ok in Hsteps as (Hsteps & Htot & Hn & _). cbn [fst snd] in *.
  destruct (step_events_projections _ _ Hsteps) as (_ & _ & _ & _ & Hreplay & _).
  rewrite Hreplay, Hinit in Hacc. cbn [app] in Hacc. rewrite Hacc in Hres.
  split; [|auto]. exists steps, acc.
  apply log_train_loss_ok in Hlog as [_ [(E & q & Hq & ->) | (E & ->)]]; rewrite E.
  - rewrite Htot, Hn in Hq. apply truediv_ok in Hq as [Hne ->]. repeat split; auto.
  - repeat split; auto; discriminate.
Qed.

Lemma epochs_ok w ti ex GBS ds n :
  forall a k st st' t,
    train_accuracy st = [] ->
    for_each (fun _ i _ => epoch w ti ex GBS ds i) k (seq a n) tt st = (Ok tt, st', t) ->
    exists segs,
      t = concat segs /\ Forall2 (epoch_trace w ti) (seq a n) segs /\
      train_accuracy st' = [] /\ environ st' = environ st.
Proof.
  induction n as [|n IH]; intros a k st st' t Hinit H; cbn in H.
  - inv_ok H. exists []. repeat split; auto.
  - apply bind_ok in H as ([] & st1 & t1 & t2 & He & H & ->).
    apply epoch_ok in He as (Hseg & Hinit1 & Henv1); [|exact Hinit].
    apply IH in H as (segs & -> & Hsegs & Hfin & Henv); [|exact Hinit1].
    exists (t1 :: segs). cbn. repeat split; auto; congruence.
Qed.

Lemma open_experiment_ok w ns st ex st' t :
  open_experiment w ns st = (Ok ex, st', t) -> st' = st /\ t = opening ns.
Proof.
  unfold open_experiment, opening. destruct (eq0 (task_index ns)); intros H.
  - apply bind_ok in H as (? & ? & ? & ? & H1 & H & ->). inv_ok H1.
    apply bind_ok in H as (? & ? & ? & ? & H2 & H & ->). inv_ok H2.
    apply bind_ok in H as (? & ? & ? & ? & H3 & H & ->). inv_ok H3.
    apply bind_ok in H as (? & ? & ? & ? & H4 & H & ->). inv_ok H4.
    apply bind_ok in H as (? & ? & ? & ? & H5 & H & ->). inv_ok H5.
    apply bind_ok in H as (? & ? & ? & ? & H6 & H & ->). inv_ok H6.
    inv_ok H. auto.
  - inv_ok H. auto.
Qed.

Lemma getenv_ok st e st' t :
  getenv st = (Ok e, st', t) -> e = environ st /\ st' = st /\ t = [].
Proof. intros [= <- <- <-]. auto. Qed.

(** The parts of a run that returns. *)
Lemma run_inv cli w st t :
  run cli w = (Ok tt, st, t) ->
  exists ns d hosts ex nr ds st0 t',
    cli = Ok ns /\ load_data w = Ok d /\ worker_hosts ns = Some hosts /\
    MultiWorkerMirroredStrategy w (environ st0) = Ok nr /\
    distribute_datasets_from_function w (train_images (globals_of d))
      (train_labels (globals_of d)) (BUFFER_SIZE (globals_of d))
      (BATCH_SIZE_PER_REPLICA * Z.of_nat nr) = Ok ds /\
    st0 = {| environ := <[str "TF_CONFIG" := TF_CONFIG ns hosts]>
                          (<[str "GRPC_FAIL_FAST" := str "use_caller"]> (imported w));
             train_accuracy := [] |} /\
    for_each (fun _ i _ => epoch w (task_index ns) ex (BATCH_SIZE_PER_REPLICA * Z.of_nat nr) ds i)
      0 (seq 0 EPOCHS) tt st0 = (Ok tt, st, t') /\
    t = opening ns ++ t' /\
    environ st = environ st0.
Proof.
  unfold run, script. intros H.
  apply bind_ok in H as (g & s0 & t0 & t1 & Hmod & H & ->).
  rewrite module_level_run in Hmod. cbn zeta in Hmod.
  change (environ initial) with (∅ : gmap (list N) (list N)) in Hmod.
  fold (imported w) in Hmod.
  destruct (snd (imports w ∅)) eqn:Himp; [discriminate|].
  destruct (load_data w) as [d|e] eqn:Hd; [|discriminate].
  injection Hmod as <- <- <-.
  destruct cli as [ns|e]; [|discriminate].
  unfold main, training, get_args in H. cbn [lib] in H.
  rewrite bind_ret_l in H. unfold split_hosts in H.
  destruct (worker_hosts ns) as [hosts|] eqn:Hwh; [|discriminate].
  rewrite bind_ret_l, bind_setenv in H.
  apply bind_ok in H as (ex & s3 & topen & td' & Hopen & H & ->).
  apply open_experiment_ok in Hopen as [-> ->].
  apply bind_ok in H as (env & s4 & te & te' & Hget & H & ->).
  apply getenv_ok in Hget as (-> & -> & ->).
  apply bind_ok in H as (nr & s5 & tf & tf' & Hstrat & H & ->).
  apply lib_ok in Hstrat as (Hstrat & -> & ->).
  apply bind_ok in H as (u2 & s6 & tg & tg' & Hscope & H & ->).
  apply lib_ok in Hscope as (_ & -> & ->).
  apply bind_ok in H as (ds & s7 & th & th' & Hds & H & ->).
  apply lib_ok in Hds as (Hds & -> & ->).
  exists ns, d, hosts, ex, nr, ds,
    {| environ := <[str "TF_CONFIG" := TF_CONFIG ns hosts]>
                    (<[str "GRPC_FAIL_FAST" := str "use_caller"]> (imported w));
       train_accuracy := [] |}, th'.
  split; [reflexivity|]. split; [reflexivity|]. split; [exact Hwh|].
  split; [exact Hstrat|]. split; [exact Hds|]. split; [reflexivity|].
  assert (H' : for_each
                 (fun _ i _ => epoch w (task_index ns) ex
                                 (BATCH_SIZE_PER_REPLICA * Z.of_nat nr) ds i)
                 0 (seq 0 EPOCHS) tt
                 {| environ := <[str "TF_CONFIG" := TF_CONFIG ns hosts]>
                                 (<[str "GRPC_FAIL_FAST" := str "use_caller"]> (imported w));
                    train_accuracy := [] |}
               = (Ok tt, st, th')) by exact H.
  split; [exact H'|]. split; [reflexivity|].
  pose proof (env_blind_environ _
                {| environ := <[str "TF_CONFIG" := TF_CONFIG ns hosts]>
                                (<[str "GRPC_FAIL_FAST" := str "use_caller"]> (imported w));
                   train_accuracy := [] |}
                (env_blind_epochs w (task_index ns) ex
                   (BATCH_SIZE_PER_REPLICA * Z.of_nat nr) ds 0 (seq 0 EPOCHS))) as E.
  rewrite H' in E. exact E.
Qed.

Lemma script_ok cli w st t :
  run cli w = (Ok tt, st, t) ->
  exists ns hosts segs,
    cli = Ok ns /\ worker_hosts ns = Some hosts /\
    t = opening ns ++ concat segs /\
    Forall2 (epoch_trace w (task_index ns)) (seq 0 EPOCHS) segs /\
    train_accuracy st = [] /\
    environ st = <[str "TF_CONFIG" := TF_CONFIG ns hosts]>
                   (<[str "GRPC_FAIL_FAST" := str "use_caller"]> (imported w)).
Proof.
  intros H.
  apply run_inv in H
    as (ns & d & hosts & ex & nr & ds & st0 & t' & -> & _ & Hwh & _ & _ & -> & H & -> & _).
  apply epochs_ok in H as (segs & -> & Hsegs & Hfin & Henv); [|reflexivity].
  exists ns, hosts, segs. repeat split; auto.
Qed.

(** ** Runs in which no library call raises *)

Lemma returns_ret {A} (a : A) : returns (ret a).
Proof. intros st. exists a, st, []. reflexivity. Qed.

Lemma returns_emit ev : returns (emit ev).
Proof. intros st. exists tt, st, [ev]. reflexivity. Qed.

Lemma returns_lib {A} (o : outcome A) a : o = Ok a -> returns (lib o).
Proof. intros -> st. exists a, st, []. reflexivity. Qed.

(** [f] need only return on the values [m] can return. *)
Lemma returns_bind {A B} (m : M A) (f : A -> M B) (Q : A -> Prop) :
  (forall st, exists a st' t, m st = (Ok a, st', t) /\ Q a) ->
  (forall a, Q a -> returns (f a)) ->
  returns (bind m f).
Proof.
  intros Hm Hf st. destruct (Hm st) as (a & st1 & t1 & H1 & Ha).
  destruct (Hf a Ha st1) as (b & st2 & t2 & H2).
  exists b, st2, (t1 ++ t2). unfold bind. now rewrite H1, H2.
Qed.

Lemma returns_bind' {A B} (m : M A) (f : A -> M B) :
  returns m -> (forall a, returns (f a)) -> returns (bind m f).
Proof.
  intros Hm Hf. apply (returns_bind m f (fun _ => True)); [|auto].
  intros st. destruct (Hm st) as (a & st' & t & H). eauto 10.
Qed.

Lemma returns_for_each {A B} (body : nat -> A -> B -> M B) xs :
  (forall k x acc, returns (body k x acc)) ->
  forall k acc, returns (for_each body k xs acc).
Proof.
  intros Hbody. induction xs as [|x xs IH]; intros k acc; cbn.
  - apply returns_ret.
  - apply returns_bind'; auto.
Qed.

Section WellBehaved.
Variable w : World.
Hypothesis Hw : well_behaved w.

Lemma returns_step_fn GBS i j xs : returns (step_fn w GBS i j xs).
Proof.
  destruct Hw as (_ & _ & _ & _ & _ & _ & _ & _ & Hmodel & Hloss & Happly & Hsum & _).
  unfold step_fn, strategy_run. apply returns_bind'.
  - apply returns_for_each. intros r x losses. apply returns_bind'; [|intros; apply returns_ret].
    unfold train_step.
    destruct (Hmodel i j r (b_images x)) as [pred Hp].
    apply returns_bind'; [exact (returns_lib _ _ Hp)|]. intros pred'.
    destruct (Hloss (b_labels x) pred' GBS) as [l Hl].
    apply returns_bind'; [exact (returns_lib _ _ Hl)|]. intros l'.
    apply returns_bind'; [exact (returns_lib _ _ (Happly i j r))|]. intros _.
    apply returns_bind'; [|intros; apply returns_ret].
    intros st. eexists _, _, _. reflexivity.
  - intros losses. destruct (Hsum i j losses) as [x Hx]. exact (returns_lib _ _ Hx).
Qed.

Lemma returns_accumulate GBS i j xs tn : returns (for_each (accumulate w GBS i) j xs tn).
Proof.
  apply returns_for_each. intros k x acc. unfold accumulate.
  apply returns_bind'; [apply returns_step_fn|]. intros loss.
  apply returns_bind'; [apply returns_emit | intros; apply returns_ret].
Qed.

Lemma returns_epoch ti ex GBS ds i :
  snd (ds i) = None -> fst (ds i) <> [] -> (eq0 ti = true -> ex = Some tt) ->
  returns (epoch w ti ex GBS ds i).
Proof.
  intros Hend Hne Hex.
  destruct Hw as (_ & _ & _ & _ & Hlog & _ & _ & _ & _ & _ & _ & _ & Hres).
  unfold epoch. apply (returns_bind _ _ (fun tn => snd tn <> O)).
  - intros st. unfold iterate. rewrite Hend.
    destruct (returns_accumulate GBS i 0 (fst (ds i)) (Int0, O) st) as (tn & st' & t & H).
    exists tn, st', (t ++ []). split; [unfold bind; now rewrite H|].
    apply accumulate_all_ok in H as (_ & _ & Hn & Hlen). rewrite Hn, Hlen. cbn.
    destruct (fst (ds i)); [contradiction | discriminate].
  - intros tn Htn. apply returns_bind'.
    + unfold log_train_loss. destruct (eq0 ti); [|apply returns_ret].
      rewrite (Hex eq_refl).
      assert (Hq : exists q, truediv (fst tn) (snd tn) = Ok q).
      { unfold truediv. destruct (fst tn); [|eauto].
        destruct (snd tn); [contradiction | eauto]. }
      destruct Hq as [q Hq].
      apply returns_bind'; [exact (returns_lib _ _ Hq)|]. intros q'.
      apply returns_bind'; [exact (returns_lib _ _ (Hlog _ _ _)) | intros; apply returns_emit].
    + intros _. apply returns_bind'.
      * intros st. unfold accuracy_result.
        destruct (Hres i (train_accuracy st)) as [a Ha]. exact (returns_lib _ _ Ha st).
      * intros acc. apply returns_bind'; [apply returns_emit|].
        intros _ st. eexists _, _, _. reflexivity.
Qed.

Lemma returns_open_experiment ns st :
  exists ex st' t,
    open_experiment w ns st = (Ok ex, st', t) /\ (eq0 (task_index ns) = true -> ex = Some tt).
Proof.
  destruct Hw as (_ & _ & Hexp & Hother & _).
  unfold open_experiment. destruct (eq0 (task_index ns)).
  - unfold bind. rewrite Hexp, !Hother. cbn. eexists _, _, _. split; [reflexivity | auto].
  - exists None, st, []. split; [reflexivity | discriminate].
Qed.

Lemma returns_training ti g ex :
  (eq0 ti = true -> ex = Some tt) -> returns (training w ti g ex).
Proof.
  intros Hex.
  destruct Hw as (_ & _ & _ & _ & _ & Hstrat & Hscope & Hds & _).
  unfold training.
  apply returns_bind'; [intros st; eexists _, _, _; reflexivity|]. intros env.
  destruct (Hstrat env) as [n Hn].
  apply returns_bind'; [exact (returns_lib _ _ Hn)|]. intros nr.
  apply returns_bind'; [exact (returns_lib _ _ Hscope)|]. intros _.
  destruct (Hds (train_images g) (train_labels g) (BUFFER_SIZE g)
              (BATCH_SIZE_PER_REPLICA * Z.of_nat nr)) as (ds & Hd & Hbatches).
  apply (returns_bind _ _ (fun ds => forall i, snd (ds i) = None /\ fst (ds i) <> [])).
  - intros st. exists ds, st, []. rewrite Hd. auto.
  - intros ds' Hds'. apply returns_for_each. intros k i [].
    destruct (Hds' i). now apply returns_epoch.
Qed.

(** When no library call raises, every epoch has a batch and the host
    list is given, the program returns. *)
Lemma run_returns ns hosts :
  worker_hosts ns = Some hosts -> outcome_of (run (Ok ns) w) = Ok tt.
Proof.
  intros Hwh.
  assert (R : returns (script (Ok ns) w)).
  { destruct Hw as (Himp & (d & Hd) & _).
    unfold script. apply returns_bind'.
    - intros st. rewrite module_level_run, Himp, Hd. eexists _, _, _. reflexivity.
    - intros g st. unfold main, get_args. cbn [lib]. rewrite bind_ret_l.
      unfold split_hosts. rewrite Hwh, bind_ret_l, bind_setenv.
      apply (returns_bind _ _ (fun ex => eq0 (task_index ns) = true -> ex = Some tt)).
      + intros st0. apply returns_open_experiment.
      + intros ex Hex. now apply returns_training. }
  destruct (R initial) as ([] & st' & t & H). unfold run. now rewrite H.
Qed.
End WellBehaved.

Lemma demo_world_well_behaved : well_behaved demo_world.
Proof.
  unfold well_behaved, demo_world. cbn.
  repeat split; eauto.
Qed.

(** ** Runs whose calls return *)

Lemma bind_step {A B} (m : M A) (f : A -> M B) st a st1 t1 :
  m st = (Ok a, st1, t1) ->
  bind m f st = (outcome_of (f a st1), store_of (f a st1), t1 ++ trace_of (f a st1)).
Proof. intros H. unfold bind. rewrite H. now destruct (f a st1) as [[r st2] t2]. Qed.

Lemma open_experiment_run w ns st :
  tracking_opens w ns ->
  open_experiment w ns st = (Ok (experiment_of ns), st, opening ns).
Proof.
  unfold tracking_opens, open_experiment, experiment_of, opening.
  destruct (eq0 (task_index ns)); [|reflexivity].
  intros H. destruct (H eq_refl) as (H1 & H2 & H3).
  unfold bind. rewrite H1, H2, H3. reflexivity.
Qed.

Lemma open_experiment_returned w ns st ex st' t :
  open_experiment w ns st = (Ok ex, st', t) -> tracking_opens w ns /\ ex = experiment_of ns.
Proof.
  unfold tracking_opens, open_experiment, experiment_of.
  destruct (eq0 (task_index ns)); intros H.
  - apply bind_ok in H as ([] & ? & ? & ? & H1 & H & ->). apply lib_ok in H1 as (H1 & -> & ->).
    apply bind_ok in H as (? & ? & ? & ? & H2 & H & ->). inv_ok H2.
    apply bind_ok in H as ([] & ? & ? & ? & H3 & H & ->). apply lib_ok in H3 as (H3 & -> & ->).
    apply bind_ok in H as (? & ? & ? & ? & H4 & H & ->). inv_ok H4.
    apply bind_ok in H as ([] & ? & ? & ? & H5 & H & ->). apply lib_ok in H5 as (H5 & -> & ->).
    apply bind_ok in H as (? & ? & ? & ? & H6 & H & ->). inv_ok H6.
    inv_ok H. auto.
  - inv_ok H. split; [discriminate | reflexivity].
Qed.

Lemma training_run w ns g nr ds st :
  MultiWorkerMirroredStrategy w (environ st) = Ok nr ->
  scope_objects w = Ok tt ->
  distribute_datasets_from_function w (train_images g) (train_labels g) (BUFFER_SIZE g)
    (BATCH_SIZE_PER_REPLICA * Z.of_nat nr) = Ok ds ->
  training w (task_index ns) g (experiment_of ns) st = epochs w ns nr ds st.
Proof.
  intros H1 H2 H3. unfold training.
  erewrite bind_quiet by reflexivity.
  erewrite bind_quiet by (rewrite H1; reflexivity).
  erewrite bind_quiet by (rewrite H2; reflexivity).
  erewrite bind_quiet by (rewrite H3; reflexivity).
  reflexivity.
Qed.

(** When the calls before the loop return, the run is the opening of
    the session followed by the loop. *)
Lemma run_after_setup w ns d hosts nr ds :
  setup_returns w ns d hosts nr ds ->
  run (Ok ns) w
  = (outcome_of (epochs w ns nr ds (training_store w ns hosts)),
     store_of (epochs w ns nr ds (training_store w ns hosts)),
     opening ns ++ trace_of (epochs w ns nr ds (training_store w ns hosts))).
Proof.
  intros (Himp & Hd & Hwh & Hopen & Hstrat & Hscope & Hds). unfold run, script.
  erewrite bind_quiet
    by (rewrite module_level_run; cbn [environ initial]; rewrite Himp, Hd; reflexivity).
  unfold main, get_args. cbn [lib]. rewrite bind_ret_l.
  unfold split_hosts. rewrite Hwh, bind_ret_l, bind_setenv.
  erewrite bind_step by (apply open_experiment_run, Hopen).
  erewrite training_run; [reflexivity | exact Hstrat | exact Hscope | exact Hds].
Qed.

(** ** The calls of one step *)

Lemma update_state_run i j r labels p st :
  update_state i j r labels p st
  = (Ok tt,
     {| environ := environ st; train_accuracy := train_accuracy st ++ [(labels, p)] |},
     [Metric_update i j r labels p]).
Proof. reflexivity. Qed.

Lemma train_step_ok w GBS i j r x st loss st' t :
  train_step w GBS i j r x st = (Ok loss, st', t) ->
  exists pred,
    replica_trained w GBS i j r x pred loss /\
    t = [Metric_update i j r (b_labels x) (actual_pred pred)] /\
    st' = {| environ := environ st;
             train_accuracy := train_accuracy st ++ [(b_labels x, actual_pred pred)] |}.
Proof.
  unfold train_step. intros H.
  apply bind_ok in H as (pred & ? & ? & ? & H1 & H & ->). apply lib_ok in H1 as (H1 & -> & ->).
  apply bind_ok in H as (l & ? & ? & ? & H2 & H & ->). apply lib_ok in H2 as (H2 & -> & ->).
  apply bind_ok in H as ([] & ? & ? & ? & H3 & H & ->). apply lib_ok in H3 as (H3 & -> & ->).
  apply bind_ok in H as ([] & ? & ? & ? & H4 & H & ->).
  rewrite update_state_run in H4. injection H4 as <- <-.
  injection H as <- <- <-. exists pred. split; [now repeat split|].
  rewrite app_nil_r. auto.
Qed.

Lemma train_step_run w GBS i j r x pred loss st :
  replica_trained w GBS i j r x pred loss ->
  train_step w GBS i j r x st
  = (Ok loss,
     {| environ := environ st;
        train_accuracy := train_accuracy st ++ [(b_labels x, actual_pred pred)] |},
     [Metric_update i j r (b_labels x) (actual_pred pred)]).
Proof.
  intros (H1 & H2 & H3). unfold train_step.
  erewrite bind_quiet by (rewrite H1; reflexivity).
  erewrite bind_quiet by (rewrite H2; reflexivity).
  erewrite bind_quiet by (rewrite H3; reflexivity).
  reflexivity.
Qed.

Lemma metric_updates_replica_updates i j r xs preds :
  length preds = length xs ->
  metric_updates (replica_updates i j r xs preds)
  = map (fun xp => (b_labels (fst xp), actual_pred (snd xp))) (combine xs preds).
Proof.
  revert r preds. induction xs as [|x xs IH]; intros r [|p ps] Hl; try discriminate.
  - reflexivity.
  - cbn. f_equal. apply IH. now injection Hl.
Qed.

Lemma replicas_trained_length w GBS i j r xs preds losses :
  replicas_trained w GBS i j r xs preds losses ->
  length preds = length xs /\ length losses = length xs.
Proof.
  revert r preds losses.
  induction xs as [|x xs IH]; intros r [|p ps] [|l ls] H; try contradiction; [auto|].
  destruct H as [_ H]. apply IH in H as [H1 H2]. cbn. auto.
Qed.

Lemma strategy_run_ok w GBS i j xs :
  forall r acc st ls st' t,
    for_each (fun r x losses => let* l := train_step w GBS i j r x in ret (losses ++ [l]))
      r xs acc st = (Ok ls, st', t) ->
    exists preds losses,
      replicas_trained w GBS i j r xs preds losses /\
      ls = acc ++ losses /\
      t = replica_updates i j r xs preds /\
      st' = {| environ := environ st;
               train_accuracy := train_accuracy st ++ metric_updates t |}.
Proof.
  induction xs as [|x xs IH]; intros r acc st ls st' t H; cbn [for_each] in H.
  - injection H as <- <- <-. exists [], []. rewrite !app_nil_r. destruct st. now cbn.
  - apply bind_ok in H as (acc1 & st1 & t1 & t2 & H1 & H & ->).
    apply bind_ok in H1 as (l & st2 & t3 & t4 & Hstep & Hret & ->).
    injection Hret as <- <- <-. rewrite app_nil_r.
    apply train_step_ok in Hstep as (pred & Hrep & -> & ->).
    apply IH in H as (preds & losses & Hreps & -> & -> & ->).
    exists (pred :: preds), (l :: losses). cbn [replicas_trained replica_updates].
    split; [auto|]. split; [now rewrite <- app_assoc|]. split; [reflexivity|].
    cbn [environ train_accuracy app]. f_equal.
    unfold metric_updates at 2. cbn [omap]. now rewrite <- app_assoc.
Qed.

Lemma strategy_run_run w GBS i j xs :
  forall r preds losses acc st,
    replicas_trained w GBS i j r xs preds losses ->
    for_each (fun r x losses => let* l := train_step w GBS i j r x in ret (losses ++ [l]))
      r xs acc st
    = (Ok (acc ++ losses),
       {| environ := environ st;
          train_accuracy := train_accuracy st
                            ++ metric_updates (replica_updates i j r xs preds) |},
       replica_updates i j r xs preds).
Proof.
  induction xs as [|x xs IH]; intros r [|p ps] [|l ls] acc st H; try contradiction.
  - cbn. rewrite !app_nil_r. now destruct st.
  - destruct H as [Hrep H]. cbn [for_each].
    assert (Hbody : (let* l0 := train_step w GBS i j r x in ret (acc ++ [l0])) st
                    = (Ok (acc ++ [l]),
                       {| environ := environ st;
                          train_accuracy :=
                            train_accuracy st ++ [(b_labels x, actual_pred p)] |},
                       [Metric_update i j r (b_labels x) (actual_pred p)])).
    { erewrite bind_step by (apply train_step_run, Hrep). cbn. reflexivity. }
    erewrite bind_step by exact Hbody.
    rewrite (IH _ _ _ _ _ H). cbn [outcome_of store_of trace_of fst snd environ train_accuracy].
    rewrite <- !app_assoc. cbn [app replica_updates].
    unfold metric_updates at 2. cbn [omap]. reflexivity.
Qed.

Lemma step_fn_returned w GBS i j xs st loss st' t :
  step_fn w GBS i j xs st = (Ok loss, st', t) ->
  exists preds losses,
    replicas_trained w GBS i j 0 xs preds losses /\
    reduce_sum w i j losses = Ok loss /\
    t = replica_updates i j 0 xs preds /\
    st' = {| environ := environ st;
             train_accuracy :=
               train_accuracy st
               ++ map (fun xp => (b_labels (fst xp), actual_pred (snd xp)))
                    (combine xs preds) |}.
Proof.
  unfold step_fn, strategy_run.
  intros H. apply bind_ok in H as (ls & st1 & t1 & t2 & Hrun & Hred & ->).
  apply lib_ok in Hred as (Hred & -> & ->).
  apply strategy_run_ok in Hrun as (preds & losses & Hreps & -> & -> & ->).
  exists preds, losses. rewrite app_nil_r. cbn [app] in Hred.
  rewrite metric_updates_replica_updates by (eapply replicas_trained_length, Hreps).
  auto.
Qed.

Lemma step_fn_run w GBS i j xs st loss preds losses :
  replicas_trained w GBS i j 0 xs preds losses ->
  reduce_sum w i j losses = Ok loss ->
  step_fn w GBS i j xs st
  = (Ok loss,
     {| environ := environ st;
        train_accuracy :=
          train_accuracy st
          ++ map (fun xp => (b_labels (fst xp), actual_pred (snd xp))) (combine xs preds) |},
     replica_updates i j 0 xs preds).
Proof.
  intros Hreps Hred. unfold step_fn, strategy_run.
  erewrite bind_step by (apply strategy_run_run, Hreps).
  cbn [app]. rewrite Hred. cbn [lib outcome_of store_of trace_of fst snd ret].
  rewrite app_nil_r.
  now rewrite metric_updates_replica_updates by (eapply replicas_trained_length, Hreps).
Qed.

(** ** Computations that agree at every store *)

Lemma bind_ext {A B} (m1 m2 : M A) (f1 f2 : A -> M B) :
  (forall st, m1 st = m2 st) -> (forall a st, f1 a st = f2 a st) ->
  forall st, bind m1 f1 st = bind m2 f2 st.
Proof.
  intros Hm Hf st. unfold bind. rewrite Hm.
  destruct (m2 st) as [[[a|e] st1] t1]; [|reflexivity]. now rewrite Hf.
Qed.

Lemma for_each_ext {A B} (b1 b2 : nat -> A -> B -> M B) xs :
  (forall k x acc st, b1 k x acc st = b2 k x acc st) ->
  forall k acc st, for_each b1 k xs acc st = for_each b2 k xs acc st.
Proof.
  intros Hb. induction xs as [|x xs IH]; intros k acc st; [reflexivity|].
  cbn [for_each]. apply bind_ext; [apply Hb | intros; apply IH].
Qed.

(** * The claims *)

(** ** C8: splitting the host list *)

Lemma split_length c s : length (split c s) = S (count_char c s).
Proof.
  induction s as [|x s IH]; [reflexivity|]. cbn.
  destruct (N.eqb x c); cbn; [now rewrite IH|].
  destruct (split c s) as [|w ws]; [discriminate|]. cbn in *. exact IH.
Qed.

(** Joining the pieces with the separator gives the string back, and no
    piece contains the separator. *)
Lemma join_cons sep p q qs : join sep (p :: q :: qs) = p ++ sep ++ join sep (q :: qs).
Proof. reflexivity. Qed.

Lemma join_split c s : join [c] (split c s) = s.
Proof.
  induction s as [|x s IH]; [reflexivity|]. cbn [split].
  pose proof (split_length c s) as Hl.
  destruct (split c s) as [|w ws]; [discriminate|].
  destruct (N.eqb_spec x c) as [->|Hne].
  - rewrite join_cons, IH. reflexivity.
  - destruct ws as [|w' ws].
    + cbn in *. now rewrite IH.
    + rewrite join_cons in *. rewrite <- IH. reflexivity.
Qed.

Lemma split_pieces c s : Forall (fun piece => ~ In c piece) (split c s).
Proof.
  induction s as [|x s IH]; cbn.
  - constructor; [intros [] | constructor].
  - destruct (N.eqb_spec x c) as [->|Hne].
    + constructor; [intros [] | exact IH].
    + destruct (split c s) as [|w ws]; [repeat constructor; intros [?|[]]; congruence|].
      apply Forall_cons_1 in IH as [Hw Hws]. constructor; [|exact Hws].
      intros [?|?]; [congruence | contradiction].
Qed.

(** C8. For every worker-hosts string, the empty one included, the
    split on commas has at least one element: the worker list of the
    cluster descriptor is never empty, and the number of workers is the
    number of commas plus one. *)
Theorem split_hosts_never_empty (s : pystr) :
  split comma s <> [] /\
  (1 <= length (split comma s))%nat /\
  length (split comma s) = S (count_char comma s) /\
  split comma [] = [[]].
Proof.
  pose proof (split_length comma s) as H.
  repeat split; [|lia|exact H].
  intros E. rewrite E in H. discriminate.
Qed.

(** ** C6: the normalisation of the images *)




(** ** The text [json.dumps] returns is printable ASCII *)

Section JsonInduction.
Variable P : json -> Prop.
Hypothesis HNull : P JNull.
Hypothesis HInt : forall z, P (JInt z).
Hypothesis HStr : forall s, P (JStr s).
Hypothesis HList : forall items, Forall P items -> P (JList items).
Hypothesis HDict : forall items, Forall (fun kv => P (snd kv)) items -> P (JDict items).

Lemma json_nested_ind (j : json) : P j.
Proof.
  revert j.
  exact (fix ind (j : json) : P j :=
           match j with
           | JNull => HNull
           | JInt z => HInt z
           | JStr s => HStr s
           | JList items =>
               HList items
                 ((fix go (l : list json) : Forall P l :=
                     match l with
                     | [] => @List.Forall_nil _ P
                     | x :: l' => @List.Forall_cons _ P x l' (ind x) (go l')
                     end) items)
           | JDict items =>
               HDict items
                 ((fix go (l : list (pystr * json)) : Forall (fun kv => P (snd kv)) l :=
                     match l with
                     | [] => @List.Forall_nil _ _
                     | (k, v) :: l' =>
                         @List.Forall_cons _ (fun kv => P (snd kv)) (k, v) l' (ind v) (go l')
                     end) items)
           end).
Qed.
End JsonInduction.

Lemma ascii_text_app s1 s2 : ascii_text s1 -> ascii_text s2 -> ascii_text (s1 ++ s2).
Proof. unfold ascii_text. intros H1 H2. now rewrite forallb_app, H1, H2. Qed.

Lemma ascii_text_join sep parts :
  ascii_text sep -> Forall ascii_text parts -> ascii_text (join sep parts).
Proof.
  intros Hsep H. induction H as [|p ps Hp Hps IH]; [reflexivity|].
  destruct ps as [|q qs]; [exact Hp|].
  rewrite join_cons. auto using ascii_text_app.
Qed.

Lemma hex_digit_printable n : (n < 16)%N -> printable (hex_digit n) = true.
Proof.
  intros Hn. unfold hex_digit, printable.
  destruct (N.ltb_spec n 10); apply andb_true_intro; split; apply N.leb_le; lia.
Qed.

Lemma land_15 n : (N.land n 15 < 16)%N.
Proof.
  change 15%N with (N.ones 4). rewrite N.land_ones. now apply N.mod_lt.
Qed.

Lemma u_escape_ascii n : ascii_text (u_escape n).
Proof.
  unfold ascii_text, u_escape, hex4. cbn [forallb].
  rewrite !hex_digit_printable by apply land_15. reflexivity.
Qed.

Lemma escape_char_ascii c : ascii_text (escape_char c).
Proof.
  unfold escape_char.
  repeat match goal with
         | |- context [if N.eqb c ?k then _ else _] => destruct (N.eqb c k); [reflexivity|]
         end.
  destruct (N.leb 32 c && N.leb c 126)%bool eqn:E.
  - unfold ascii_text. cbn [forallb]. unfold printable. now rewrite E.
  - destruct (N.ltb c 65536); [apply u_escape_ascii|].
    apply ascii_text_app; apply u_escape_ascii.
Qed.

Lemma encode_basestring_ascii_ascii s : ascii_text (encode_basestring_ascii s).
Proof.
  unfold encode_basestring_ascii.
  change (dquote :: flat_map escape_char s ++ [dquote])
    with ([dquote] ++ flat_map escape_char s ++ [dquote]).
  apply ascii_text_app; [reflexivity|]. apply ascii_text_app; [|reflexivity].
  induction s as [|c s IH]; [reflexivity|].
  cbn [flat_map]. apply ascii_text_app; [apply escape_char_ascii | exact IH].
Qed.

Lemma str_String c s : str (String c s) = [N_of_ascii c] ++ str s.
Proof. reflexivity. Qed.

Lemma repr_int_ascii z : ascii_text (repr_int z).
Proof.
  assert (H : forall d, ascii_text (str (NilEmpty.string_of_uint d))).
  { induction d; [reflexivity| | | | | | | | | | ];
      cbn [NilEmpty.string_of_uint]; rewrite str_String;
      (apply ascii_text_app; [reflexivity | exact IHd]). }
  assert (H0 : forall d, ascii_text (str (NilZero.string_of_uint d))).
  { intros d. unfold NilZero.string_of_uint. destruct d; try apply H. reflexivity. }
  unfold repr_int, NilZero.string_of_int.
  destruct (Z.to_int z) as [d|d]; [apply H0|].
  rewrite str_String. apply ascii_text_app; [reflexivity | apply H0].
Qed.

Lemma dumps_ascii j : ascii_text (dumps j).
Proof.
  induction j as [| z | s | items IH | items IH] using json_nested_ind.
  - reflexivity.
  - apply repr_int_ascii.
  - apply encode_basestring_ascii_ascii.
  - cbn [dumps]. destruct items as [|x items]; [reflexivity|].
    apply ascii_text_app; [reflexivity|]. apply ascii_text_app; [|reflexivity].
    apply ascii_text_join; [reflexivity|]. rewrite Forall_map. exact IH.
  - cbn [dumps]. destruct items as [|x items]; [reflexivity|].
    apply ascii_text_app; [reflexivity|]. apply ascii_text_app; [|reflexivity].
    apply ascii_text_join; [reflexivity|]. rewrite Forall_map.
    eapply Forall_impl; [exact IH|]. intros [k v] Hv. cbn [fst snd] in *.
    apply ascii_text_app; [apply encode_basestring_ascii_ascii|].
    apply ascii_text_app; [reflexivity | exact Hv].
Qed.

(** Whatever the host names, the value written to [TF_CONFIG] is
    printable ASCII: the assignment of line 87 is one [os.environ]
    accepts. *)
Lemma TF_CONFIG_ascii ns hosts : ascii_text (TF_CONFIG ns hosts).
Proof. apply dumps_ascii. Qed.

(** ** C1: the cluster descriptor *)

Lemma keeps_env_blind {A} (m : M A) : env_blind m -> keeps_env m.
Proof. intros H st. now apply env_blind_environ. Qed.

Lemma keeps_env_bind {A B} (m : M A) (f : A -> M B) :
  keeps_env m -> (forall a, keeps_env (f a)) -> keeps_env (bind m f).
Proof.
  intros Hm Hf st. specialize (Hm st). unfold bind.
  destruct (m st) as [[[a|e] st1] t1]; [|exact Hm].
  specialize (Hf a st1). destruct (f a st1) as [[r st2] t2]. cbn in *. congruence.
Qed.

Lemma keeps_env_getenv : keeps_env getenv.
Proof. intros st. reflexivity. Qed.

Lemma env_blind_open_experiment w ns : env_blind (open_experiment w ns).
Proof. unfold open_experiment. repeat env_blind_step. Qed.

(** Lines 93 to 147 leave the environment as it is. *)
Lemma keeps_env_training w ti g ex : keeps_env (training w ti g ex).
Proof.
  unfold training.
  apply keeps_env_bind; [apply keeps_env_getenv|]. intros env.
  apply keeps_env_bind; [apply keeps_env_blind, env_blind_lib|]. intros nr.
  apply keeps_env_bind; [apply keeps_env_blind, env_blind_lib|]. intros u.
  apply keeps_env_bind; [apply keeps_env_blind, env_blind_lib|]. intros ds.
  apply keeps_env_blind, env_blind_epochs.
Qed.

Lemma main_environ w g st ns hosts :
  worker_hosts ns = Some hosts ->
  environ (store_of (main (Ok ns) w g st))
  = <[str "TF_CONFIG" := TF_CONFIG ns hosts]> (environ st).
Proof.
  intros Hwh. unfold main, get_args. cbn [lib]. rewrite bind_ret_l.
  unfold split_hosts. rewrite Hwh, bind_ret_l, bind_setenv.
  apply keeps_env_bind.
  - apply keeps_env_blind, env_blind_open_experiment.
  - intros ex. apply keeps_env_training.
Qed.

(** The text of the descriptor. *)
Lemma dumps_cluster_dict hosts ti :
  hosts <> [] ->
  dumps (cluster_dict hosts (Some ti))
  = str "{" ++ encode_basestring_ascii (str "cluster") ++ str ": {"
    ++ encode_basestring_ascii (str "worker") ++ str ": ["
    ++ join (str ", ") (map encode_basestring_ascii hosts) ++ str "]}, "
    ++ encode_basestring_ascii (str "task") ++ str ": {"
    ++ encode_basestring_ascii (str "type") ++ str ": "
    ++ encode_basestring_ascii (str "worker") ++ str ", "
    ++ encode_basestring_ascii (str "index") ++ str ": " ++ repr_int ti ++ str "}}".
Proof.
  intros Hne. destruct hosts as [|h hs]; [contradiction|].
  unfold cluster_dict. cbn [dumps map fst snd join].
  rewrite map_map. cbn [dumps].
  change (str "{") with [123%N]. change (str "}") with [125%N].
  change (str "[") with [91%N]. change (str "]") with [93%N].
  change (str ": {") with [58%N; 32%N; 123%N]. change (str ": [") with [58%N; 32%N; 91%N].
  change (str ": ") with [58%N; 32%N]. change (str ", ") with [44%N; 32%N].
  change (str "]}, ") with [93%N; 125%N; 44%N; 32%N]. change (str "}}") with [125%N; 125%N].
  repeat (rewrite <- ?app_assoc; cbn [app]). reflexivity.
Qed.

(** C1. For every worker-hosts string and integer task index parsed
    from the command line, [main] leaves in [TF_CONFIG] exactly the JSON
    text of [{"cluster": {"worker": L}, "task": {"type": "worker",
    "index": task_index}}], where [L] is the worker-hosts string split
    on commas; whatever the libraries do afterwards. *)
Theorem main_sets_TF_CONFIG (w : World) (g : globals) (st : store) (ns : Namespace)
    (hosts : pystr) (ti : Z) :
  worker_hosts ns = Some hosts ->
  task_index ns = Some ti ->
  environ (store_of (main (Ok ns) w g st)) !! str "TF_CONFIG"
  = Some (dumps (JDict [ (str "cluster",
                           JDict [ (str "worker", JList (map JStr (split comma hosts))) ]);
                         (str "task",
                           JDict [ (str "type", JStr (str "worker"));
                                   (str "index", JInt ti) ]) ])).
Proof.
  intros Hwh Hti. rewrite (main_environ w g st ns hosts Hwh), lookup_insert_eq.
  unfold TF_CONFIG, cluster_dict. now rewrite Hti.
Qed.

Lemma main_sets_TF_CONFIG_witness :
  worker_hosts (demo_args 0) = Some (str "localhost:2222,localhost:2223") /\
  task_index (demo_args 0) = Some 0 /\
  environ (store_of (main (Ok (demo_args 0)) demo_world demo_globals initial))
    !! str "TF_CONFIG"
  = Some (dumps (JDict [ (str "cluster",
                           JDict [ (str "worker",
                                     JList [ JStr (str "localhost:2222");
                                             JStr (str "localhost:2223") ]) ]);
                         (str "task",
                           JDict [ (str "type", JStr (str "worker"));
                                   (str "index", JInt 0) ]) ])).
Proof.
  split; [reflexivity|]. split; [reflexivity|].
  apply (main_sets_TF_CONFIG demo_world demo_globals initial (demo_args 0)
           (str "localhost:2222,localhost:2223") 0); reflexivity.
Defined.

(** The descriptor of the two-worker example, character by character. *)
Example TF_CONFIG_text :
  TF_CONFIG (demo_args 0) (str "localhost:2222,localhost:2223")
  = str "{" ++ [dquote] ++ str "cluster" ++ [dquote] ++ str ": {"
    ++ [dquote] ++ str "worker" ++ [dquote] ++ str ": ["
    ++ [dquote] ++ str "localhost:2222" ++ [dquote] ++ str ", "
    ++ [dquote] ++ str "localhost:2223" ++ [dquote] ++ str "]}, "
    ++ [dquote] ++ str "task" ++ [dquote] ++ str ": {"
    ++ [dquote] ++ str "type" ++ [dquote] ++ str ": "
    ++ [dquote] ++ str "worker" ++ [dquote] ++ str ", "
    ++ [dquote] ++ str "index" ++ [dquote] ++ str ": 0}}".
Proof. vm_compute. reflexivity. Qed.

(** ** C3: the tracking session *)

Lemma session_nil t : Forall not_session t -> session t = [].
Proof.
  induction 1 as [|ev t Hev _ IH]; [reflexivity|].
  destruct ev; try contradiction; exact IH.
Qed.

Lemma session_app t1 t2 : session (t1 ++ t2) = session t1 ++ session t2.
Proof. apply omap_app. Qed.

Lemma session_opening ns : session (opening ns) = opening ns.
Proof. unfold opening. now destruct (eq0 (task_index ns)). Qed.

Lemma emits_not_session_training w ti g ex : emits not_session (training w ti g ex).
Proof.
  unfold training, epoch, log_train_loss, accumulate, step_fn, strategy_run, train_step.
  repeat emits_step; exact I.
Qed.

Lemma emits_not_session_module_level w : emits not_session (module_level w).
Proof. unfold module_level. repeat emits_step; exact I. Qed.

(** However the calls of lines 89 to 91 end, what the session has
    received is an initial part of [opening ns]. *)
Lemma open_experiment_prefix w ns st r st' t :
  open_experiment w ns st = (r, st', t) -> exists rest, session t ++ rest = opening ns.
Proof.
  unfold open_experiment, opening. destruct (eq0 (task_index ns)).
  - unfold bind, lib, emit, ret, throw.
    destruct (Experiment w PROJECT_NAME) as [[]|e1]; cbn.
    2: { intros [= <- <- <-]. cbn. eauto. }
    destruct (log_other w (str "run_id") (of_opt_int (run_id ns))) as [[]|e2]; cbn.
    2: { intros [= <- <- <-]. cbn. eauto. }
    destruct (log_other w (str "worker_hosts") (of_opt_str (worker_hosts ns))) as [[]|e3]; cbn.
    2: { intros [= <- <- <-]. cbn. eauto. }
    intros [= <- <- <-]. cbn. exists []. reflexivity.
  - intros [= <- <- <-]. exists []. reflexivity.
Qed.

Lemma main_session_prefix w ns g st r st' t :
  main (Ok ns) w g st = (r, st', t) ->
  (exists rest, session t ++ rest = opening ns) /\
  (r = Ok tt -> session t = opening ns).
Proof.
  unfold main, get_args. cbn [lib]. rewrite bind_ret_l.
  unfold split_hosts. destruct (worker_hosts ns) as [hosts|].
  - rewrite bind_ret_l, bind_setenv. intros H.
    apply bind_run in H as [(e & H & ->) | (ex & st1 & t1 & t2 & H1 & H2 & ->)].
    + split; [eapply open_experiment_prefix, H | discriminate].
    + apply open_experiment_ok in H1 as [-> ->].
      apply emits_not_session_training, session_nil in H2.
      rewrite session_app, H2, app_nil_r, session_opening.
      split; [exists []; apply app_nil_r | reflexivity].
  - unfold bind, throw. intros [= <- <- <-]. cbn. split; [eauto | discriminate].
Qed.

Lemma run_session_prefix w ns :
  (exists rest, session (trace_of (run (Ok ns) w)) ++ rest = opening ns) /\
  (outcome_of (run (Ok ns) w) = Ok tt -> session (trace_of (run (Ok ns) w)) = opening ns).
Proof.
  unfold run, script. destruct (bind _ _ initial) as [[r st] t] eqn:H.
  unfold trace_of, outcome_of. cbn [fst snd].
  apply bind_run in H as [(e & H & ->) | (g & st1 & t1 & t2 & H1 & H2 & ->)].
  - apply emits_not_session_module_level, session_nil in H. rewrite H.
    split; [eauto | discriminate].
  - apply emits_not_session_module_level, session_nil in H1.
    rewrite session_app, H1. cbn [app]. eapply main_session_prefix, H2.
Qed.

(** C3. The tracking session is opened only when the parsed task index
    is 0: with any other index (or none) no session event occurs.  With
    index 0 the session receives, in this order, its opening and the two
    metadata fields [run_id] and [worker_hosts] holding the values of the
    flags: all three when the run returns, an initial part of them when
    a call raises. *)
Theorem session_only_on_coordinator (w : World) (ns : Namespace) :
  (task_index ns <> Some 0 -> session (trace_of (run (Ok ns) w)) = []) /\
  (task_index ns = Some 0 ->
     (exists rest,
        session (trace_of (run (Ok ns) w)) ++ rest
        = [ Experiment_opened PROJECT_NAME;
            Log_other (str "run_id") (of_opt_int (run_id ns));
            Log_other (str "worker_hosts") (of_opt_str (worker_hosts ns)) ]) /\
     (outcome_of (run (Ok ns) w) = Ok tt ->
        session (trace_of (run (Ok ns) w))
        = [ Experiment_opened PROJECT_NAME;
            Log_other (str "run_id") (of_opt_int (run_id ns));
            Log_other (str "worker_hosts") (of_opt_str (worker_hosts ns)) ])).
Proof.
  destruct (run_session_prefix w ns) as [[rest Hpre] Hok]. unfold opening in *.
  split.
  - intros Hti. assert (E : eq0 (task_index ns) = false).
    { destruct (task_index ns) as [z|]; [|reflexivity]. cbn.
      apply Z.eqb_neq. congruence. }
    rewrite E in Hpre. now apply app_eq_nil in Hpre.
  - intros Hti. rewrite Hti in *. cbn [eq0 Z.eqb] in *. eauto.
Qed.

Lemma session_only_on_coordinator_witness :
  (task_index (demo_args 1) <> Some 0 ->
   session (trace_of (run (Ok (demo_args 1)) demo_world)) = []) /\
  (task_index (demo_args 0) = Some 0 /\
   outcome_of (run (Ok (demo_args 0)) demo_world) = Ok tt /\
   session (trace_of (run (Ok (demo_args 0)) demo_world))
   = [ Experiment_opened PROJECT_NAME;
       Log_other (str "run_id") (PInt 7);
       Log_other (str "worker_hosts") (PStr (str "localhost:2222,localhost:2223")) ]).
Proof.
  split.
  - apply (session_only_on_coordinator demo_world (demo_args 1)).
  - split; [reflexivity|]. split; [vm_compute; reflexivity|].
    apply (session_only_on_coordinator demo_world (demo_args 0));
      [reflexivity | vm_compute; reflexivity].
Defined.

(** ** C10: what the accuracy metric is fed *)

Lemma actual_pred_shape pred :
  Forall2 (fun row logits =>
             length row = length logits /\ Forall (fun v => v = 0 \/ v = 1) row)
    (actual_pred pred) pred.
Proof.
  unfold actual_pred. induction pred as [|logits pred IH]; cbn; constructor; [|exact IH].
  split; [apply length_map|]. apply Forall_map, Forall_true. intros x.
  unfold cast_int64. destruct (greater _ _); auto.
Qed.

(** C10. In every training step of every run, the prediction given to
    the accuracy metric is the elementwise indicator of the model's
    logits exceeding 0.5, as int64: one 0/1 entry per logit, not the
    index of the largest logit. *)
Theorem accuracy_fed_thresholded_logits (cli : outcome Namespace) (w : World)
    (i j r : nat) (labels : list uint8) (y_pred : list (list Z)) :
  In (Metric_update i j r labels y_pred) (trace_of (run cli w)) ->
  exists images logits,
    model w i j r images = Ok logits /\
    y_pred = map (map (fun x => if f32_ltb f32_half x then 1 else 0)) logits /\
    Forall2 (fun row l => length row = length l /\ Forall (fun v => v = 0 \/ v = 1) row)
      y_pred logits.
Proof.
  intros Hin. pose proof (script_events cli w) as H.
  rewrite List.Forall_forall in H. apply H in Hin.
  destruct Hin as (_ & images & logits & Hm & ->).
  exists images, logits. split; [exact Hm|]. split; [reflexivity|].
  apply actual_pred_shape.
Qed.

Lemma accuracy_fed_thresholded_logits_witness :
  In (Metric_update 0 0 0 [Byte.x01] [[0; 1; 0; 1; 0; 0; 0; 0; 0; 0]])
    (trace_of (run (Ok (demo_args 0)) demo_world)) /\
  exists images logits,
    model demo_world 0 0 0 images = Ok logits /\
    [[0; 1; 0; 1; 0; 0; 0; 0; 0; 0]]
    = map (map (fun x => if f32_ltb f32_half x then 1 else 0)) logits /\
    Forall2 (fun row l => length row = length l /\ Forall (fun v => v = 0 \/ v = 1) row)
      [[0; 1; 0; 1; 0; 0; 0; 0; 0; 0]] logits.
Proof.
  assert (Hin : In (Metric_update 0 0 0 [Byte.x01] [[0; 1; 0; 1; 0; 0; 0; 0; 0; 0]])
                  (trace_of (run (Ok (demo_args 0)) demo_world))).
  { vm_compute. do 3 right. left. reflexivity. }
  split; [exact Hin|].
  exact (accuracy_fed_thresholded_logits _ _ _ _ _ _ _ Hin).
Defined.

(** On the logits of the example the class of largest logit is 1; the
    metric receives a vector with two entries set. *)
Example actual_pred_is_not_argmax :
  map argmax demo_logits = [1%nat] /\
  actual_pred demo_logits = [[0; 1; 0; 1; 0; 0; 0; 0; 0; 0]].
Proof. split; vm_compute; reflexivity. Qed.

(** ** C5: exceptions *)

(** A library call that raises writes the raise and ends there. *)
Lemma lib_raise {A} e st : @lib A (Raise e) st = (Raise e, st, [Raised e]).
Proof. reflexivity. Qed.

Lemma run_regular cli w : regular_run initial (run cli w).
Proof. apply regular_script. Qed.

(** The module body of a run. *)
Lemma module_level_initial w d :
  snd (imports w ∅) = None -> load_data w = Ok d ->
  module_level w initial
  = (Ok (globals_of d),
     {| environ := <[str "GRPC_FAIL_FAST" := str "use_caller"]> (imported w);
        train_accuracy := [] |}, []).
Proof.
  intros Himp Hd. rewrite module_level_run. cbn [environ initial train_accuracy].
  rewrite Himp, Hd. reflexivity.
Qed.

Lemma run_without_hosts w ns d :
  snd (imports w ∅) = None -> load_data w = Ok d -> worker_hosts ns = None ->
  run (Ok ns) w
  = (Raise AttributeError,
     {| environ := <[str "GRPC_FAIL_FAST" := str "use_caller"]> (imported w);
        train_accuracy := [] |},
     [Raised AttributeError]).
Proof.
  intros Himp Hd Hwh. unfold run, script.
  rewrite (bind_quiet _ _ _ _ _ (module_level_initial w d Himp Hd)).
  unfold main, get_args. cbn [lib]. rewrite bind_ret_l.
  unfold split_hosts. rewrite Hwh. reflexivity.
Qed.

(** *** The first call that raises ends the run *)

Lemma for_each_app {A B} (body : nat -> A -> B -> M B) xs ys :
  forall k acc st,
    for_each body k (xs ++ ys) acc st
    = bind (for_each body k xs acc) (fun acc' => for_each body (k + length xs) ys acc') st.
Proof.
  induction xs as [|x xs IH]; intros k acc st; cbn [app for_each length].
  - rewrite bind_ret_l, Nat.add_0_r. reflexivity.
  - unfold bind at 1 2 3. destruct (body k x acc st) as [[[acc1|e] st1] t1]; [|reflexivity].
    rewrite IH. rewrite Nat.add_succ_r. unfold bind.
    destruct (for_each body (S k) xs acc1 st1) as [[[acc2|e] st2] t2]; [|reflexivity].
    cbn [Nat.add]. destruct (for_each body _ ys acc2 st2) as [[r st3] t3].
    now rewrite app_assoc.
Qed.

Lemma replica_raises_run w GBS i j r x e st :
  replica_raises w GBS i j r x e ->
  train_step w GBS i j r x st = (Raise e, st, [Raised e]).
Proof.
  unfold replica_raises, train_step. intros H.
  destruct (model w i j r (b_images x)) as [pred|e1] eqn:H1.
  2: { subst e1. reflexivity. }
  erewrite bind_quiet by reflexivity.
  destruct (compute_loss w (b_labels x) pred GBS) as [l|e2] eqn:H2.
  2: { subst e2. reflexivity. }
  erewrite bind_quiet by reflexivity.
  erewrite bind_raised; [reflexivity|]. rewrite H. reflexivity.
Qed.

Lemma step_raises_run w GBS i j xs e st :
  step_raises w GBS i j xs e ->
  exists st' t,
    step_fn w GBS i j xs st = (Raise e, st', t) /\ environ st' = environ st.
Proof.
  intros [xs1 x xs2 preds losses -> Hreps Hrep | preds losses Hreps Hred];
    unfold step_fn, strategy_run.
  - eexists _, _. split.
    + erewrite bind_raised; [reflexivity|].
      rewrite for_each_app.
      erewrite bind_step by (apply strategy_run_run, Hreps).
      cbn [for_each Nat.add].
      erewrite bind_raised; [reflexivity|].
      erewrite bind_raised; [reflexivity|]. apply replica_raises_run, Hrep.
    + reflexivity.
  - eexists _, _. split.
    + erewrite bind_step by (apply strategy_run_run, Hreps).
      cbn [app]. rewrite Hred. reflexivity.
    + reflexivity.
Qed.

Lemma accumulate_run w GBS i j xs tn st preds losses loss :
  replicas_trained w GBS i j 0 xs preds losses -> reduce_sum w i j losses = Ok loss ->
  accumulate w GBS i j xs tn st
  = (Ok (iadd (fst tn) loss, S (snd tn)),
     {| environ := environ st;
        train_accuracy :=
          train_accuracy st
          ++ map (fun xp => (b_labels (fst xp), actual_pred (snd xp))) (combine xs preds) |},
     replica_updates i j 0 xs preds ++ [Step_returned i j loss]).
Proof.
  intros Hreps Hred. unfold accumulate.
  erewrite bind_step by (eapply step_fn_run; eassumption).
  reflexivity.
Qed.

Lemma steps_return_run w GBS i xss :
  forall j predss losses tn st,
    steps_return w GBS i j xss predss losses ->
    exists t,
      for_each (accumulate w GBS i) j xss tn st
      = (Ok (fold_left iadd losses (fst tn), (snd tn + length losses)%nat),
         {| environ := environ st;
            train_accuracy := train_accuracy st ++ updates_of xss predss |},
         t).
Proof.
  induction xss as [|xs xss IH]; intros j [|preds predss] [|loss losses] tn st H;
    try contradiction.
  - exists []. cbn. rewrite app_nil_r, Nat.add_0_r. destruct st, tn. reflexivity.
  - destruct H as [(ls & Hreps & Hred) H]. cbn [for_each].
    erewrite bind_step by (eapply accumulate_run; eassumption).
    destruct (IH (S j) predss losses (iadd (fst tn) loss, S (snd tn))
                {| environ := environ st;
                   train_accuracy :=
                     train_accuracy st
                     ++ map (fun xp => (b_labels (fst xp), actual_pred (snd xp)))
                          (combine xs preds) |} H) as [t Ht].
    rewrite Ht. cbn [outcome_of store_of trace_of fst snd environ train_accuracy
                     fold_left updates_of length Nat.add].
    rewrite <- app_assoc, Nat.add_succ_r. eexists. reflexivity.
Qed.

Lemma steps_return_length w GBS i xss :
  forall j predss losses,
    steps_return w GBS i j xss predss losses -> length losses = length xss.
Proof.
  induction xss as [|xs xss IH]; intros j [|preds predss] [|loss losses] H;
    try contradiction; [reflexivity|].
  destruct H as [_ H]. cbn. f_equal. eapply IH, H.
Qed.

Lemma truediv_mean losses :
  losses <> [] ->
  truediv (fold_left iadd losses Int0) (length losses) = Ok (Tensor (mean_loss losses)).
Proof.
  destruct losses as [|l ls]; [contradiction|]. intros _. cbn.
  rewrite fold_left_iadd_Sum. reflexivity.
Qed.

Lemma log_train_loss_run w ti i losses st :
  (eq0 ti = true ->
   losses <> [] /\ log_metric w (str "train_loss") (Tensor (mean_loss losses)) i = Ok tt) ->
  exists t,
    log_train_loss w ti (if eq0 ti then Some tt else None)
      (fold_left iadd losses Int0, length losses) i st
    = (Ok tt, st, t).
Proof.
  intros H. unfold log_train_loss. destruct (eq0 ti); [|exists []; reflexivity].
  destruct (H eq_refl) as [Hne Hlog]. cbn [fst snd].
  rewrite (truediv_mean _ Hne). eexists.
  erewrite bind_quiet by reflexivity.
  erewrite bind_quiet by (rewrite Hlog; reflexivity). reflexivity.
Qed.

(** An epoch whose calls return runs to its end, from an empty metric. *)
Lemma epoch_returns_run w ti GBS ds i st :
  epoch_returns w ti GBS ds i -> train_accuracy st = [] ->
  exists t, epoch w ti (if eq0 ti then Some tt else None) GBS ds i st = (Ok tt, st, t).
Proof.
  intros (predss & losses & Hsteps & Hend & Hlog & acc & Hres) Hacc. unfold epoch.
  destruct (steps_return_run w GBS i _ 0%nat predss losses (Int0, O) st Hsteps) as [t1 H1].
  cbn [fst snd Nat.add] in H1. rewrite Hacc in H1. cbn [app] in H1.
  assert (Hit : iterate (ds i) (accumulate w GBS i) (Int0, O) st
                = (Ok (fold_left iadd losses Int0, length losses),
                   {| environ := environ st;
                      train_accuracy := updates_of (fst (ds i)) predss |}, t1 ++ [])).
  { unfold iterate. erewrite bind_step by exact H1. rewrite Hend. reflexivity. }
  erewrite bind_step by exact Hit.
  destruct (log_train_loss_run w ti i losses
              {| environ := environ st;
                 train_accuracy := updates_of (fst (ds i)) predss |} Hlog) as [t2 H2].
  erewrite bind_step by exact H2.
  erewrite bind_step
    by (unfold accuracy_result; cbn [train_accuracy]; rewrite Hres; reflexivity).
  eexists. cbn. destruct st as [env a]. cbn in Hacc. subst a. reflexivity.
Qed.

Lemma epoch_raises_run w ti GBS ds i e st :
  epoch_raises w ti GBS ds i e -> train_accuracy st = [] ->
  exists st' t,
    epoch w ti (if eq0 ti then Some tt else None) GBS ds i st = (Raise e, st', t).
Proof.
  intros H Hacc. unfold epoch.
  destruct H as [xss1 xs xss2 predss losses Hds Hsteps Hstep
                | predss losses Hsteps Hend
                | Hds Hti ->
                | predss losses Hsteps Hend Hti Hne Hlog
                | predss losses Hsteps Hend Hlog Hres].
  - destruct (steps_return_run w GBS i _ 0%nat predss losses (Int0, O) st Hsteps) as [t1 H1].
    destruct (step_raises_run w GBS i (length xss1) xs e
                {| environ := environ st;
                   train_accuracy := train_accuracy st ++ updates_of xss1 predss |} Hstep)
      as (st2 & t2 & H2 & _).
    eexists _, _. erewrite bind_raised; [reflexivity|].
    unfold iterate. erewrite bind_raised; [reflexivity|].
    rewrite Hds, for_each_app. erewrite bind_step by exact H1.
    cbn [for_each Nat.add]. erewrite bind_raised; [reflexivity|].
    unfold accumulate. erewrite bind_raised; [reflexivity | exact H2].
  - destruct (steps_return_run w GBS i _ 0%nat predss losses (Int0, O) st Hsteps) as [t1 H1].
    eexists _, _. erewrite bind_raised; [reflexivity|].
    unfold iterate. erewrite bind_step by exact H1. rewrite Hend. reflexivity.
  - eexists _, _. rewrite Hds. erewrite bind_quiet by reflexivity.
    erewrite bind_raised; [reflexivity|].
    unfold log_train_loss. rewrite Hti. reflexivity.
  - destruct (steps_return_run w GBS i _ 0%nat predss losses (Int0, O) st Hsteps) as [t1 H1].
    cbn [fst snd Nat.add] in H1.
    eexists _, _.
    erewrite bind_step
      by (unfold iterate; erewrite bind_step by exact H1; rewrite Hend; reflexivity).
    erewrite bind_raised; [reflexivity|].
    unfold log_train_loss. rewrite Hti. cbn [fst snd].
    rewrite (truediv_mean _ Hne). erewrite bind_quiet by reflexivity.
    erewrite bind_raised; [reflexivity|]. rewrite Hlog. reflexivity.
  - destruct (steps_return_run w GBS i _ 0%nat predss losses (Int0, O) st Hsteps) as [t1 H1].
    cbn [fst snd Nat.add] in H1. rewrite Hacc in H1. cbn [app] in H1.
    destruct (log_train_loss_run w ti i losses
                {| environ := environ st;
                   train_accuracy := updates_of (fst (ds i)) predss |} Hlog) as [t2 H2].
    eexists _, _.
    erewrite bind_step
      by (unfold iterate; erewrite bind_step by exact H1; rewrite Hend; reflexivity).
    cbn [outcome_of store_of trace_of fst snd].
    erewrite bind_step by exact H2.
    erewrite bind_raised; [reflexivity|].
    unfold accuracy_result. cbn [train_accuracy]. rewrite Hres. reflexivity.
Qed.

Lemma epochs_return_run w ti GBS ds n :
  forall a k st,
    (forall i, (a <= i < a + n)%nat -> epoch_returns w ti GBS ds i) ->
    train_accuracy st = [] ->
    exists t,
      for_each (fun _ i _ => epoch w ti (if eq0 ti then Some tt else None) GBS ds i)
        k (seq a n) tt st
      = (Ok tt, st, t).
Proof.
  induction n as [|n IH]; intros a k st H Hacc; [exists []; reflexivity|].
  cbn [seq for_each].
  destruct (epoch_returns_run w ti GBS ds a st (H a ltac:(lia)) Hacc) as [t1 H1].
  destruct (IH (S a) (S k) st) as [t2 H2]; [intros i Hi; apply H; lia | exact Hacc|].
  exists (t1 ++ t2). erewrite bind_step by exact H1. rewrite H2. reflexivity.
Qed.

(** The loop ends with the exception of the first epoch that raises. *)
Lemma epochs_raise_run w ns nr ds i e st :
  (i < EPOCHS)%nat ->
  (forall k, (k < i)%nat ->
     epoch_returns w (task_index ns) (BATCH_SIZE_PER_REPLICA * Z.of_nat nr) ds k) ->
  epoch_raises w (task_index ns) (BATCH_SIZE_PER_REPLICA * Z.of_nat nr) ds i e ->
  train_accuracy st = [] ->
  outcome_of (epochs w ns nr ds st) = Raise e.
Proof.
  intros Hi Hbefore Hraise Hacc. unfold epochs, experiment_of.
  replace EPOCHS with (i + S (EPOCHS - S i))%nat by lia.
  rewrite seq_app, for_each_app. cbn [seq Nat.add].
  destruct (epochs_return_run w (task_index ns) (BATCH_SIZE_PER_REPLICA * Z.of_nat nr) ds
              i 0%nat 0%nat st) as [t1 H1]; [intros k Hk; apply Hbefore; lia | exact Hacc|].
  erewrite bind_step by exact H1. cbn [for_each].
  destruct (epoch_raises_run w (task_index ns) (BATCH_SIZE_PER_REPLICA * Z.of_nat nr) ds
              i e st Hraise Hacc) as (st2 & t2 & H2).
  erewrite bind_raised by exact H2. reflexivity.
Qed.

(** [main] up to the session, and the calls that make the strategy, the
    objects of its scope and the dataset. *)
Lemma main_before_session w g ns hosts st :
  worker_hosts ns = Some hosts ->
  main (Ok ns) w g st
  = bind (open_experiment w ns) (fun experiment => training w (task_index ns) g experiment)
      {| environ := <[str "TF_CONFIG" := TF_CONFIG ns hosts]> (environ st);
         train_accuracy := train_accuracy st |}.
Proof.
  intros Hwh. unfold main, get_args. cbn [lib]. rewrite bind_ret_l.
  unfold split_hosts. rewrite Hwh, bind_ret_l, bind_setenv. reflexivity.
Qed.

Lemma training_strategy_fails w ti g ex st e :
  MultiWorkerMirroredStrategy w (environ st) = Raise e ->
  training w ti g ex st = (Raise e, st, [Raised e]).
Proof.
  intros H. unfold training. erewrite bind_quiet by reflexivity.
  erewrite bind_raised; [reflexivity|]. rewrite H. reflexivity.
Qed.

Lemma training_scope_fails w ti g ex st nr e :
  MultiWorkerMirroredStrategy w (environ st) = Ok nr -> scope_objects w = Raise e ->
  training w ti g ex st = (Raise e, st, [Raised e]).
Proof.
  intros H1 H2. unfold training. erewrite bind_quiet by reflexivity.
  erewrite bind_quiet by (rewrite H1; reflexivity).
  erewrite bind_raised; [reflexivity|]. rewrite H2. reflexivity.
Qed.

Lemma training_dataset_fails w ti g ex st nr e :
  MultiWorkerMirroredStrategy w (environ st) = Ok nr -> scope_objects w = Ok tt ->
  distribute_datasets_from_function w (train_images g) (train_labels g) (BUFFER_SIZE g)
    (BATCH_SIZE_PER_REPLICA * Z.of_nat nr) = Raise e ->
  training w ti g ex st = (Raise e, st, [Raised e]).
Proof.
  intros H1 H2 H3. unfold training. erewrite bind_quiet by reflexivity.
  erewrite bind_quiet by (rewrite H1; reflexivity).
  erewrite bind_quiet by (rewrite H2; reflexivity).
  erewrite bind_raised; [reflexivity|]. rewrite H3. reflexivity.
Qed.

Lemma raises_first_run cli w e : raises_first cli w e -> outcome_of (run cli w) = Raise e.
Proof.
  intros [Himp
         | Himp Hd
         | d Himp Hd ->
         | d ns Himp Hd -> Hwh ->
         | d ns hosts Himp Hd -> Hwh Hti He
         | d ns hosts Himp Hd -> Hwh Hti H1 He
         | d ns hosts Himp Hd -> Hwh Hti H1 H2 He
         | d ns hosts Himp Hd -> Hwh Hopen He
         | d ns hosts nr Himp Hd -> Hwh Hopen Hnr He
         | d ns hosts nr Himp Hd -> Hwh Hopen Hnr Hscope He
         | d ns hosts nr ds i -> Hs Hi Hbefore Hraise].
  - unfold run, script. erewrite bind_raised; [reflexivity|].
    rewrite module_level_run. cbn [environ initial]. rewrite Himp. reflexivity.
  - unfold run, script. erewrite bind_raised; [reflexivity|].
    rewrite module_level_run. cbn [environ initial]. rewrite Himp, Hd. reflexivity.
  - unfold run, script. rewrite (bind_quiet _ _ _ _ _ (module_level_initial w d Himp Hd)).
    reflexivity.
  - now rewrite (run_without_hosts w ns d Himp Hd Hwh).
  - unfold run, script. rewrite (bind_quiet _ _ _ _ _ (module_level_initial w d Himp Hd)).
    rewrite (main_before_session _ _ _ hosts _ Hwh).
    erewrite bind_raised; [reflexivity|].
    unfold open_experiment. rewrite Hti.
    erewrite bind_raised; [reflexivity|]. rewrite He. reflexivity.
  - unfold run, script. rewrite (bind_quiet _ _ _ _ _ (module_level_initial w d Himp Hd)).
    rewrite (main_before_session _ _ _ hosts _ Hwh).
    erewrite bind_raised; [reflexivity|].
    unfold open_experiment. rewrite Hti.
    erewrite bind_quiet by (rewrite H1; reflexivity).
    erewrite bind_step by reflexivity.
    erewrite bind_raised; [reflexivity|]. rewrite He. reflexivity.
  - unfold run, script. rewrite (bind_quiet _ _ _ _ _ (module_level_initial w d Himp Hd)).
    rewrite (main_before_session _ _ _ hosts _ Hwh).
    erewrite bind_raised; [reflexivity|].
    unfold open_experiment. rewrite Hti.
    erewrite bind_quiet by (rewrite H1; reflexivity).
    erewrite bind_step by reflexivity.
    erewrite bind_quiet by (rewrite H2; reflexivity).
    erewrite bind_step by reflexivity.
    erewrite bind_raised; [reflexivity|]. rewrite He. reflexivity.
  - unfold run, script. rewrite (bind_quiet _ _ _ _ _ (module_level_initial w d Himp Hd)).
    rewrite (main_before_session _ _ _ hosts _ Hwh).
    erewrite bind_step by (apply open_experiment_run, Hopen).
    erewrite training_strategy_fails by exact He. reflexivity.
  - unfold run, script. rewrite (bind_quiet _ _ _ _ _ (module_level_initial w d Himp Hd)).
    rewrite (main_before_session _ _ _ hosts _ Hwh).
    erewrite bind_step by (apply open_experiment_run, Hopen).
    erewrite training_scope_fails by (exact Hnr || exact He). reflexivity.
  - unfold run, script. rewrite (bind_quiet _ _ _ _ _ (module_level_initial w d Himp Hd)).
    rewrite (main_before_session _ _ _ hosts _ Hwh).
    erewrite bind_step by (apply open_experiment_run, Hopen).
    erewrite training_dataset_fails by (exact Hnr || exact Hscope || exact He). reflexivity.
  - rewrite (run_after_setup _ _ _ _ _ _ Hs). unfold outcome_of at 1. cbn [fst].
    now apply epochs_raise_run with i.
Qed.

(** C5. The program has no exception handler.  The first call of a run
    that raises, whichever it is (an import, the loader, the argument
    parser, the tracking session, the strategy, the objects of its
    scope, the dataset or its iteration, the model, the loss, the
    optimizer, the reduction, [log_metric], the result of the metric, or
    the script's own split of [None] and division by zero batches),
    ends the run: its exception is the outcome of the program, and the
    raise is the last event.  In every run an operation that raises
    ends the run there.  In particular, without [--worker_hosts] the
    split of [None] raises [AttributeError] before [TF_CONFIG] is set. *)
Theorem exceptions_propagate (cli : outcome Namespace) (w : World) :
  (forall e, raises_first cli w e ->
     outcome_of (run cli w) = Raise e /\
     exists before,
       trace_of (run cli w) = before ++ [Raised e] /\
       Forall (fun ev => ~ is_raised ev) before) /\
  (forall e, In (Raised e) (trace_of (run cli w)) ->
     outcome_of (run cli w) = Raise e /\
     exists before,
       trace_of (run cli w) = before ++ [Raised e] /\
       Forall (fun ev => ~ is_raised ev) before) /\
  (forall e, outcome_of (run cli w) = Raise e -> In (Raised e) (trace_of (run cli w))) /\
  (forall ns d,
     cli = Ok ns -> snd (imports w ∅) = None -> load_data w = Ok d ->
     worker_hosts ns = None ->
     outcome_of (run cli w) = Raise AttributeError /\
     trace_of (run cli w) = [Raised AttributeError] /\
     environ (store_of (run cli w)) !! str "TF_CONFIG" = imported w !! str "TF_CONFIG") /\
  (forall e, snd (imports w ∅) = None -> load_data w = Raise e ->
     outcome_of (run cli w) = Raise e) /\
  (forall e d, snd (imports w ∅) = None -> load_data w = Ok d -> cli = Raise e ->
     outcome_of (run cli w) = Raise e).
Proof.
  pose proof (run_regular cli w) as [_ Hreg].
  split; [|split; [|split; [|split; [|split]]]].
  - intros e He. apply raises_first_run in He. split; [exact He|].
    rewrite He in Hreg. exact Hreg.
  - intros e Hin. destruct (outcome_of (run cli w)) as [u|e'].
    + rewrite List.Forall_forall in Hreg. apply Hreg in Hin. cbn in Hin. tauto.
    + destruct Hreg as (before & Ht & Hb). rewrite Ht in Hin.
      apply in_app_or in Hin as [Hin|[Hin|[]]].
      * rewrite List.Forall_forall in Hb. apply Hb in Hin. cbn in Hin. tauto.
      * injection Hin as ->. split; [reflexivity|]. eauto.
  - intros e He. rewrite He in Hreg. destruct Hreg as (before & -> & _).
    apply in_or_app. right. now left.
  - intros ns d -> Himp Hd Hwh. rewrite (run_without_hosts w ns d Himp Hd Hwh).
    repeat split. unfold store_of. cbn [fst snd environ].
    now rewrite lookup_insert_ne by discriminate.
  - intros e Himp He. apply raises_first_run. now apply load_data_fails.
  - intros e d Himp Hd He. apply raises_first_run. now apply parse_args_fails with d.
Qed.

Lemma exceptions_propagate_witness :
  raises_first (Ok (demo_args 0)) demo_world_optimizer_fails (LibraryError 3) /\
  outcome_of (run (Ok (demo_args 0)) demo_world_optimizer_fails) = Raise (LibraryError 3) /\
  In (Raised AttributeError) (trace_of (run (Ok no_hosts) demo_world)) /\
  outcome_of (run (Ok no_hosts) demo_world) = Raise AttributeError.
Proof.
  assert (H : raises_first (Ok (demo_args 0)) demo_world_optimizer_fails (LibraryError 3)).
  { apply (epoch_fails _ _ _
             (([ [ [Byte.xff; Byte.x00] ] ], [Byte.x01]),
              ([ [ [Byte.x80; Byte.x01] ] ], [Byte.x03]))
             (demo_args 0) (str "localhost:2222,localhost:2223") 2
             (fun _ => ([ [demo_batch]; [demo_batch] ], None)) 1).
    - reflexivity.
    - repeat split.
    - unfold EPOCHS. lia.
    - intros k Hk. assert (k = 0)%nat as -> by lia.
      exists [ [demo_logits]; [demo_logits] ], [sum_f32 [f32_one]; sum_f32 [f32_one]].
      split; [|split; [reflexivity|split]].
      + split; [exists [f32_one]; repeat split|].
        split; [exists [f32_one]; repeat split | exact I].
      + intros _. split; [discriminate | reflexivity].
      + eexists. reflexivity.
    - apply (step_fails _ _ _ _ _ _ [ [demo_batch] ] [demo_batch] []
               [ [demo_logits] ] [sum_f32 [f32_one]]).
      + reflexivity.
      + split; [exists [f32_one]; repeat split | exact I].
      + apply (replica_fails _ _ _ _ _ _ [] demo_batch [] [] []);
          [reflexivity | exact I | reflexivity]. }
  split; [exact H|].
  split; [apply (proj1 (exceptions_propagate _ _) _ H)|].
  assert (Hin : In (Raised AttributeError) (trace_of (run (Ok no_hosts) demo_world))).
  { vm_compute. left. reflexivity. }
  split; [exact Hin|].
  apply (proj1 (proj2 (exceptions_propagate (Ok no_hosts) demo_world)) _ Hin).
Defined.

(** ** C7: the number of epochs *)

Lemma printed_nil t : Forall not_printed t -> printed t = [].
Proof.
  induction 1 as [|ev t Hev _ IH]; [reflexivity|].
  destruct ev; try contradiction; exact IH.
Qed.

Lemma printed_app t1 t2 : printed (t1 ++ t2) = printed t1 ++ printed t2.
Proof. apply omap_app. Qed.

(** After a part that prints nothing, what is printed is what the rest
    prints; if that part raises, nothing is printed. *)
Lemma bind_not_printed {A B} (m : M A) (f : A -> M B) st r st' t :
  emits not_printed m ->
  bind m f st = (r, st', t) ->
  (exists e, r = Raise e /\ printed t = []) \/
  (exists a st1 t2, f a st1 = (r, st', t2) /\ printed t = printed t2).
Proof.
  intros Hm H.
  apply bind_run in H as [(e & H & ->) | (a & st1 & t1 & t2 & H1 & H2 & ->)].
  - left. exists e. split; [reflexivity|]. eapply printed_nil, Hm, H.
  - right. exists a, st1, t2. split; [exact H2|].
    rewrite printed_app, (printed_nil t1); [reflexivity | eapply Hm, H1].
Qed.

Lemma emits_not_printed_steps w GBS ds i :
  emits not_printed (iterate (ds i) (accumulate w GBS i) (Int0, O)).
Proof.
  unfold accumulate, step_fn, strategy_run, train_step. repeat emits_step; exact I.
Qed.

Lemma epoch_prints w ti ex GBS ds i st r st' t :
  epoch w ti ex GBS ds i st = (r, st', t) ->
  printed_epochs t = match r with Ok _ => [i] | Raise _ => [] end.
Proof.
  unfold epoch, log_train_loss, printed_epochs. intros H.
  apply bind_not_printed in H as [(e & -> & ->) | (tn & st1 & t1 & H & ->)];
    [reflexivity | | apply emits_not_printed_steps].
  apply bind_not_printed in H as [(e & -> & ->) | (u & st2 & t2 & H & ->)];
    [reflexivity | | repeat emits_step; exact I].
  apply bind_not_printed in H as [(e & -> & ->) | (acc & st3 & t3 & H & ->)];
    [reflexivity | | repeat emits_step; exact I].
  unfold bind, emit, reset_states in H. injection H as <- <- <-. reflexivity.
Qed.

Lemma epochs_print w ti ex GBS ds n :
  forall a k st r st' t,
    for_each (fun _ i _ => epoch w ti ex GBS ds i) k (seq a n) tt st = (r, st', t) ->
    exists m, (m <= n)%nat /\ printed_epochs t = seq a m /\ (m = n <-> r = Ok tt).
Proof.
  induction n as [|n IH]; intros a k st r st' t H; cbn in H.
  - injection H as <- <- <-. exists O. repeat split; auto.
  - apply bind_run in H as [(e & H & ->) | ([] & st1 & t1 & t2 & H1 & H2 & ->)].
    + apply epoch_prints in H. exists O. repeat split; [lia | exact H | lia | discriminate].
    + apply epoch_prints in H1. apply IH in H2 as (m & Hm & Hp & Hiff).
      exists (S m). unfold printed_epochs in *. rewrite printed_app, map_app, H1, Hp.
      destruct Hiff as [Hi1 Hi2].
      repeat split; [lia | intros E; apply Hi1; lia | intros E; f_equal; auto].
Qed.

Lemma prints_none {A} e st t : printed t = [] -> @prints_epochs A (Raise e, st, t).
Proof.
  intros H. exists O. unfold printed_epochs, trace_of, outcome_of. cbn [fst snd].
  rewrite H.
  repeat split; [unfold EPOCHS; lia | discriminate | intros [a Ha]; discriminate].
Qed.

Lemma prints_bind {A B} (m : M A) (f : A -> M B) st :
  emits not_printed m ->
  (forall a st1, prints_epochs (f a st1)) ->
  prints_epochs (bind m f st).
Proof.
  intros Hm Hf. destruct (bind m f st) as [[r st'] t] eqn:H.
  apply bind_not_printed in H as [(e & -> & Hp) | (a & st1 & t2 & H & Hp)]; [| |exact Hm].
  - now apply prints_none.
  - specialize (Hf a st1). rewrite H in Hf. destruct Hf as (k & Hk & Hs & Hiff).
    exists k. unfold printed_epochs, trace_of, outcome_of in *. cbn [fst snd] in *.
    rewrite Hp. auto.
Qed.

Lemma prints_training w ti g ex st : prints_epochs (training w ti g ex st).
Proof.
  unfold training.
  apply prints_bind; [repeat emits_step; exact I|]. intros env st1.
  apply prints_bind; [repeat emits_step; exact I|]. intros nr st2.
  apply prints_bind; [repeat emits_step; exact I|]. intros u st3.
  apply prints_bind; [repeat emits_step; exact I|]. intros ds st4.
  destruct (for_each _ _ _ _ st4) as [[r st'] t] eqn:H.
  apply epochs_print in H as (m & Hm & Hp & Hiff).
  exists m. unfold trace_of, outcome_of. cbn [fst snd]. repeat split; auto.
  - intros E. exists tt. now apply Hiff.
  - intros [[] Ha]. now apply Hiff.
Qed.

Lemma prints_main cli w g st : prints_epochs (main cli w g st).
Proof.
  unfold main, get_args, split_hosts, open_experiment.
  apply prints_bind; [repeat emits_step; exact I|]. intros args st1.
  apply prints_bind; [repeat emits_step; exact I|]. intros hosts st2.
  apply prints_bind; [repeat emits_step; exact I|]. intros u st3.
  apply prints_bind; [repeat emits_step; exact I|]. intros ex st4.
  apply prints_training.
Qed.

Lemma prints_run cli w : prints_epochs (run cli w).
Proof.
  unfold run, script, module_level.
  apply prints_bind; [repeat emits_step; exact I|]. intros g st1.
  apply prints_main.
Qed.

(** C7. The loop runs a fixed number of epochs, 10, whatever the
    command line and the dataset: a run that returns has finished
    exactly the epochs 0 to 9, in order; a run ended by an exception has
    finished an initial part of them; no event of any run belongs to an
    epoch beyond the ninth. *)
Theorem ten_epochs (cli : outcome Namespace) (w : World) :
  EPOCHS = 10%nat /\
  (exists m,
     (m <= 10)%nat /\
     printed_epochs (trace_of (run cli w)) = seq 0 m /\
     (m = 10%nat <-> outcome_of (run cli w) = Ok tt)) /\
  Forall (fun ev => forall i, epoch_of ev = Some i -> (i < 10)%nat) (trace_of (run cli w)).
Proof.
  split; [reflexivity|]. split.
  - destruct (prints_run cli w) as (m & Hm & Hp & Hiff). exists m.
    repeat split; auto.
    + intros E. apply Hiff in E as [[] E]. exact E.
    + intros E. apply Hiff. eauto.
  - eapply Forall_impl; [apply script_events|].
    intros ev Hev i Hi. destruct ev; cbn in *; try discriminate;
      injection Hi as <-; unfold EPOCHS in *; tauto.
Qed.

Lemma ten_epochs_witness :
  outcome_of (run (Ok (demo_args 1)) demo_world) = Ok tt /\
  printed_epochs (trace_of (run (Ok (demo_args 1)) demo_world)) = seq 0 10.
Proof.
  assert (Hok : outcome_of (run (Ok (demo_args 1)) demo_world) = Ok tt)
    by (vm_compute; reflexivity).
  split; [exact Hok|].
  destruct (ten_epochs (Ok (demo_args 1)) demo_world) as (_ & (m & _ & Hp & Hiff) & _).
  apply Hiff in Hok. subst m. exact Hp.
Defined.

(** ** The events of each epoch in a run that returns *)

Lemma at_epoch_app i t1 t2 : at_epoch i (t1 ++ t2) = at_epoch i t1 ++ at_epoch i t2.
Proof. apply omap_app. Qed.

Lemma at_epoch_opening i ns : at_epoch i (opening ns) = [].
Proof. unfold opening. now destruct (eq0 (task_index ns)). Qed.

Lemma epoch_trace_at w ti j seg :
  epoch_trace w ti j seg ->
  at_epoch j seg = seg /\ forall i, i <> j -> at_epoch i seg = [].
Proof.
  intros (steps & acc & -> & Hsteps & _ & _).
  destruct (step_events_projections _ _ Hsteps) as (_ & _ & _ & Hat & _ & Hother).
  split.
  - rewrite !at_epoch_app, Hat. f_equal. unfold at_epoch.
    destruct (eq0 ti); cbn; rewrite ?decide_True by reflexivity; reflexivity.
  - intros i Hi. rewrite !at_epoch_app, (Hother i Hi). unfold at_epoch.
    destruct (eq0 ti); cbn; rewrite ?decide_False by congruence; reflexivity.
Qed.

Lemma at_epoch_earlier w ti n :
  forall a segs i,
    Forall2 (epoch_trace w ti) (seq a n) segs -> (i < a)%nat ->
    at_epoch i (concat segs) = [].
Proof.
  induction n as [|n IH]; intros a segs i H Hi; cbn in H.
  - apply Forall2_nil_inv_l in H as ->. reflexivity.
  - apply Forall2_cons_inv_l in H as (seg & segs' & Hseg & H & ->). cbn [concat].
    rewrite at_epoch_app, (IH (S a) segs' i H) by lia.
    apply epoch_trace_at in Hseg as [_ Hseg]. rewrite Hseg by lia. reflexivity.
Qed.

Lemma segments_at w ti n :
  forall a segs pre post,
    Forall2 (epoch_trace w ti) (seq a n) segs ->
    (forall i, (a <= i)%nat -> at_epoch i pre = []) ->
    (forall i, (i < a + n)%nat -> at_epoch i post = []) ->
    Forall2 (fun i seg => at_epoch i (pre ++ concat segs ++ post) = seg /\
                          epoch_trace w ti i seg)
      (seq a n) segs.
Proof.
  induction n as [|n IH]; intros a segs pre post H Hpre Hpost; cbn in H.
  - apply Forall2_nil_inv_l in H as ->. constructor.
  - apply Forall2_cons_inv_l in H as (seg & segs' & Hseg & H & ->). cbn [concat].
    constructor.
    + split; [|exact Hseg].
      rewrite !at_epoch_app, Hpre, Hpost, (at_epoch_earlier w ti n (S a) segs' a H) by lia.
      apply epoch_trace_at in Hseg as [-> _]. now rewrite !app_nil_r.
    + rewrite <- (app_assoc seg), (app_assoc pre). apply IH; [exact H| |].
      * intros i Hi. rewrite at_epoch_app, Hpre by lia.
        apply epoch_trace_at in Hseg as [_ Hseg]. rewrite Hseg by lia. reflexivity.
      * intros i Hi. apply Hpost. lia.
Qed.

(** A run that returns: the session's opening, then one segment per
    epoch; the events of epoch [i] are the [i]-th segment. *)
Lemma run_segments cli w st t :
  run cli w = (Ok tt, st, t) ->
  exists ns segs,
    cli = Ok ns /\ t = opening ns ++ concat segs /\
    Forall2 (fun i seg => at_epoch i t = seg /\ epoch_trace w (task_index ns) i seg)
      (seq 0 EPOCHS) segs /\
    train_accuracy st = [].
Proof.
  intros H. apply script_ok in H as (ns & hosts & segs & -> & _ & -> & Hsegs & Hfin & _).
  exists ns, segs. repeat split; [|exact Hfin].
  rewrite <- (app_nil_r (concat segs)).
  apply segments_at; [exact Hsegs | | reflexivity]. intros i _. apply at_epoch_opening.
Qed.

(** A projection of the trace that takes one value from each segment. *)
Lemma omap_segments {B} (f : event -> option B) (R : nat -> list event -> Prop)
    (g : nat -> B) l segs :
  Forall2 R l segs -> (forall i seg, R i seg -> omap f seg = [g i]) ->
  omap f (concat segs) = map g l.
Proof.
  intros H Hf. induction H as [|i seg l segs Hi _ IH]; [reflexivity|].
  cbn [concat map]. rewrite omap_app, (Hf i seg Hi), IH. reflexivity.
Qed.

Lemma segment_lookup (R : nat -> list event -> Prop) n segs i :
  Forall2 R (seq 0 n) segs -> (i < n)%nat -> exists seg, R i seg.
Proof.
  intros H Hi.
  destruct (Forall2_lookup_l _ _ _ i i H) as (seg & _ & Hseg).
  - apply lookup_seq. split; [reflexivity | exact Hi].
  - eauto.
Qed.

Lemma epoch_trace_projections w ti i seg :
  epoch_trace w ti i seg ->
  (eq0 ti = true ->
     step_losses seg <> [] /\
     logged_metrics seg = [(str "train_loss", Tensor (mean_loss (step_losses seg)), i)]) /\
  (eq0 ti = false -> logged_metrics seg = []) /\
  exists before acc,
    seg = before ++ [Printed i acc; Metric_reset i] /\
    printed before = [] /\
    printed seg = [(i, acc)] /\
    metric_updates seg = metric_updates before /\
    replay before [] = metric_updates seg /\
    result w i (metric_updates seg) = Ok acc /\
    (forall acc0, replay seg acc0 = []).
Proof.
  intros (steps & acc & -> & Hsteps & Hne & Hres).
  destruct (step_events_projections _ _ Hsteps) as (Hlog & Hpr & _ & _ & Hreplay & _).
  assert (Hl : forall tl, (forall ev, In ev tl -> match ev with Step_returned _ _ _ => False
                                                  | _ => True end) ->
                          step_losses (steps ++ tl) = step_losses steps).
  { intros tl Htl. unfold step_losses. rewrite omap_app.
    replace (omap _ tl) with (@nil f32); [apply app_nil_r|].
    induction tl as [|ev tl IH]; [reflexivity|].
    pose proof (Htl ev (or_introl eq_refl)) as Hev.
    destruct ev; try contradiction; cbn; apply IH; intros; apply Htl; now right. }
  assert (Hlosses : step_losses
                      (steps ++ (if eq0 ti
                                 then [Log_metric (str "train_loss")
                                         (Tensor (mean_loss (step_losses steps))) i]
                                 else []) ++ [Printed i acc; Metric_reset i])
                    = step_losses steps).
  { apply Hl. intros ev Hin. destruct (eq0 ti); cbn in Hin;
      intuition (subst; exact I). }
  split; [|split].
  - intros E. rewrite Hlosses. split; [now apply Hne|].
    unfold logged_metrics in *. rewrite omap_app, Hlog, E. reflexivity.
  - intros E. unfold logged_metrics in *. rewrite omap_app, Hlog, E. reflexivity.
  - exists (steps ++ (if eq0 ti
                      then [Log_metric (str "train_loss")
                              (Tensor (mean_loss (step_losses steps))) i]
                      else [])), acc.
    assert (Hmu : forall tl,
               metric_updates
                 (steps ++ (if eq0 ti
                            then [Log_metric (str "train_loss")
                                    (Tensor (mean_loss (step_losses steps))) i]
                            else []) ++ tl)
               = metric_updates steps ++ metric_updates tl).
    { intros tl. unfold metric_updates. rewrite !omap_app.
      destruct (eq0 ti); reflexivity. }
    rewrite <- app_assoc.
    repeat split.
    + unfold printed in *. rewrite omap_app, Hpr. now destruct (eq0 ti).
    + unfold printed in *. rewrite !omap_app, Hpr. now destruct (eq0 ti).
    + rewrite (Hmu [Printed i acc; Metric_reset i]).
      rewrite <- (app_nil_r (steps ++ _)), <- app_assoc, (Hmu []). reflexivity.
    + rewrite (Hmu [Printed i acc; Metric_reset i]). cbn. rewrite app_nil_r.
      rewrite replay_app, Hreplay. now destruct (eq0 ti).
    + rewrite (Hmu [Printed i acc; Metric_reset i]). cbn. rewrite app_nil_r. exact Hres.
    + intros acc0. rewrite !replay_app. reflexivity.
Qed.

(** ** The events of each epoch in any run *)

Lemma emits_in_epoch w ti ex GBS ds i :
  emits (in_epoch_or_raised i) (epoch w ti ex GBS ds i).
Proof.
  unfold epoch, log_train_loss, accumulate, step_fn, strategy_run, train_step.
  repeat emits_step; unfold in_epoch_or_raised; cbn; auto.
Qed.

Lemma printed_epochs_nil t : printed_epochs t = [] -> printed t = [].
Proof. unfold printed_epochs. now destruct (printed t). Qed.

(** The loop, however it ends: the epochs that ran to their end, then
    what the epoch cut short wrote. *)
Lemma epochs_shape w ti ex GBS ds n :
  forall a k st r st' t,
    train_accuracy st = [] ->
    for_each (fun _ i _ => epoch w ti ex GBS ds i) k (seq a n) tt st = (r, st', t) ->
    exists m segs rest,
      t = concat segs ++ rest /\
      Forall2 (epoch_trace w ti) (seq a m) segs /\
      Forall (in_epoch_or_raised (a + m)) rest /\
      printed rest = [].
Proof.
  induction n as [|n IH]; intros a k st r st' t Hinit H; cbn in H.
  - injection H as <- <- <-. exists O, [], []. repeat split; constructor.
  - apply bind_run in H as [(e & H & ->) | ([] & st1 & t1 & t2 & H1 & H2 & ->)].
    + exists O, [], t. rewrite Nat.add_0_r. repeat split; [constructor | |].
      * eapply emits_in_epoch, H.
      * apply epoch_prints in H. now apply printed_epochs_nil.
    + apply epoch_ok in H1 as (Hseg & Hinit1 & _); [|exact Hinit].
      destruct (IH _ _ _ _ _ _ Hinit1 H2) as (m & segs & rest & -> & Hsegs & Hrest & Hp).
      exists (S m), (t1 :: segs), rest. cbn [concat seq]. rewrite <- app_assoc.
      repeat split; [constructor; auto | | exact Hp].
      now replace (a + S m)%nat with (S a + m)%nat by lia.
Qed.

Lemma replay_no_epoch t acc : Forall no_epoch t -> replay t acc = acc.
Proof.
  induction 1 as [|ev t Hev _ IH]; [reflexivity|].
  destruct ev; cbn in *; try discriminate; exact IH.
Qed.

(** A part before the loop that writes no event of an epoch. *)
Lemma shaped_bind {A} w ti (m0 : M A) (f : A -> M unit) :
  emits no_epoch m0 -> regular m0 -> (forall a, shaped w ti (f a)) ->
  shaped w ti (bind m0 f).
Proof.
  intros Hem Hreg Hf st Hinit.
  destruct (bind m0 f st) as [[r st'] t] eqn:H. unfold trace_of. cbn [snd].
  apply bind_run in H as [(e & H & ->) | (a & st1 & t1 & t2 & H1 & H2 & ->)].
  - exists t, O, [], []. rewrite app_nil_r. repeat split; try constructor.
    eapply Hem, H.
  - pose proof (Hem _ _ _ _ H1) as Hpre.
    pose proof (Hreg st) as [Hco _]. rewrite H1 in Hco.
    unfold store_of, trace_of in Hco. cbn [fst snd] in Hco.
    rewrite (replay_no_epoch _ _ Hpre), Hinit in Hco.
    specialize (Hf a st1 Hco). rewrite H2 in Hf. unfold trace_of in Hf. cbn [snd] in Hf.
    destruct Hf as (pre & m & segs & rest & -> & Hp & Hsegs & Hrest & Hpr).
    exists (t1 ++ pre), m, segs, rest. rewrite <- app_assoc.
    repeat split; auto. apply Forall_app; auto.
Qed.

Lemma shaped_epochs w ti ex GBS ds :
  shaped w ti (for_each (fun _ i _ => epoch w ti ex GBS ds i) 0 (seq 0 EPOCHS) tt).
Proof.
  intros st Hinit. destruct (for_each _ _ _ _ st) as [[r st'] t] eqn:H.
  apply epochs_shape in H as (m & segs & rest & -> & Hsegs & Hrest & Hp); [|exact Hinit].
  exists [], m, segs, rest. repeat split; auto.
Qed.

Lemma shaped_bind_ret {A} w ti (a : A) (f : A -> M unit) :
  shaped w ti (f a) -> shaped w ti (bind (ret a) f).
Proof. intros H st Hinit. rewrite bind_ret_l. now apply H. Qed.

Lemma run_shaped cli w : run_shape w (cli_task_index cli) (trace_of (run cli w)).
Proof.
  assert (H : shaped w (cli_task_index cli) (script cli w)).
  { unfold script.
    apply shaped_bind;
      [unfold module_level; repeat emits_step; reflexivity
      |unfold module_level; repeat regular_step|].
    intros g. unfold main, get_args.
    destruct cli as [ns|e]; cbn [lib cli_task_index].
    - apply shaped_bind_ret.
      apply shaped_bind;
        [unfold split_hosts; repeat emits_step; reflexivity
        |unfold split_hosts; repeat regular_step|].
      intros hosts.
      apply shaped_bind; [repeat emits_step | repeat regular_step|]. intros _.
      apply shaped_bind;
        [unfold open_experiment; repeat emits_step; reflexivity
        |unfold open_experiment; repeat regular_step|].
      intros ex. unfold training.
      apply shaped_bind; [repeat emits_step | repeat regular_step|]. intros env.
      apply shaped_bind; [repeat emits_step; reflexivity | repeat regular_step|]. intros nr.
      apply shaped_bind; [repeat emits_step; reflexivity | repeat regular_step|]. intros _.
      apply shaped_bind; [repeat emits_step; reflexivity | repeat regular_step|]. intros ds.
      apply shaped_epochs.
    - intros st _. exists [Raised e], O, [], []. repeat split; repeat constructor. }
  apply H. reflexivity.
Qed.

Lemma no_epoch_projections t :
  Forall no_epoch t ->
  printed t = [] /\ logged_metrics t = [] /\
  (forall i, at_epoch i t = []) /\ (forall acc, replay t acc = acc).
Proof.
  intros H. split; [|split; [|split]]; [| | |intros; now apply replay_no_epoch].
  all: induction H as [|ev t Hev _ IH]; [reflexivity|].
  all: destruct ev; cbn in *; try discriminate; try exact IH.
  all: intros i; unfold at_epoch in *; cbn; apply IH.
Qed.

Lemma in_epoch_or_raised_at m t i :
  Forall (in_epoch_or_raised m) t -> i <> m -> at_epoch i t = [].
Proof.
  intros H Hi. induction H as [|ev t Hev _ IH]; [reflexivity|].
  unfold at_epoch in *. cbn.
  destruct Hev as [Hev|Hev].
  - rewrite decide_False by congruence. exact IH.
  - destruct ev; try contradiction. exact IH.
Qed.

Lemma segments_printed w ti m :
  forall a segs,
    Forall2 (epoch_trace w ti) (seq a m) segs -> printed_epochs (concat segs) = seq a m.
Proof.
  induction m as [|m IH]; intros a segs H; cbn in H.
  - apply Forall2_nil_inv_l in H as ->. reflexivity.
  - apply Forall2_cons_inv_l in H as (seg & segs' & Hseg & H & ->).
    cbn [concat seq]. unfold printed_epochs in *.
    rewrite printed_app, map_app, (IH _ _ H).
    apply epoch_trace_projections in Hseg
      as (_ & _ & b & acc & _ & _ & -> & _).
    reflexivity.
Qed.

(** Any run: the epochs whose line was printed are [0] to [m - 1];
    their events are the segments; before the first there is no event of
    an epoch, after the last only those of the epoch a raise cut
    short. *)
Lemma run_epochs cli w :
  exists pre m segs rest,
    trace_of (run cli w) = pre ++ concat segs ++ rest /\
    Forall no_epoch pre /\
    Forall (in_epoch_or_raised m) rest /\
    printed_epochs (trace_of (run cli w)) = seq 0 m /\
    Forall2 (fun i seg => at_epoch i (trace_of (run cli w)) = seg /\
                          epoch_trace w (cli_task_index cli) i seg)
      (seq 0 m) segs.
Proof.
  destruct (run_shaped cli w) as (pre & m & segs & rest & Ht & Hpre & Hsegs & Hrest & Hpr).
  exists pre, m, segs, rest. rewrite Ht.
  destruct (no_epoch_projections _ Hpre) as (Hp1 & _ & Hp3 & _).
  repeat split; auto.
  - unfold printed_epochs. rewrite !printed_app, Hp1, Hpr, app_nil_r. cbn [app].
    apply (segments_printed w (cli_task_index cli) m 0 segs Hsegs).
  - apply segments_at; [exact Hsegs | auto |].
    intros i Hi. apply (in_epoch_or_raised_at m); [exact Hrest | lia].
Qed.

(** ** C4: the loss logged for each epoch *)

Lemma logged_metrics_opening ns : logged_metrics (opening ns) = [].
Proof. unfold opening. now destruct (eq0 (task_index ns)). Qed.

(** C4. On the worker of task index 0, every epoch that runs to its end
    logs exactly one metric, named [train_loss] and tagged with the
    epoch: the float32 sum of the losses returned by the steps of that
    epoch, divided by the number of those steps.  In a run that returns
    these are the metrics logged, one for each of the epochs. *)
Theorem train_loss_logged_each_epoch (cli : outcome Namespace) (w : World) :
  cli_task_index cli = Some 0 ->
  (forall i, In i (printed_epochs (trace_of (run cli w))) ->
     let losses := step_losses (at_epoch i (trace_of (run cli w))) in
     losses <> [] /\
     logged_metrics (at_epoch i (trace_of (run cli w)))
     = [ (str "train_loss",
          Tensor (f32_div (fold_left f32_add losses f32_zero)
                    (f32_of_Z (Z.of_nat (length losses)))),
          i) ]) /\
  (outcome_of (run cli w) = Ok tt ->
     logged_metrics (trace_of (run cli w))
     = map (fun i =>
              let losses := step_losses (at_epoch i (trace_of (run cli w))) in
              (str "train_loss",
               Tensor (f32_div (fold_left f32_add losses f32_zero)
                         (f32_of_Z (Z.of_nat (length losses)))),
               i))
         (seq 0 EPOCHS)).
Proof.
  intros Hti.
  assert (E : eq0 (cli_task_index cli) = true) by now rewrite Hti.
  split.
  - intros i Hi.
    destruct (run_epochs cli w) as (pre & m & segs & rest & _ & _ & _ & Hp & Hsegs).
    rewrite Hp in Hi. apply in_seq in Hi.
    destruct (segment_lookup _ _ _ i Hsegs) as (seg & Hat & Hseg); [lia|].
    cbn zeta. rewrite Hat.
    apply epoch_trace_projections in Hseg as [Hseg _]. now apply Hseg.
  - destruct (run cli w) as [[r st] t] eqn:Hrun. unfold outcome_of, trace_of. cbn [fst snd].
    intros ->.
    apply run_segments in Hrun as (ns & segs & -> & Ht & Hsegs & _).
    cbn [cli_task_index] in E.
    assert (Hl : logged_metrics t = logged_metrics (concat segs)).
    { rewrite Ht. unfold logged_metrics. rewrite omap_app.
      fold (logged_metrics (opening ns)). now rewrite logged_metrics_opening. }
    rewrite Hl. unfold logged_metrics.
    eapply omap_segments; [exact Hsegs|].
    intros i seg [Hat Hseg]. cbn beta. rewrite Hat.
    apply epoch_trace_projections in Hseg as [Hseg _]. now apply Hseg.
Qed.

Lemma train_loss_logged_each_epoch_witness :
  cli_task_index (Ok (demo_args 0)) = Some 0 /\
  In 3%nat (printed_epochs (trace_of (run (Ok (demo_args 0)) demo_world))) /\
  let t := trace_of (run (Ok (demo_args 0)) demo_world) in
  logged_metrics (at_epoch 3 t)
  = [ (str "train_loss",
       Tensor (f32_div (fold_left f32_add (step_losses (at_epoch 3 t)) f32_zero)
                 (f32_of_Z (Z.of_nat (length (step_losses (at_epoch 3 t)))))),
       3%nat) ].
Proof.
  assert (Hin : In 3%nat (printed_epochs (trace_of (run (Ok (demo_args 0)) demo_world))))
    by (vm_compute; tauto).
  split; [reflexivity|]. split; [exact Hin|].
  destruct (train_loss_logged_each_epoch (Ok (demo_args 0)) demo_world eq_refl) as [H _].
  apply (H 3%nat Hin).
Defined.

(** On the two steps of the example, each of loss 1, the metric is 1. *)
Example train_loss_of_the_example :
  logged_metrics (at_epoch 3 (trace_of (run (Ok (demo_args 0)) demo_world)))
  = [ (str "train_loss", Tensor f32_one, 3%nat) ].
Proof. vm_compute. reflexivity. Qed.

(** With no batch in an epoch the coordinator divides the int 0 by the
    int 0. *)
Example empty_epoch_raises :
  outcome_of
    (epoch demo_world (Some 0) (Some tt) 128 (fun _ => ([], None)) 0 initial)
  = Raise ZeroDivisionError.
Proof. reflexivity. Qed.

(** ** C9: the accuracy metric is reset at the end of each epoch *)

Lemma replay_opening ns acc : replay (opening ns) acc = acc.
Proof. unfold opening. now destruct (eq0 (task_index ns)). Qed.

Lemma segments_replay w ti (R : nat -> list event -> Prop) l segs :
  (forall i seg, R i seg -> epoch_trace w ti i seg) ->
  Forall2 R l segs -> replay (concat segs) [] = [].
Proof.
  intros HR H. induction H as [|i seg l segs Hi _ IH]; [reflexivity|].
  cbn [concat]. rewrite replay_app.
  apply HR, epoch_trace_projections in Hi as (_ & _ & b & acc & _ & _ & _ & _ & _ & _ & Hr).
  now rewrite Hr.
Qed.

Lemma segments_other_epochs w ti (R : nat -> list event -> Prop) l segs i :
  (forall j seg, R j seg -> epoch_trace w ti j seg) ->
  Forall2 R l segs -> ~ In i l -> at_epoch i (concat segs) = [].
Proof.
  intros HR H. induction H as [|j seg l segs Hj _ IH]; intros Hi; [reflexivity|].
  cbn [concat]. rewrite at_epoch_app, IH by (intros ?; apply Hi; now right).
  apply HR, epoch_trace_at in Hj as [_ Hj]. rewrite Hj; [reflexivity|].
  intros ->. apply Hi. now left.
Qed.

(** C9. Every epoch that runs to its end ends with the print of its
    accuracy immediately followed by the reset of the metric, and these
    are the last events of the epoch.  The metric is in its initial,
    empty state when the epoch begins; at the print its state is the
    updates of that epoch alone, and the printed value is the metric's
    result on them; after the reset the state is empty again, as it is
    when the run returns. *)
Theorem accuracy_reset_each_epoch (cli : outcome Namespace) (w : World) :
  train_accuracy (store_of (run cli w)) = replay (trace_of (run cli w)) [] /\
  (forall i, In i (printed_epochs (trace_of (run cli w))) ->
     exists before during acc after,
       trace_of (run cli w) = before ++ during ++ [Printed i acc; Metric_reset i] ++ after /\
       at_epoch i before = [] /\
       at_epoch i after = [] /\
       at_epoch i (trace_of (run cli w)) = during ++ [Printed i acc; Metric_reset i] /\
       replay before [] = [] /\
       replay (before ++ during) [] = metric_updates (at_epoch i (trace_of (run cli w))) /\
       result w i (metric_updates (at_epoch i (trace_of (run cli w)))) = Ok acc /\
       replay (before ++ during ++ [Printed i acc; Metric_reset i]) [] = []) /\
  (outcome_of (run cli w) = Ok tt -> train_accuracy (store_of (run cli w)) = []).
Proof.
  split; [apply run_regular|]. split.
  - intros i Hi.
    destruct (run_epochs cli w) as (pre & m & segs & rest & Ht & Hpre & Hrest & Hp & Hsegs).
    rewrite Hp in Hi. apply in_seq in Hi.
    assert (Hseq : seq 0 m = seq 0 i ++ i :: seq (S i) (m - S i)).
    { replace m with (i + S (m - S i))%nat at 1 by lia.
      rewrite seq_app. reflexivity. }
    rewrite Hseq in Hsegs.
    apply Forall2_app_inv_l in Hsegs as (segs1 & segs' & H1 & H2 & ->).
    apply Forall2_cons_inv_l in H2 as (seg & segs2 & [Hat Hseg] & H2 & ->).
    pose proof (epoch_trace_projections _ _ _ _ Hseg)
      as (_ & _ & during & acc & Hd & _ & _ & Hmu & Hrd & Hres & Hrs).
    set (t := trace_of (run cli w)) in *.
    assert (HR : forall j s, at_epoch j t = s /\ epoch_trace w (cli_task_index cli) j s ->
                             epoch_trace w (cli_task_index cli) j s) by tauto.
    destruct (no_epoch_projections _ Hpre) as (_ & _ & Hpre_at & Hpre_replay).
    assert (Hb : at_epoch i (pre ++ concat segs1) = []).
    { rewrite at_epoch_app, Hpre_at.
      eapply segments_other_epochs; [exact HR | exact H1|].
      rewrite in_seq. lia. }
    assert (Ha : at_epoch i (concat segs2 ++ rest) = []).
    { rewrite at_epoch_app, (in_epoch_or_raised_at m rest i Hrest) by lia.
      rewrite app_nil_r.
      eapply segments_other_epochs; [exact HR | exact H2|].
      rewrite in_seq. lia. }
    assert (Hrb : replay (pre ++ concat segs1) [] = []).
    { rewrite replay_app, Hpre_replay.
      eapply segments_replay; [exact HR | exact H1]. }
    exists (pre ++ concat segs1), during, acc, (concat segs2 ++ rest).
    repeat split.
    + rewrite Ht, concat_app. cbn [concat]. rewrite Hd, <- !app_assoc. reflexivity.
    + exact Hb.
    + exact Ha.
    + now rewrite Hat.
    + exact Hrb.
    + rewrite replay_app, Hrb, Hat. exact Hrd.
    + rewrite Hat. exact Hres.
    + rewrite replay_app, Hrb, <- Hd. apply Hrs.
  - destruct (run cli w) as [[r st] t] eqn:Hrun. unfold outcome_of, store_of. cbn [fst snd].
    intros ->. now apply run_segments in Hrun as (_ & _ & _ & _ & _ & Hfin).
Qed.

Lemma accuracy_reset_each_epoch_witness :
  In 9%nat (printed_epochs (trace_of (run (Ok (demo_args 1)) demo_world))) /\
  outcome_of (run (Ok (demo_args 1)) demo_world) = Ok tt /\
  train_accuracy (store_of (run (Ok (demo_args 1)) demo_world)) = [] /\
  exists acc,
    result demo_world 9
      (metric_updates (at_epoch 9 (trace_of (run (Ok (demo_args 1)) demo_world))))
    = Ok acc.
Proof.
  assert (Hin : In 9%nat (printed_epochs (trace_of (run (Ok (demo_args 1)) demo_world))))
    by (vm_compute; tauto).
  assert (Hok : outcome_of (run (Ok (demo_args 1)) demo_world) = Ok tt)
    by (vm_compute; reflexivity).
  split; [exact Hin|]. split; [exact Hok|].
  destruct (accuracy_reset_each_epoch (Ok (demo_args 1)) demo_world) as (_ & H & Hfin).
  split; [exact (Hfin Hok)|].
  destruct (H 9%nat Hin) as (_ & _ & acc & _ & _ & _ & _ & _ & _ & _ & Hres & _).
  exists acc. exact Hres.
Defined.

(** In the example each epoch makes two updates, and the metric (here
    the number of updates it holds) is printed as 2 in every epoch. *)
Example accuracy_of_the_example :
  printed (trace_of (run (Ok (demo_args 1)) demo_world))
  = map (fun i => (i, f32_of_Z 2)) (seq 0 10).
Proof. vm_compute. reflexivity. Qed.

(** ** C2: where the flags go *)


Lemma printed_untracked t : printed (untracked t) = printed t.
Proof.
  unfold printed, untracked.
  induction t as [|ev t IH]; [reflexivity|].
  destruct ev; cbn; rewrite ?IH; reflexivity.
Qed.






















(** The task index reaches the outcome of the run and the lines printed:
    where the dataset yields no batch, the coordinator stops at the
    division of line 142 having printed nothing, and another worker
    returns after its ten lines. *)
Example task_index_reaches_the_outcome :
  run_id (demo_args 0) = run_id (demo_args 1) /\
  worker_hosts (demo_args 0) = worker_hosts (demo_args 1) /\
  outcome_of (run (Ok (demo_args 0)) demo_world_no_batch) = Raise ZeroDivisionError /\
  printed (trace_of (run (Ok (demo_args 0)) demo_world_no_batch)) = [] /\
  outcome_of (run (Ok (demo_args 1)) demo_world_no_batch) = Ok tt /\
  length (printed (trace_of (run (Ok (demo_args 1)) demo_world_no_batch))) = 10%nat.
Proof. vm_compute. repeat split; reflexivity. Qed.

(** Where every library call returns, the coordinator and another
    worker print the same lines. *)
Example coordinator_and_worker_print_alike :
  outcome_of (run (Ok (demo_args 0)) demo_world) = Ok tt /\
  outcome_of (run (Ok (demo_args 1)) demo_world) = Ok tt /\
  printed (trace_of (run (Ok (demo_args 0)) demo_world))
  = printed (trace_of (run (Ok (demo_args 1)) demo_world)) /\
  length (printed (trace_of (run (Ok (demo_args 0)) demo_world))) = 10%nat.
Proof. vm_compute. repeat split; reflexivity. Qed.

(** * Further properties of the script *)

(** ** The value of [TF_CONFIG] *)

(** X2. Whatever characters the host string contains, the value [main]
    writes to [TF_CONFIG] is printable ASCII, [json.dumps] escaping
    everything else: the assignment of line 87 is one [os.environ]
    accepts. *)
Theorem descriptor_written_is_ascii (w : World) (g : globals) (st : store)
    (ns : Namespace) (hosts : pystr) :
  worker_hosts ns = Some hosts ->
  exists v,
    environ (store_of (main (Ok ns) w g st)) !! str "TF_CONFIG" = Some v /\
    ascii_text v.
Proof.
  intros Hwh. exists (TF_CONFIG ns hosts).
  rewrite (main_environ w g st ns hosts Hwh), lookup_insert_eq.
  split; [reflexivity | apply TF_CONFIG_ascii].
Qed.

Lemma descriptor_written_is_ascii_witness :
  exists v,
    environ (store_of (main (Ok {| run_id := None;
                                   worker_hosts := Some [233%N; 44%N; 0%N; 128512%N];
                                   task_index := Some 1 |})
                         demo_world demo_globals initial)) !! str "TF_CONFIG" = Some v /\
    ascii_text v.
Proof.
  apply (descriptor_written_is_ascii demo_world demo_globals initial
           {| run_id := None; worker_hosts := Some [233%N; 44%N; 0%N; 128512%N];
              task_index := Some 1 |} [233%N; 44%N; 0%N; 128512%N]).
  reflexivity.
Defined.

(** ** The arrays after lines 35 to 43 *)

Lemma normalize_expand (x : list (list (list uint8))) :
  normalize (expand_last_axis x) = map (map (map (fun p => [normalize_pixel p]))) x.
Proof.
  unfold normalize, expand_last_axis. rewrite map_map. apply map_ext. intros image.
  rewrite map_map. apply map_ext. intros row. rewrite map_map. reflexivity.
Qed.

Lemma normalize_expand_shape n h w (x : list (list (list uint8))) :
  has_shape3 n h w x -> has_shape4 n h w 1 (normalize (expand_last_axis x)).
Proof.
  intros [Hn Hx]. rewrite normalize_expand. split; [now rewrite length_map|].
  rewrite Forall_map. eapply Forall_impl; [exact Hx|]. intros image [Hh Himage]. cbn beta.
  split; [now rewrite length_map|].
  rewrite Forall_map. eapply Forall_impl; [exact Himage|]. intros row Hw. cbn beta.
  split; [now rewrite length_map|].
  rewrite Forall_map. apply List.Forall_forall. reflexivity.
Qed.

(** X3. When the module body returns, the loader returned two pairs
    of images and labels; each pixel [p] of the images has become the
    one-element row [[p / 255]] in float32, so an array of shape
    [(n, h, w)] has become one of shape [(n, h, w, 1)]; the labels are
    those the loader returned; [BUFFER_SIZE] is the number of training
    images; no event is recorded. *)
Theorem module_level_arrays (w : World) (st st' : store) (g : globals) (t : list event) :
  module_level w st = (Ok g, st', t) ->
  exists train_x train_y test_x test_y,
    load_data w = Ok ((train_x, train_y), (test_x, test_y)) /\
    train_images g = map (map (map (fun p => [normalize_pixel p]))) train_x /\
    test_images g = map (map (map (fun p => [normalize_pixel p]))) test_x /\
    train_labels g = train_y /\ test_labels g = test_y /\
    BUFFER_SIZE g = length train_x /\
    (forall n h c, has_shape3 n h c train_x -> has_shape4 n h c 1 (train_images g)) /\
    (forall n h c, has_shape3 n h c test_x -> has_shape4 n h c 1 (test_images g)) /\
    t = [].
Proof.
  rewrite module_level_run. destruct (snd (imports w (environ st))); [discriminate|].
  cbn zeta.
  destruct (load_data w) as [[[train_x train_y] [test_x test_y]]|e]; [|discriminate].
  intros [= <- _ <-]. exists train_x, train_y, test_x, test_y. cbn [fst snd].
  cbn [train_images test_images train_labels test_labels BUFFER_SIZE].
  split; [reflexivity|]. split; [apply normalize_expand|]. split; [apply normalize_expand|].
  split; [reflexivity|]. split; [reflexivity|].
  split; [unfold normalize, expand_last_axis; now rewrite !length_map|].
  split; [intros n h c; apply normalize_expand_shape|].
  split; [intros n h c; apply normalize_expand_shape|].
  reflexivity.
Qed.

Lemma module_level_arrays_witness :
  exists train_x train_y test_x test_y,
    load_data demo_world = Ok ((train_x, train_y), (test_x, test_y)) /\
    BUFFER_SIZE demo_globals = length train_x /\
    has_shape4 1 1 2 1 (train_images demo_globals).
Proof.
  assert (H : module_level demo_world initial
              = (Ok demo_globals,
                 {| environ := <[str "GRPC_FAIL_FAST" := str "use_caller"]>
                                 (imported demo_world);
                    train_accuracy := [] |}, [])) by reflexivity.
  destruct (module_level_arrays _ _ _ _ _ H)
    as (train_x & train_y & test_x & test_y & Hd & _ & _ & _ & _ & Hb & Hs & _).
  exists train_x, train_y, test_x, test_y. split; [exact Hd|]. split; [exact Hb|].
  apply Hs. injection Hd as <- _ _ _. repeat constructor.
Defined.

(** ** The normalisation keeps the order of the pixel values *)

Lemma uint8_to_Z_pixel_value p : In (uint8_to_Z p) pixel_values.
Proof.
  unfold pixel_values, uint8_to_Z. apply in_map_iff.
  exists (N.to_nat (Byte.to_N p)). split; [lia|].
  apply in_seq. pose proof (Byte.to_N_bounded p). lia.
Qed.

Lemma normalize_pixel_value p : In (uint8_to_Z p, normalize_pixel p) normalized_values.
Proof.
  unfold normalized_values. apply in_map_iff. exists (uint8_to_Z p).
  split; [reflexivity | apply uint8_to_Z_pixel_value].
Qed.

Lemma increasing_at_all :
  forallb (fun x => forallb (increasing_at x) normalized_values) normalized_values = true.
Proof. vm_compute. reflexivity. Qed.

Lemma increasing_at_pixels p q :
  increasing_at (uint8_to_Z p, normalize_pixel p) (uint8_to_Z q, normalize_pixel q) = true.
Proof.
  pose proof increasing_at_all as H. rewrite forallb_forall in H.
  specialize (H _ (normalize_pixel_value p)). rewrite forallb_forall in H.
  exact (H _ (normalize_pixel_value q)).
Qed.

Lemma uint8_to_Z_inj p q : uint8_to_Z p = uint8_to_Z q -> p = q.
Proof.
  unfold uint8_to_Z. intros H. apply N2Z.inj in H.
  pose proof (Byte.of_to_N p) as Hp. rewrite H, Byte.of_to_N in Hp. congruence.
Qed.

(** X4. The normalisation keeps the order of the pixel values: a
    lesser pixel has a lesser float32 image, so that two pixels with the
    same image are the same pixel and the rounding of the division
    merges no two of the 256 values. *)
Theorem normalize_pixel_increasing (p q : uint8) :
  (uint8_to_Z p < uint8_to_Z q -> f32_ltb (normalize_pixel p) (normalize_pixel q) = true) /\
  (normalize_pixel p = normalize_pixel q -> p = q).
Proof.
  assert (Hlt : forall a b, uint8_to_Z a < uint8_to_Z b ->
                  f32_ltb (normalize_pixel a) (normalize_pixel b) = true).
  { intros a b Hab. pose proof (increasing_at_pixels a b) as H.
    unfold increasing_at in H. cbn [fst snd] in H. apply andb_true_iff in H as [H _].
    apply Z.ltb_lt in Hab. rewrite Hab in H. exact H. }
  assert (Hirr : forall a, f32_ltb (normalize_pixel a) (normalize_pixel a) = false).
  { intros a. pose proof (increasing_at_pixels a a) as H.
    unfold increasing_at in H. cbn [fst snd] in H. apply andb_true_iff in H as [_ H].
    now apply negb_true_iff in H. }
  split; [apply Hlt|]. intros E.
  destruct (Z.lt_trichotomy (uint8_to_Z p) (uint8_to_Z q)) as [H | [H | H]].
  - apply Hlt in H. rewrite E, Hirr in H. discriminate.
  - now apply uint8_to_Z_inj.
  - apply Hlt in H. rewrite E, Hirr in H. discriminate.
Qed.

Lemma normalize_pixel_increasing_witness :
  uint8_to_Z Byte.x7f < uint8_to_Z Byte.x80 /\
  f32_ltb (normalize_pixel Byte.x7f) (normalize_pixel Byte.x80) = true.
Proof.
  assert (H : uint8_to_Z Byte.x7f < uint8_to_Z Byte.x80) by (vm_compute; reflexivity).
  split; [exact H|].
  exact (proj1 (normalize_pixel_increasing Byte.x7f Byte.x80) H).
Defined.

(** ** The split on commas loses nothing *)

Lemma split_no_sep c s : ~ In c s -> split c s = [s].
Proof.
  induction s as [|x s IH]; intros H; [reflexivity|]. cbn [split].
  destruct (N.eqb_spec x c) as [->|Hne]; [exfalso; apply H; now left|].
  rewrite IH by (intros Hin; apply H; now right). reflexivity.
Qed.

Lemma split_app_sep c p s : ~ In c p -> split c (p ++ c :: s) = p :: split c s.
Proof.
  induction p as [|x p IH]; intros H; cbn [app split].
  - now rewrite N.eqb_refl.
  - destruct (N.eqb_spec x c) as [->|Hne]; [exfalso; apply H; now left|].
    rewrite IH by (intros Hin; apply H; now right). reflexivity.
Qed.

Lemma split_join c pieces :
  pieces <> [] -> Forall (fun piece => ~ In c piece) pieces ->
  split c (join [c] pieces) = pieces.
Proof.
  induction pieces as [|p ps IH]; intros Hne H; [contradiction|].
  apply Forall_cons_1 in H as [Hp Hps].
  destruct ps as [|q qs]; [now apply split_no_sep|].
  rewrite join_cons. change ([c] ++ join [c] (q :: qs)) with (c :: join [c] (q :: qs)).
  rewrite split_app_sep by exact Hp.
  rewrite IH; [reflexivity | discriminate | exact Hps].
Qed.

(** X5. The split on commas and the join with commas are inverse of
    each other: joining the pieces of a host string gives the string
    back, no piece contains a comma, and a non-empty list of pieces
    without commas is the split of its join. *)
Theorem split_hosts_round_trip (s : pystr) (pieces : list pystr) :
  join [comma] (split comma s) = s /\
  Forall (fun piece => ~ In comma piece) (split comma s) /\
  (pieces <> [] -> Forall (fun piece => ~ In comma piece) pieces ->
   split comma (join [comma] pieces) = pieces).
Proof.
  split; [apply join_split|]. split; [apply split_pieces | apply split_join].
Qed.

Lemma split_hosts_round_trip_witness :
  split comma (join [comma] [str "localhost:2222"; str "localhost:2223"])
  = [str "localhost:2222"; str "localhost:2223"].
Proof.
  apply (split_hosts_round_trip [] [str "localhost:2222"; str "localhost:2223"]).
  - discriminate.
  - repeat constructor; vm_compute; intuition discriminate.
Defined.

(** ** The text written to [TF_CONFIG] *)

Lemma TF_CONFIG_text_of ns hosts :
  TF_CONFIG ns hosts
  = descriptor_text (map encode_basestring_ascii (split comma hosts))
      (index_text (task_index ns)).
Proof.
  unfold TF_CONFIG, cluster_dict, descriptor_text, index_text.
  pose proof (split_length comma hosts) as Hl.
  destruct (split comma hosts) as [|h hs]; [discriminate|].
  cbn [dumps map fst snd join]. rewrite map_map. cbn [dumps].
  change (encode_basestring_ascii (str "cluster")) with (quoted (str "cluster")).
  change (encode_basestring_ascii (str "worker")) with (quoted (str "worker")).
  change (encode_basestring_ascii (str "task")) with (quoted (str "task")).
  change (encode_basestring_ascii (str "type")) with (quoted (str "type")).
  change (encode_basestring_ascii (str "index")) with (quoted (str "index")).
  assert (E : dumps match task_index ns with Some z => JInt z | None => JNull end
              = match task_index ns with Some z => repr_int z | None => str "null" end)
    by now destruct (task_index ns).
  rewrite E.
  change (str "{") with [123%N]. change (str "}") with [125%N].
  change (str "[") with [91%N]. change (str "]") with [93%N].
  change (str ": {") with [58%N; 32%N; 123%N]. change (str ": [") with [58%N; 32%N; 91%N].
  change (str ": ") with [58%N; 32%N]. change (str ", ") with [44%N; 32%N].
  change (str "]}, ") with [93%N; 125%N; 44%N; 32%N]. change (str "}}") with [125%N; 125%N].
  repeat (rewrite <- ?app_assoc; cbn [app]). reflexivity.
Qed.

Lemma escape_char_plain c : plain c = true -> escape_char c = [c].
Proof.
  unfold plain, printable, escape_char. intros H.
  apply andb_true_iff in H as [H Hb]. apply andb_true_iff in H as [Hp Hq].
  apply negb_true_iff in Hb, Hq. rewrite Hb, Hq.
  apply andb_true_iff in Hp as [Hlo Hhi]. apply N.leb_le in Hlo.
  rewrite !(proj2 (N.eqb_neq _ _)) by lia.
  now rewrite (proj2 (N.leb_le _ _) Hlo), Hhi.
Qed.

Lemma encode_plain s : forallb plain s = true -> encode_basestring_ascii s = quoted s.
Proof.
  intros H. unfold encode_basestring_ascii, quoted. do 2 f_equal.
  induction s as [|c s IH]; [reflexivity|]. cbn in H.
  apply andb_true_iff in H as [Hc Hs]. cbn [flat_map].
  now rewrite (escape_char_plain c Hc), (IH Hs).
Qed.

Lemma split_forallb (P : N -> bool) c s :
  forallb P s = true -> Forall (fun piece => forallb P piece = true) (split c s).
Proof.
  induction s as [|x s IH]; intros H; cbn [split].
  - repeat constructor.
  - cbn in H. apply andb_true_iff in H as [Hx Hs]. specialize (IH Hs).
    destruct (N.eqb x c); [constructor; [reflexivity | exact IH]|].
    destruct (split c s) as [|p ps]; [repeat constructor; cbn; now rewrite Hx|].
    apply Forall_cons_1 in IH as [Hp Hps]. constructor; [|exact Hps].
    cbn. now rewrite Hx, Hp.
Qed.

(** X6. For a host string of printable ASCII characters other than
    the quote and the backslash, nothing is escaped: the text written to
    [TF_CONFIG] is the fixed text of the descriptor around the pieces of
    the split, each between quotes and separated by a comma and a space,
    and around the decimal text of the task index, or [null] when the
    flag is absent. *)
Theorem TF_CONFIG_of_plain_hosts (ns : Namespace) (hosts : pystr) :
  forallb plain hosts = true ->
  TF_CONFIG ns hosts
  = descriptor_text (map quoted (split comma hosts)) (index_text (task_index ns)).
Proof.
  intros H. rewrite TF_CONFIG_text_of. f_equal.
  apply split_forallb with (c := comma) in H.
  induction H as [|p ps Hp _ IH]; [reflexivity|].
  cbn [map]. now rewrite (encode_plain p Hp), IH.
Qed.

Lemma TF_CONFIG_of_plain_hosts_witness :
  forallb plain (str "localhost:2222,localhost:2223") = true /\
  TF_CONFIG (demo_args 1) (str "localhost:2222,localhost:2223")
  = descriptor_text [quoted (str "localhost:2222"); quoted (str "localhost:2223")] (str "1").
Proof.
  split; [reflexivity|].
  exact (TF_CONFIG_of_plain_hosts (demo_args 1) (str "localhost:2222,localhost:2223")
           eq_refl).
Defined.

(** With no host name at all and no task index. *)
Example TF_CONFIG_of_nothing :
  TF_CONFIG {| run_id := None; worker_hosts := Some []; task_index := None |} []
  = descriptor_text [quoted []] (str "null").
Proof. reflexivity. Qed.

(** ** The descriptor determines the flags *)

Section Hex.
Local Open Scope N_scope.

Lemma unhex_hex_digit d : d < 16 -> unhex_digit (hex_digit d) = d.
Proof.
  intros H. unfold unhex_digit, hex_digit.
  destruct (N.ltb_spec d 10).
  - rewrite (proj2 (N.ltb_lt _ _)) by lia. lia.
  - rewrite (proj2 (N.ltb_ge _ _)) by lia. lia.
Qed.

Lemma land_15_mod n : N.land n 15 = n mod 16.
Proof. change 15 with (N.ones 4). now rewrite N.land_ones. Qed.

Lemma read_hex4_hex4 n rest : n < 65536 -> read_hex4 (hex4 n ++ rest) = Some (n, rest).
Proof.
  intros H. unfold hex4, read_hex4. cbn [app]. do 2 f_equal. unfold unhex4.
  rewrite !unhex_hex_digit by (rewrite land_15_mod; now apply N.mod_lt).
  rewrite !land_15_mod, !N.shiftr_div_pow2.
  change (2 ^ 12) with 4096. change (2 ^ 8) with 256. change (2 ^ 4) with 16.
  pose proof (N.div_mod n 16 ltac:(lia)). pose proof (N.mod_lt n 16 ltac:(lia)).
  pose proof (N.div_mod (n / 16) 16 ltac:(lia)). pose proof (N.mod_lt (n / 16) 16 ltac:(lia)).
  pose proof (N.div_mod (n / 16 / 16) 16 ltac:(lia)).
  pose proof (N.mod_lt (n / 16 / 16) 16 ltac:(lia)).
  pose proof (N.div_mod (n / 16 / 16 / 16) 16 ltac:(lia)).
  pose proof (N.mod_lt (n / 16 / 16 / 16) 16 ltac:(lia)).
  assert (n / 16 / 16 / 16 < 16) by (rewrite !N.Div0.div_div; apply N.Div0.div_lt_upper_bound; lia).
  replace (n / 256) with (n / 16 / 16) by (now rewrite N.Div0.div_div).
  replace (n / 4096) with (n / 16 / 16 / 16) by (now rewrite !N.Div0.div_div).
  rewrite (N.mod_small (n / 16 / 16 / 16) 16) in * by lia. lia.
Qed.
End Hex.

Section Unescape.
Local Open Scope N_scope.

Lemma unescape_u_escape n rest :
  n < 65536 ->
  unescape_char (u_escape n ++ rest)
  = if high_surrogate n then
      match rest with
      | b :: u :: rest3 =>
          match read_hex4 rest3 with
          | Some (lo, rest4) => Some (65536 + (n - 55296) * 1024 + (lo - 56320), rest4)
          | None => None
          end
      | _ => None
      end
    else Some (n, rest).
Proof.
  intros H. unfold u_escape, unescape_char.
  cbn [app N.eqb Pos.eqb backslash dquote]. now rewrite read_hex4_hex4.
Qed.

Lemma lor_surrogate_all :
  forallb (fun x => (N.lor 55296 x =? 55296 + x) && (N.lor 56320 x =? 56320 + x))
    (map N.of_nat (seq 0 1024)) = true.
Proof. vm_compute. reflexivity. Qed.

Lemma lor_surrogate x :
  x < 1024 -> N.lor 55296 x = 55296 + x /\ N.lor 56320 x = 56320 + x.
Proof.
  intros Hx. pose proof lor_surrogate_all as H. rewrite forallb_forall in H.
  specialize (H x). cbn beta in H. rewrite andb_true_iff, !N.eqb_eq in H. apply H.
  apply in_map_iff. exists (N.to_nat x). split; [lia|]. apply in_seq. lia.
Qed.

Lemma unescape_escape_char c rest :
  unpaired c = true -> unescape_char (escape_char c ++ rest) = Some (c, rest).
Proof.
  unfold unpaired, high_surrogate. intros H.
  apply andb_true_iff in H as [Hlt Hhs]. apply N.ltb_lt in Hlt.
  apply negb_true_iff in Hhs.
  unfold escape_char.
  destruct (N.eqb_spec c backslash) as [->|H1]; [reflexivity|].
  destruct (N.eqb_spec c dquote) as [->|H2]; [reflexivity|].
  destruct (N.eqb_spec c 8) as [->|H3]; [reflexivity|].
  destruct (N.eqb_spec c 12) as [->|H4]; [reflexivity|].
  destruct (N.eqb_spec c 10) as [->|H5]; [reflexivity|].
  destruct (N.eqb_spec c 13) as [->|H6]; [reflexivity|].
  destruct (N.eqb_spec c 9) as [->|H7]; [reflexivity|].
  destruct (N.leb 32 c && N.leb c 126)%bool eqn:Hp.
  - unfold unescape_char. cbn [app].
    now rewrite (proj2 (N.eqb_neq _ _) H1), (proj2 (N.eqb_neq _ _) H2).
  - destruct (N.ltb_spec c 65536) as [Hbmp|Hastral].
    + rewrite unescape_u_escape by exact Hbmp. unfold high_surrogate. now rewrite Hhs.
    + set (n := c - 65536).
      assert (Hn : n < 1048576) by (unfold n; lia).
      assert (Hhi : N.land (N.shiftr n 10) 1023 = n / 1024).
      { change 1023 with (N.ones 10). rewrite N.land_ones, N.shiftr_div_pow2.
        change (2 ^ 10) with 1024. apply N.mod_small.
        apply N.Div0.div_lt_upper_bound. lia. }
      assert (Hlo : N.land n 1023 = n mod 1024).
      { change 1023 with (N.ones 10). now rewrite N.land_ones. }
      pose proof (N.mod_lt n 1024 ltac:(lia)) as Hm.
      assert (Hd : n / 1024 < 1024) by (apply N.Div0.div_lt_upper_bound; lia).
      rewrite Hhi, Hlo.
      rewrite (proj1 (lor_surrogate _ Hd)), (proj2 (lor_surrogate _ Hm)).
      rewrite <- app_assoc, unescape_u_escape by lia.
      unfold high_surrogate.
      rewrite (proj2 (N.leb_le _ _)), (proj2 (N.ltb_lt _ _)) by lia. cbn [andb].
      unfold u_escape. cbn [app]. rewrite read_hex4_hex4 by lia.
      do 2 f_equal. pose proof (N.div_mod n 1024 ltac:(lia)). unfold n in *. lia.
Qed.

Lemma unescape_quote rest : unescape_char (dquote :: rest) = None.
Proof. reflexivity. Qed.

(** The contents of a JSON string and what follows its closing quote
    determine each other. *)
Lemma escaped_contents_inj s1 :
  forall s2 r1 r2,
    forallb unpaired s1 = true -> forallb unpaired s2 = true ->
    flat_map escape_char s1 ++ dquote :: r1 = flat_map escape_char s2 ++ dquote :: r2 ->
    s1 = s2 /\ r1 = r2.
Proof.
  induction s1 as [|c1 s1 IH]; intros [|c2 s2] r1 r2 H1 H2 E; cbn [flat_map app] in E.
  - now injection E.
  - apply (f_equal unescape_char) in E. cbn in H2. apply andb_true_iff in H2 as [H2 _].
    rewrite <- app_assoc, (unescape_escape_char _ _ H2) in E. discriminate.
  - apply (f_equal unescape_char) in E. cbn in H1. apply andb_true_iff in H1 as [H1 _].
    rewrite <- app_assoc, (unescape_escape_char _ _ H1) in E. discriminate.
  - cbn in H1, H2. apply andb_true_iff in H1 as [Hc1 H1], H2 as [Hc2 H2].
    apply (f_equal unescape_char) in E.
    rewrite <- !app_assoc, (unescape_escape_char _ _ Hc1), (unescape_escape_char _ _ Hc2) in E.
    injection E as -> E. destruct (IH _ _ _ H1 H2 E) as [-> ->]. auto.
Qed.

Lemma encode_inj s1 s2 r1 r2 :
  forallb unpaired s1 = true -> forallb unpaired s2 = true ->
  encode_basestring_ascii s1 ++ r1 = encode_basestring_ascii s2 ++ r2 ->
  s1 = s2 /\ r1 = r2.
Proof.
  intros H1 H2 E. unfold encode_basestring_ascii in E. cbn [app] in E.
  injection E as E. rewrite <- !app_assoc in E. cbn [app] in E.
  exact (escaped_contents_inj _ _ _ _ H1 H2 E).
Qed.
End Unescape.

Lemma str_inj a b : str a = str b -> a = b.
Proof.
  unfold str. intros H.
  assert (E : list_ascii_of_string a = list_ascii_of_string b).
  { revert H. generalize (list_ascii_of_string a), (list_ascii_of_string b).
    induction l as [|x l IH]; intros [|y l']; cbn; try discriminate; [reflexivity|].
    intros [= Hxy Hl]. f_equal; [|now apply IH].
    rewrite <- (ascii_N_embedding x), <- (ascii_N_embedding y). now rewrite Hxy. }
  rewrite <- (string_of_list_ascii_of_string a), <- (string_of_list_ascii_of_string b).
  now rewrite E.
Qed.

Lemma int_of_string_of_int d :
  exists d', NilZero.int_of_string (NilZero.string_of_int d) = Some d' /\
             Z.of_int d' = Z.of_int d.
Proof.
  destruct d as [u|u].
  - destruct (Decimal.uint_eq_dec u Decimal.Nil) as [->|Hu].
    + eexists. split; [apply NilZero.isi_posnil | reflexivity].
    + exists (Decimal.Pos u). split; [|reflexivity].
      apply NilZero.isi; congruence.
  - destruct (Decimal.uint_eq_dec u Decimal.Nil) as [->|Hu].
    + eexists. split; [apply NilZero.isi_negnil | reflexivity].
    + exists (Decimal.Neg u). split; [|reflexivity].
      apply NilZero.isi; congruence.
Qed.

Lemma repr_int_inj z1 z2 : repr_int z1 = repr_int z2 -> z1 = z2.
Proof.
  unfold repr_int. intros H. apply str_inj in H.
  destruct (int_of_string_of_int (Z.to_int z1)) as (d1 & H1 & E1).
  destruct (int_of_string_of_int (Z.to_int z2)) as (d2 & H2 & E2).
  rewrite H, H2 in H1. injection H1 as <-.
  rewrite DecimalZ.of_to in E1, E2. congruence.
Qed.

Lemma repr_int_not_null z : repr_int z <> str "null".
Proof.
  unfold repr_int. intros H. apply str_inj in H.
  destruct (int_of_string_of_int (Z.to_int z)) as (d & Hd & _).
  rewrite H in Hd. discriminate.
Qed.

Lemma index_text_inj t1 t2 : index_text t1 = index_text t2 -> t1 = t2.
Proof.
  destruct t1 as [z1|], t2 as [z2|]; cbn [index_text]; intros H.
  - f_equal. now apply repr_int_inj.
  - now apply repr_int_not_null in H.
  - symmetry in H. now apply repr_int_not_null in H.
  - reflexivity.
Qed.

(** The texts of the host names, joined, up to the closing bracket. *)
Lemma join_encode_inj hs1 :
  forall hs2 r1 r2,
    hs1 <> [] -> hs2 <> [] ->
    Forall (fun h => forallb unpaired h = true) hs1 ->
    Forall (fun h => forallb unpaired h = true) hs2 ->
    join (str ", ") (map encode_basestring_ascii hs1) ++ 93%N :: r1
    = join (str ", ") (map encode_basestring_ascii hs2) ++ 93%N :: r2 ->
    hs1 = hs2 /\ r1 = r2.
Proof.
  induction hs1 as [|h1 hs1 IH]; intros [|h2 hs2] r1 r2 Hn1 Hn2 H1 H2 E; try contradiction.
  apply Forall_cons_1 in H1 as [Hh1 H1]. apply Forall_cons_1 in H2 as [Hh2 H2].
  destruct hs1 as [|k1 hs1], hs2 as [|k2 hs2]; cbn [map] in E.
  - cbn [join] in E. apply encode_inj in E as [-> E]; auto. now injection E as ->.
  - rewrite join_cons in E. cbn [join] in E. rewrite <- app_assoc in E.
    apply encode_inj in E as [_ E]; auto. discriminate.
  - rewrite join_cons in E. cbn [join] in E. rewrite <- app_assoc in E.
    apply encode_inj in E as [_ E]; auto. discriminate.
  - rewrite !join_cons, <- !app_assoc in E.
    apply encode_inj in E as [-> E]; auto.
    change (str ", ") with [44%N; 32%N] in E. cbn [app] in E. injection E as E.
    change [44%N; 32%N] with (str ", ") in E.
    destruct (IH (k2 :: hs2) r1 r2) as [-> ->]; auto; discriminate.
Qed.

Lemma descriptor_text_inj hs1 hs2 t1 t2 :
  hs1 <> [] -> hs2 <> [] ->
  Forall (fun h => forallb unpaired h = true) hs1 ->
  Forall (fun h => forallb unpaired h = true) hs2 ->
  descriptor_text (map encode_basestring_ascii hs1) (index_text t1)
  = descriptor_text (map encode_basestring_ascii hs2) (index_text t2) ->
  hs1 = hs2 /\ t1 = t2.
Proof.
  intros Hn1 Hn2 H1 H2 E. unfold descriptor_text in E.
  do 5 apply app_inv_head in E.
  change (str "]}, ") with (93%N :: str "}, ") in E. cbn [app] in E.
  apply join_encode_inj in E as [-> E]; auto. split; [reflexivity|].
  do 9 apply app_inv_head in E. apply app_inv_tail in E. now apply index_text_inj.
Qed.

(** X7. The descriptor determines the flags it is built from: two
    host strings (of code points below [0x110000], none the first half
    of a surrogate pair) and two task indices with the same [TF_CONFIG]
    text are the same host string and the same task index. *)
Theorem TF_CONFIG_determines_the_flags (ns1 ns2 : Namespace) (hosts1 hosts2 : pystr) :
  forallb unpaired hosts1 = true -> forallb unpaired hosts2 = true ->
  TF_CONFIG ns1 hosts1 = TF_CONFIG ns2 hosts2 ->
  hosts1 = hosts2 /\ task_index ns1 = task_index ns2.
Proof.
  intros H1 H2 E. rewrite !TF_CONFIG_text_of in E.
  apply descriptor_text_inj in E as [E Ht].
  - split; [|exact Ht]. rewrite <- (join_split comma hosts1), <- (join_split comma hosts2).
    now rewrite E.
  - pose proof (split_length comma hosts1). now destruct (split comma hosts1).
  - pose proof (split_length comma hosts2). now destruct (split comma hosts2).
  - now apply split_forallb.
  - now apply split_forallb.
Qed.

Lemma TF_CONFIG_determines_the_flags_witness :
  forallb unpaired (str "localhost:2222,localhost:2223") = true /\
  TF_CONFIG (demo_args 0) (str "localhost:2222,localhost:2223")
  = TF_CONFIG demo_args_run_8 (str "localhost:2222,localhost:2223") /\
  task_index (demo_args 0) = task_index demo_args_run_8.
Proof.
  split; [reflexivity|]. split; [reflexivity|].
  exact (proj2 (TF_CONFIG_determines_the_flags (demo_args 0) demo_args_run_8
                  (str "localhost:2222,localhost:2223")
                  (str "localhost:2222,localhost:2223") eq_refl eq_refl eq_refl)).
Defined.

(** The two halves of a surrogate pair, as two characters of a host
    name, are written as the character they encode is. *)
Example surrogate_pair_is_ambiguous :
  TF_CONFIG (demo_args 0) [55357%N; 56832%N] = TF_CONFIG (demo_args 0) [128512%N].
Proof. reflexivity. Qed.

(** ** The calls before the loop, and the loop *)

Lemma emits_no_epoch_lib {A} (o : outcome A) : emits no_epoch (lib o).
Proof. apply emits_lib. reflexivity. Qed.

Lemma emits_no_epoch_open_experiment w ns : emits no_epoch (open_experiment w ns).
Proof. unfold open_experiment. repeat emits_step; reflexivity. Qed.

Lemma emits_no_epoch_module_level w : emits no_epoch (module_level w).
Proof. unfold module_level. repeat emits_step; reflexivity. Qed.

(** A run either ends before the loop, with an exception, or makes
    every call before the loop with success. *)
Lemma run_cases cli w :
  (exists e, outcome_of (run cli w) = Raise e /\ Forall no_epoch (trace_of (run cli w))) \/
  (exists ns d hosts nr ds, cli = Ok ns /\ setup_returns w ns d hosts nr ds).
Proof.
  unfold run. destruct (script cli w initial) as [[r st] t] eqn:H.
  unfold outcome_of, trace_of. cbn [fst snd]. unfold script in H.
  apply bind_run in H as [(e & H & ->) | (g & st1 & t1 & t2 & Hmod & H & ->)].
  { left. exists e. split; [reflexivity|]. eapply emits_no_epoch_module_level, H. }
  rewrite module_level_run in Hmod. cbn [environ initial] in Hmod.
  destruct (snd (imports w ∅)) eqn:Himp; [discriminate|]. cbn zeta in Hmod.
  destruct (load_data w) as [d|e] eqn:Hd; [|discriminate].
  injection Hmod as Hg Hst Ht. subst g st1 t1. cbn [app].
  destruct cli as [ns|e].
  2: { left. exists e. injection H as Hr _ Ht. subst r t2.
       split; [reflexivity | repeat constructor]. }
  unfold main, get_args in H. cbn [lib] in H. rewrite bind_ret_l in H.
  unfold split_hosts in H. destruct (worker_hosts ns) as [hosts|] eqn:Hwh.
  2: { left. exists AttributeError. injection H as Hr _ Ht. subst r t2.
       split; [reflexivity | repeat constructor]. }
  rewrite bind_ret_l, bind_setenv in H.
  apply bind_run in H as [(e & H & ->) | (ex & st2 & t3 & t4 & Hopen & H & ->)].
  { left. exists e. split; [reflexivity|]. eapply emits_no_epoch_open_experiment, H. }
  pose proof (open_experiment_ok _ _ _ _ _ _ Hopen) as [-> ->].
  apply open_experiment_returned in Hopen as [Hopen ->].
  assert (Hpre : Forall no_epoch (opening ns)).
  { unfold opening. destruct (eq0 (task_index ns)); repeat constructor. }
  unfold training in H. erewrite bind_quiet in H by reflexivity.
  apply bind_run in H as [(e & H & ->) | (nr & st3 & t5 & t6 & Hstrat & H & ->)].
  { left. exists e. split; [reflexivity|]. apply Forall_app. split; [exact Hpre|].
    eapply emits_no_epoch_lib, H. }
  apply lib_ok in Hstrat as (Hstrat & -> & ->).
  apply bind_run in H as [(e & H & ->) | ([] & st4 & t7 & t8 & Hscope & H & ->)].
  { left. exists e. split; [reflexivity|]. apply Forall_app. split; [exact Hpre|].
    eapply emits_no_epoch_lib, H. }
  apply lib_ok in Hscope as (Hscope & -> & ->).
  apply bind_run in H as [(e & H & ->) | (ds & st5 & t9 & t10 & Hds & H & ->)].
  { left. exists e. split; [reflexivity|]. apply Forall_app. split; [exact Hpre|].
    eapply emits_no_epoch_lib, H. }
  apply lib_ok in Hds as (Hds & -> & ->).
  right. exists ns, d, hosts, nr, ds. split; [reflexivity|].
  split; [exact Himp|]. split; [exact Hd|]. split; [exact Hwh|]. split; [exact Hopen|].
  split; [exact Hstrat|]. split; [exact Hscope | exact Hds].
Qed.

Lemma length_normalize_expand (x : list (list (list uint8))) :
  length (normalize (expand_last_axis x)) = length x.
Proof. unfold normalize, expand_last_axis. now rewrite !length_map. Qed.

(** X8. In a run that returns, or in which any event of an epoch
    happens, the strategy was made in an environment where [TF_CONFIG]
    already holds the descriptor and [GRPC_FAIL_FAST] is [use_caller],
    and the distributed dataset was made from the normalised training
    images, their labels, the number of training images and the batch
    size 64 times the number of replicas of the strategy; the run is
    the opening of the session followed by the loop of the epochs. *)
Theorem strategy_made_with_the_descriptor (cli : outcome Namespace) (w : World) :
  (outcome_of (run cli w) = Ok tt \/
   exists ev i, In ev (trace_of (run cli w)) /\ epoch_of ev = Some i) ->
  exists ns d hosts nr ds,
    cli = Ok ns /\ load_data w = Ok d /\ worker_hosts ns = Some hosts /\
    training_environ w ns hosts !! str "TF_CONFIG" = Some (TF_CONFIG ns hosts) /\
    training_environ w ns hosts !! str "GRPC_FAIL_FAST" = Some (str "use_caller") /\
    MultiWorkerMirroredStrategy w (training_environ w ns hosts) = Ok nr /\
    distribute_datasets_from_function w
      (normalize (expand_last_axis (fst (fst d)))) (snd (fst d)) (length (fst (fst d)))
      (64 * Z.of_nat nr) = Ok ds /\
    run cli w
    = (outcome_of (epochs w ns nr ds (training_store w ns hosts)),
       store_of (epochs w ns nr ds (training_store w ns hosts)),
       opening ns ++ trace_of (epochs w ns nr ds (training_store w ns hosts))).
Proof.
  intros H.
  destruct (run_cases cli w) as [(e & He & Ht) | (ns & d & hosts & nr & ds & -> & Hs)].
  - destruct H as [H | (ev & i & Hin & Hev)]; [congruence|].
    rewrite List.Forall_forall in Ht. apply Ht in Hin. unfold no_epoch in Hin. congruence.
  - exists ns, d, hosts, nr, ds. pose proof (run_after_setup _ _ _ _ _ _ Hs) as Hrun.
    destruct Hs as (_ & Hd & Hwh & _ & Hstrat & _ & Hds).
    split; [reflexivity|]. split; [exact Hd|]. split; [exact Hwh|].
    split; [apply lookup_insert_eq|].
    split; [unfold training_environ; rewrite lookup_insert_ne by discriminate;
            apply lookup_insert_eq|].
    split; [exact Hstrat|]. split; [|exact Hrun].
    unfold globals_of in Hds.
    cbn [train_images train_labels BUFFER_SIZE] in Hds.
    rewrite length_normalize_expand in Hds. exact Hds.
Qed.

Lemma strategy_made_with_the_descriptor_witness :
  exists nr,
    MultiWorkerMirroredStrategy demo_world
      (training_environ demo_world (demo_args 0) (str "localhost:2222,localhost:2223")) = Ok nr.
Proof.
  assert (H : outcome_of (run (Ok (demo_args 0)) demo_world) = Ok tt)
    by (vm_compute; reflexivity).
  destruct (strategy_made_with_the_descriptor _ _ (or_introl H))
    as (ns & d & hosts & nr & ds & Hns & _ & Hwh & _ & _ & Hstrat & _).
  injection Hns as <-. injection Hwh as <-. exists nr. exact Hstrat.
Defined.

(** ** The session is complete before the training starts *)

(** X9. The session is complete before the training starts: when
    the imports and the loader return, the host list is given and the
    three calls of lines 89 to 91 return, the trace of the run starts with the opening
    of the session, and nothing after it is a record of the session,
    whatever the strategy, the dataset and the training do. *)
Theorem session_complete_before_training (w : World) (ns : Namespace) (hosts : pystr)
    (d : (list (list (list uint8)) * list uint8) * (list (list (list uint8)) * list uint8)) :
  snd (imports w ∅) = None -> load_data w = Ok d -> worker_hosts ns = Some hosts ->
  tracking_opens w ns ->
  exists rest,
    trace_of (run (Ok ns) w) = opening ns ++ rest /\
    session rest = [] /\
    session (trace_of (run (Ok ns) w)) = opening ns.
Proof.
  intros Himp Hd Hwh Hopen. unfold run, script.
  rewrite (bind_quiet _ _ _ _ _ (module_level_initial w d Himp Hd)).
  rewrite (main_before_session _ _ _ hosts _ Hwh).
  erewrite bind_step by (apply open_experiment_run, Hopen).
  unfold trace_of at 1 3. cbn [snd].
  match goal with |- context [trace_of ?x] => destruct x as [[r st] t] eqn:H end.
  unfold trace_of. cbn [snd]. exists t.
  apply emits_not_session_training, session_nil in H.
  split; [reflexivity|]. split; [exact H|].
  now rewrite session_app, H, app_nil_r, session_opening.
Qed.

Lemma session_complete_before_training_witness :
  outcome_of (run (Ok (demo_args 0)) demo_world_no_cluster) = Raise (LibraryError 14) /\
  session (trace_of (run (Ok (demo_args 0)) demo_world_no_cluster)) = opening (demo_args 0).
Proof.
  split; [reflexivity|].
  destruct (session_complete_before_training demo_world_no_cluster (demo_args 0)
              (str "localhost:2222,localhost:2223")
              (([ [ [Byte.xff; Byte.x00] ] ], [Byte.x01]),
               ([ [ [Byte.x80; Byte.x01] ] ], [Byte.x03])))
    as (rest & _ & _ & H); [reflexivity | reflexivity | reflexivity | |exact H].
  intros _. repeat split.
Defined.

(** ** An epoch without a batch *)

Lemma epoch_without_batch w ti ex GBS ds i st a :
  ds i = ([], None) -> eq0 ti = false -> train_accuracy st = [] ->
  result w i [] = Ok a ->
  epoch w ti ex GBS ds i st = (Ok tt, st, [Printed i a; Metric_reset i]).
Proof.
  intros Hds Hti Hacc Hres. unfold epoch. rewrite Hds.
  erewrite bind_quiet by reflexivity.
  erewrite bind_quiet by (unfold log_train_loss; rewrite Hti; reflexivity).
  erewrite bind_quiet by (unfold accuracy_result; rewrite Hacc, Hres; reflexivity).
  destruct st as [env acc]. cbn in Hacc. subst acc. reflexivity.
Qed.

Lemma epochs_without_batch w ti ex GBS ds (acc : nat -> f32) n :
  forall a k st,
    (forall i, (a <= i < a + n)%nat -> ds i = ([], None) /\ result w i [] = Ok (acc i)) ->
    eq0 ti = false -> train_accuracy st = [] ->
    for_each (fun _ i _ => epoch w ti ex GBS ds i) k (seq a n) tt st
    = (Ok tt, st, flat_map (fun i => [Printed i (acc i); Metric_reset i]) (seq a n)).
Proof.
  induction n as [|n IH]; intros a k st H Hti Hacc; [reflexivity|].
  cbn [seq for_each flat_map].
  destruct (H a ltac:(lia)) as [Hds Hres].
  erewrite bind_step by (now apply epoch_without_batch with (a := acc a)).
  rewrite IH; auto. intros i Hi. apply H. lia.
Qed.

Lemma epoch_zero_division w ex GBS ds i st ti :
  ds i = ([], None) -> eq0 ti = true -> ex = Some tt ->
  epoch w ti ex GBS ds i st = (Raise ZeroDivisionError, st, [Raised ZeroDivisionError]).
Proof.
  intros Hds Hti ->. unfold epoch. rewrite Hds.
  erewrite bind_quiet by reflexivity.
  erewrite bind_raised; [reflexivity|].
  unfold log_train_loss. rewrite Hti. reflexivity.
Qed.

(** X10. When the calls before the loop return and the dataset yields
    nothing, the coordinator stops in epoch 0 with [ZeroDivisionError],
    from [0 / 0], having printed nothing; a worker with another task
    index does not divide: it returns after printing, for each of the
    ten epochs, the accuracy of an empty metric. *)
Theorem empty_dataset_stops_the_coordinator (w : World) (ns : Namespace) (hosts : pystr)
    (d : (list (list (list uint8)) * list uint8) * (list (list (list uint8)) * list uint8))
    (nr : nat) (ds : dist_dataset) (acc : nat -> f32) :
  setup_returns w ns d hosts nr ds ->
  (forall i, (i < EPOCHS)%nat -> ds i = ([], None) /\ result w i [] = Ok (acc i)) ->
  (eq0 (task_index ns) = true ->
   run (Ok ns) w
   = (Raise ZeroDivisionError, training_store w ns hosts,
      opening ns ++ [Raised ZeroDivisionError])) /\
  (eq0 (task_index ns) = false ->
   run (Ok ns) w
   = (Ok tt, training_store w ns hosts,
      flat_map (fun i => [Printed i (acc i); Metric_reset i]) (seq 0 EPOCHS))).
Proof.
  intros Hs Hds. rewrite (run_after_setup _ _ _ _ _ _ Hs). unfold epochs. split; intros Hti.
  - change (seq 0 EPOCHS) with (0%nat :: seq 1 9). cbn [for_each].
    erewrite bind_raised; [reflexivity|].
    apply epoch_zero_division; [apply Hds; unfold EPOCHS; lia | exact Hti |].
    unfold experiment_of. now rewrite Hti.
  - rewrite (epochs_without_batch _ _ _ _ _ acc);
      [| intros i Hi; apply Hds; lia | exact Hti | reflexivity].
    unfold opening. now rewrite Hti.
Qed.

Lemma empty_dataset_stops_the_coordinator_witness :
  outcome_of (run (Ok (demo_args 0)) demo_world_no_batch) = Raise ZeroDivisionError /\
  outcome_of (run (Ok (demo_args 1)) demo_world_no_batch) = Ok tt.
Proof.
  assert (S : forall task,
             setup_returns demo_world_no_batch (demo_args task)
               (([ [ [Byte.xff; Byte.x00] ] ], [Byte.x01]),
                ([ [ [Byte.x80; Byte.x01] ] ], [Byte.x03]))
               (str "localhost:2222,localhost:2223") 2 (fun _ => ([], None))).
  { intros task. repeat split. }
  assert (D : forall i, (i < EPOCHS)%nat ->
                (fun _ : nat => (@nil (list batch), @None exn)) i = ([], None) /\
                result demo_world_no_batch i [] = Ok ((fun _ => f32_zero) i)).
  { intros i _. split; reflexivity. }
  split.
  - rewrite (proj1 (empty_dataset_stops_the_coordinator _ _ _ _ _ _ _ (S 0) D) eq_refl).
    reflexivity.
  - rewrite (proj2 (empty_dataset_stops_the_coordinator _ _ _ _ _ _ _ (S 1) D) eq_refl).
    reflexivity.
Defined.

(** ** Where an exception comes from *)

Section Provenance.
Variable cli : outcome Namespace.
Variable w : World.

Lemma explained_step_fn GBS i j xs : emits (explained cli w) (step_fn w GBS i j xs).
Proof.
  unfold step_fn, strategy_run, train_step.
  repeat emits_step; cbn [explained]; auto; left.
  - eapply in_model; eassumption.
  - eapply in_compute_loss; eassumption.
  - eapply in_apply_gradients; eassumption.
  - eapply in_reduce; eassumption.
Qed.

Lemma explained_accuracy_result i : emits (explained cli w) (accuracy_result w i).
Proof.
  intros st r st' t H. unfold accuracy_result in H. apply lib_run in H as (_ & _ & ->).
  destruct (result w i (train_accuracy st)) as [a|e] eqn:He; [constructor|].
  constructor; [|constructor]. left. eapply in_result, He.
Qed.

Lemma explained_epoch images labels n gbs ds ex GBS i :
  distribute_datasets_from_function w images labels n gbs = Ok ds ->
  (eq0 (cli_task_index cli) = true -> ex = Some tt) -> (i < EPOCHS)%nat ->
  emits (explained cli w) (epoch w (cli_task_index cli) ex GBS ds i).
Proof.
  intros Hds Hex Hi st r st' t H. unfold epoch in H.
  apply bind_run in H as [(e0 & H & ->) | (tn & st1 & t1 & t2 & Hit & H & ->)].
  { revert H. apply emits_iterate.
    - intros k x acc. unfold accumulate. repeat emits_step; try exact I.
      apply explained_step_fn.
    - intros e He. cbn [explained]. left. eapply in_iteration; eassumption. }
  apply Forall_app. split.
  { revert Hit. apply emits_iterate.
    - intros k x acc. unfold accumulate. repeat emits_step; try exact I.
      apply explained_step_fn.
    - intros e He. cbn [explained]. left. eapply in_iteration; eassumption. }
  assert (Hempty : snd tn = O -> ds i = ([], None)).
  { unfold iterate in Hit.
    apply bind_ok in Hit as (tn0 & st0 & steps & tend & Hsteps & Hend & ->).
    destruct (snd (ds i)) eqn:Hsnd; [discriminate|]. inv_ok Hend.
    apply accumulate_all_ok in Hsteps as (_ & _ & Hn & Hlen). cbn [snd] in Hn.
    intros E. rewrite E, Hlen in Hn.
    destruct (ds i) as [xs o]. cbn in *. subst o. destruct xs; [reflexivity | discriminate]. }
  revert H. apply emits_bind.
  - unfold log_train_loss. destruct (eq0 (cli_task_index cli)) eqn:Hti; [|apply emits_ret].
    rewrite (Hex eq_refl). apply emits_bind_lib.
    + intros e He. cbn [explained]. right. unfold truediv in He.
      destruct (fst tn); [|discriminate]. destruct (snd tn) eqn:Hn; [|discriminate].
      injection He as <-. eapply division_by_zero_batches; eauto.
    + intros q _. repeat emits_step; try exact I. cbn [explained]. left. eapply in_log_metric; eassumption.
  - intros _. apply emits_bind; [apply explained_accuracy_result|]. intros acc.
    repeat emits_step; exact I.
Qed.

Lemma explained_open_experiment ns : emits (explained cli w) (open_experiment w ns).
Proof.
  unfold open_experiment.
  repeat emits_step; try exact I; cbn [explained]; left;
    [eapply in_Experiment | eapply in_log_other | eapply in_log_other]; eassumption.
Qed.

Lemma explained_training g ex :
  (eq0 (cli_task_index cli) = true -> ex = Some tt) ->
  emits (explained cli w) (training w (cli_task_index cli) g ex).
Proof.
  intros Hex. unfold training.
  apply emits_bind; [apply emits_getenv|]. intros env.
  apply emits_bind_lib; [intros e He; cbn [explained]; left; eapply in_strategy; eassumption|].
  intros nr _.
  apply emits_bind_lib; [intros e He; cbn [explained]; left; eapply in_scope; eassumption|].
  intros _ _.
  apply emits_bind_lib;
    [intros e He; cbn [explained]; left; eapply in_distribute; eassumption|].
  intros ds Hds. apply emits_for_each. intros k i [] Hin.
  eapply explained_epoch; [exact Hds | exact Hex |]. apply in_seq in Hin. lia.
Qed.
End Provenance.

Lemma explained_script cli w : emits (explained cli w) (script cli w).
Proof.
  unfold script, module_level. apply emits_bind.
  { repeat emits_step; cbn [explained]; left;
      [eapply in_imports | apply in_load_data]; eassumption. }
  intros g. unfold main, get_args. destruct cli as [ns|e]; cbn [lib].
  2: { apply emits_bind_throw. cbn [explained]. left. now apply in_parse_args. }
  apply emits_bind_ret. unfold split_hosts.
  destruct (worker_hosts ns) as [hosts|] eqn:Hwh.
  2: { apply emits_bind_throw. cbn [explained]. right. now apply (split_of_None _ _ ns). }
  apply emits_bind_ret. apply emits_bind; [apply emits_setenv|]. intros u.
  intros st r st' t H.
  apply bind_run in H as [(e0 & H & ->) | (ex & st1 & t1 & t2 & Hopen & H & ->)].
  { eapply explained_open_experiment, H. }
  apply Forall_app. split; [eapply explained_open_experiment, Hopen|].
  apply open_experiment_returned in Hopen as [_ ->].
  revert H. apply (explained_training (Ok ns) w).
  cbn [cli_task_index]. unfold experiment_of. now intros ->.
Qed.

(** X11. An exception that ends a run is raised by a library call,
    or by one of two places of the script: the split of a host list
    that is [None] ([AttributeError]) and the division by the number of
    batches on the coordinator after an epoch without a batch
    ([ZeroDivisionError]).  The script raises nothing else of its own;
    in particular [experiment] is never read unbound. *)
Theorem exceptions_come_from (cli : outcome Namespace) (w : World) (e : exn) :
  outcome_of (run cli w) = Raise e -> library_raises cli w e \/ script_raises cli w e.
Proof.
  intros H. pose proof (run_regular cli w) as [_ Hreg]. rewrite H in Hreg.
  destruct Hreg as (pre & Ht & _).
  unfold run in *. destruct (script cli w initial) as [[r st] t] eqn:Hrun.
  apply explained_script in Hrun. unfold trace_of in Ht. cbn [snd] in Ht. subst t.
  apply Forall_app in Hrun as [_ Hrun]. apply Forall_cons_1 in Hrun as [Hrun _].
  exact Hrun.
Qed.

Lemma exceptions_come_from_witness :
  library_raises (Ok (demo_args 0)) demo_world_no_cluster (LibraryError 14) \/
  script_raises (Ok (demo_args 0)) demo_world_no_cluster (LibraryError 14).
Proof.
  apply exceptions_come_from. reflexivity.
Defined.

(** ** When the libraries do not fail *)

Lemma logged_epochs_segments w ti l segs :
  Forall2 (epoch_trace w ti) l segs ->
  map snd (logged_metrics (concat segs)) = if eq0 ti then l else [].
Proof.
  induction 1 as [|i seg l segs Hseg _ IH]; [now destruct (eq0 ti)|].
  cbn [concat]. unfold logged_metrics in *. rewrite omap_app, map_app, IH.
  apply epoch_trace_projections in Hseg as (Ht & Hf & _).
  unfold logged_metrics in *. destruct (eq0 ti).
  - destruct (Ht eq_refl) as [_ ->]. reflexivity.
  - now rewrite (Hf eq_refl).
Qed.

Lemma printed_epochs_segments w ti l segs :
  Forall2 (epoch_trace w ti) l segs -> printed_epochs (concat segs) = l.
Proof.
  induction 1 as [|i seg l segs Hseg _ IH]; [reflexivity|].
  cbn [concat]. unfold printed_epochs in *. rewrite printed_app, map_app, IH.
  apply epoch_trace_projections in Hseg as (_ & _ & before & acc & _ & _ & -> & _).
  reflexivity.
Qed.

(** X12. When no library call raises, every epoch has at least one
    batch and the host list is given, the run returns: it prints the
    lines of the epochs 0 to 9, the session has received its opening and
    the two metadata fields when the task index is 0, one loss per epoch
    is logged on the coordinator and none elsewhere, the two variables
    the script assigns hold the values it gave them and the metric is
    empty. *)
Theorem run_returns_when_libraries_do (w : World) (ns : Namespace) (hosts : pystr) :
  well_behaved w -> worker_hosts ns = Some hosts ->
  outcome_of (run (Ok ns) w) = Ok tt /\
  printed_epochs (trace_of (run (Ok ns) w)) = seq 0 EPOCHS /\
  session (trace_of (run (Ok ns) w)) = opening ns /\
  map snd (logged_metrics (trace_of (run (Ok ns) w)))
  = (if eq0 (task_index ns) then seq 0 EPOCHS else []) /\
  environ (store_of (run (Ok ns) w)) !! str "GRPC_FAIL_FAST" = Some (str "use_caller") /\
  environ (store_of (run (Ok ns) w)) !! str "TF_CONFIG" = Some (TF_CONFIG ns hosts) /\
  train_accuracy (store_of (run (Ok ns) w)) = [].
Proof.
  intros Hw Hwh. pose proof (run_returns w Hw ns hosts Hwh) as Hret.
  destruct (run (Ok ns) w) as [[r st] t] eqn:Hrun.
  unfold outcome_of, trace_of, store_of in *. cbn [fst snd] in *. subst r.
  apply script_ok in Hrun as (ns' & hosts' & segs & Hns & Hwh' & -> & Hsegs & Hfin & Henv).
  injection Hns as <-. rewrite Hwh in Hwh'. injection Hwh' as <-.
  split; [reflexivity|]. split; [|split; [|split; [|split; [|split]]]].
  - unfold printed_epochs. rewrite printed_app.
    replace (printed (opening ns)) with (@nil (nat * f32))
      by (unfold opening; now destruct (eq0 (task_index ns))).
    apply (printed_epochs_segments _ _ _ _ Hsegs).
  - rewrite session_app, session_opening.
    replace (session (concat segs)) with (@nil event); [apply app_nil_r|].
    symmetry. apply session_nil. apply Forall_concat.
    eapply Forall2_Forall_r; [exact Hsegs|]. apply List.Forall_forall. intros i _ seg Hseg.
    destruct Hseg as (steps & acc & -> & Hsteps & _).
    apply Forall_app. split.
    + eapply Forall_impl; [exact Hsteps|]. intros ev Hev. now destruct ev.
    + destruct (eq0 (task_index ns)); repeat constructor.
  - unfold logged_metrics. rewrite omap_app.
    replace (omap _ (opening ns)) with (@nil (pystr * scalar * nat))
      by (unfold opening; now destruct (eq0 (task_index ns))).
    apply (logged_epochs_segments _ _ _ _ Hsegs).
  - rewrite Henv. unfold training_environ.
    rewrite lookup_insert_ne by (intros E; vm_compute in E; discriminate E).
    apply lookup_insert_eq.
  - rewrite Henv. apply lookup_insert_eq.
  - exact Hfin.
Qed.

Lemma run_returns_when_libraries_do_witness :
  outcome_of (run (Ok (demo_args 0)) demo_world) = Ok tt /\
  printed_epochs (trace_of (run (Ok (demo_args 0)) demo_world)) = seq 0 EPOCHS.
Proof.
  destruct (run_returns_when_libraries_do demo_world (demo_args 0)
              (str "localhost:2222,localhost:2223") demo_world_well_behaved eq_refl)
    as (H1 & H2 & _).
  split; [exact H1 | exact H2].
Defined.

(** ** The other workers never call the tracking service *)

Section Tracking.
Variable w : World.
Variable experiment : pystr -> outcome unit.
Variable other : pystr -> pyval -> outcome unit.
Variable metric : pystr -> scalar -> nat -> outcome unit.

Lemma epoch_without_tracking ti ex GBS ds i st :
  eq0 ti = false -> epoch (with_tracking w experiment other metric) ti ex GBS ds i st
  = epoch w ti ex GBS ds i st.
Proof.
  intros Hti. unfold epoch. apply bind_ext; [reflexivity|]. intros tn st1.
  apply bind_ext; [|reflexivity]. intros st2. unfold log_train_loss. now rewrite Hti.
Qed.

Lemma training_without_tracking ti g ex st :
  eq0 ti = false -> training (with_tracking w experiment other metric) ti g ex st
  = training w ti g ex st.
Proof.
  intros Hti. unfold training.
  apply bind_ext; [reflexivity|]. intros env st1.
  apply bind_ext; [reflexivity|]. intros nr st2.
  apply bind_ext; [reflexivity|]. intros u st3.
  apply bind_ext; [reflexivity|]. intros ds st4.
  apply for_each_ext. intros k i acc st5. now apply epoch_without_tracking.
Qed.

Lemma main_without_tracking cli g st :
  eq0 (cli_task_index cli) = false -> main cli (with_tracking w experiment other metric) g st = main cli w g st.
Proof.
  intros Hti. destruct cli as [ns|e]; [|reflexivity]. cbn [cli_task_index] in Hti.
  unfold main, get_args. cbn [lib]. rewrite !bind_ret_l.
  apply bind_ext; [reflexivity|]. intros hosts st1.
  apply bind_ext; [reflexivity|]. intros u st2.
  apply bind_ext; [unfold open_experiment; now rewrite Hti|]. intros ex st3.
  now apply training_without_tracking.
Qed.
End Tracking.

(** X13. A worker whose task index is not 0 (or is absent) never calls
    the tracking service: its run is the same whatever the outcomes of
    [Experiment], [log_other] and [log_metric] would be. *)
Theorem workers_never_call_the_tracking_service (cli : outcome Namespace) (w : World)
    (experiment : pystr -> outcome unit) (other : pystr -> pyval -> outcome unit)
    (metric : pystr -> scalar -> nat -> outcome unit) :
  eq0 (cli_task_index cli) = false ->
  run cli (with_tracking w experiment other metric) = run cli w.
Proof.
  intros Hti. unfold run, script. apply bind_ext; [reflexivity|]. intros g st.
  now apply main_without_tracking.
Qed.

Lemma workers_never_call_the_tracking_service_witness :
  run (Ok (demo_args 1))
    (with_tracking demo_world (fun _ => Raise (LibraryError 7))
       (fun _ _ => Raise (LibraryError 7)) (fun _ _ _ => Raise (LibraryError 7)))
  = run (Ok (demo_args 1)) demo_world.
Proof.
  apply workers_never_call_the_tracking_service. reflexivity.
Defined.

(** ** One step of the training *)

(** X14. [step_fn] returns [loss] exactly when, for the input of each
    replica in turn, the model, the loss and the optimizer return, and
    the reduction of the losses of the replicas returns [loss].  It
    then has given the metric, replica by replica, the labels of the
    input and the thresholded logits of the model on the same input,
    and has left the environment as it was. *)
Theorem step_fn_trains_each_replica (w : World) (GLOBAL_BATCH_SIZE : Z) (i j : nat)
    (xs : list batch) (st st' : store) (loss : f32) (t : list event) :
  step_fn w GLOBAL_BATCH_SIZE i j xs st = (Ok loss, st', t) <->
  exists preds losses,
    replicas_trained w GLOBAL_BATCH_SIZE i j 0 xs preds losses /\
    reduce_sum w i j losses = Ok loss /\
    t = replica_updates i j 0 xs preds /\
    st' = {| environ := environ st;
             train_accuracy :=
               train_accuracy st
               ++ map (fun xp => (b_labels (fst xp), actual_pred (snd xp)))
                    (combine xs preds) |}.
Proof.
  split; [apply step_fn_returned|].
  intros (preds & losses & Hreps & Hred & -> & ->). now apply step_fn_run with losses.
Qed.

Lemma step_fn_trains_each_replica_witness :
  exists preds losses,
    replicas_trained demo_world 128 0 0 0 [demo_batch] preds losses /\
    reduce_sum demo_world 0 0 losses = Ok f32_one /\
    replica_updates 0 0 0 [demo_batch] preds
    = [Metric_update 0 0 0 [Byte.x01] (actual_pred demo_logits)].
Proof.
  assert (H : step_fn demo_world 128 0 0 [demo_batch] initial
              = (Ok f32_one,
                 {| environ := ∅;
                    train_accuracy := [([Byte.x01], actual_pred demo_logits)] |},
                 [Metric_update 0 0 0 [Byte.x01] (actual_pred demo_logits)]))
    by (vm_compute; reflexivity).
  apply step_fn_trains_each_replica in H as (preds & losses & H1 & H2 & H3 & _).
  exists preds, losses. split; [exact H1|]. split; [exact H2|]. now rewrite <- H3.
Defined.

(** ** Every element the dataset yields is trained on *)

Lemma step_fn_labels w GBS i j xs st loss st' t :
  step_fn w GBS i j xs st = (Ok loss, st', t) ->
  map fst (metric_updates t) = map b_labels xs.
Proof.
  intros H. apply step_fn_returned in H as (preds & losses & Hreps & _ & -> & _).
  apply replicas_trained_length in Hreps as [Hl _].
  rewrite metric_updates_replica_updates by exact Hl. rewrite map_map. cbn [fst].
  revert preds Hl. induction xs as [|x xs IH]; intros [|p ps] Hl; try discriminate.
  - reflexivity.
  - cbn. f_equal. apply IH. now injection Hl.
Qed.

Lemma metric_updates_app t1 t2 :
  metric_updates (t1 ++ t2) = metric_updates t1 ++ metric_updates t2.
Proof. apply omap_app. Qed.

Lemma accumulate_all_labels w GBS i xs :
  forall j tn st tn' st' t,
    for_each (accumulate w GBS i) j xs tn st = (Ok tn', st', t) ->
    map fst (metric_updates t) = map b_labels (concat xs).
Proof.
  induction xs as [|x xs IH]; intros j tn st tn' st' t H; cbn [for_each] in H.
  - injection H as <- <- <-. reflexivity.
  - apply bind_ok in H as (tn1 & st1 & t1 & t2 & Hacc & H & ->).
    apply IH in H. unfold accumulate in Hacc.
    apply bind_ok in Hacc as (loss & st2 & t3 & t4 & Hstep & Hrest & ->).
    apply bind_ok in Hrest as ([] & st3 & t5 & t6 & Hemit & Hret & ->).
    injection Hemit as <- <-. injection Hret as <- <- <-.
    apply step_fn_labels in Hstep.
    rewrite !metric_updates_app, !map_app. cbn [concat]. rewrite (map_app b_labels).
    f_equal; [|exact H]. etrans; [|exact Hstep]. apply app_nil_r.
Qed.

Lemma epoch_covers_dataset w ti ex GBS ds i st st' t :
  epoch w ti ex GBS ds i st = (Ok tt, st', t) -> epoch_covers ds i t.
Proof.
  intros H. assert (Hend : snd (ds i) = None).
  { unfold epoch in H. apply bind_ok in H as (tn & st1 & t1 & t2 & Hit & _).
    unfold iterate in Hit. apply bind_ok in Hit as (? & ? & ? & ? & _ & Hend & _).
    destruct (snd (ds i)); [discriminate | reflexivity]. }
  apply epoch_inv in H as (tn & st1 & steps & tlog & acc & Hsteps & Hlog & _ & _ & ->).
  pose proof (accumulate_all_labels _ _ _ _ _ _ _ _ _ _ Hsteps) as Hlabels.
  apply accumulate_all_ok in Hsteps as (_ & _ & _ & Hlen).
  apply log_train_loss_ok in Hlog as [_ Hlog].
  assert (Hl : step_losses (tlog ++ [Printed i acc; Metric_reset i]) = [] /\
               metric_updates (tlog ++ [Printed i acc; Metric_reset i]) = []).
  { destruct Hlog as [(_ & q & _ & ->) | (_ & ->)]; split; reflexivity. }
  destruct Hl as [Hl1 Hl2].
  split; [exact Hend|]. split.
  - unfold step_losses in *. now rewrite omap_app, Hl1, app_nil_r.
  - now rewrite metric_updates_app, Hl2, app_nil_r.
Qed.

Lemma epochs_cover_dataset w ti ex GBS ds n :
  forall a k st st' t,
    train_accuracy st = [] ->
    for_each (fun _ i _ => epoch w ti ex GBS ds i) k (seq a n) tt st = (Ok tt, st', t) ->
    exists segs,
      t = concat segs /\ Forall2 (epoch_trace w ti) (seq a n) segs /\
      Forall2 (epoch_covers ds) (seq a n) segs.
Proof.
  induction n as [|n IH]; intros a k st st' t Hinit H; cbn [seq for_each] in H.
  - injection H as <- <-. exists []. repeat split; constructor.
  - apply bind_ok in H as ([] & st1 & t1 & t2 & He & H & ->).
    pose proof (epoch_covers_dataset _ _ _ _ _ _ _ _ _ He) as Hc.
    apply epoch_ok in He as (Hseg & Hinit1 & _); [|exact Hinit].
    apply IH in H as (segs & -> & Hsegs & Hcs); [|exact Hinit1].
    exists (t1 :: segs). cbn [seq]. repeat split; [constructor; auto | constructor; auto].
Qed.

(** X15. In a run that returns, every epoch trains on every element
    the dataset yields: the iteration of the epoch ended without a
    raise, there is one step per element, and the labels given to the
    metric in the epoch are the labels of the inputs of all replicas,
    in the order the dataset yielded them. *)
Theorem every_epoch_covers_the_dataset (w : World) (ns : Namespace) (hosts : pystr)
    (d : (list (list (list uint8)) * list uint8) * (list (list (list uint8)) * list uint8))
    (nr : nat) (ds : dist_dataset) (i : nat) :
  setup_returns w ns d hosts nr ds ->
  outcome_of (run (Ok ns) w) = Ok tt ->
  (i < EPOCHS)%nat ->
  epoch_covers ds i (at_epoch i (trace_of (run (Ok ns) w))).
Proof.
  intros Hs Hret Hi. rewrite (run_after_setup _ _ _ _ _ _ Hs) in *.
  unfold outcome_of at 1 in Hret. unfold trace_of at 1. cbn [fst snd] in *.
  destruct (epochs w ns nr ds (training_store w ns hosts)) as [[r st] t] eqn:H.
  unfold outcome_of, trace_of in *. cbn [fst snd] in *. subst r.
  apply epochs_cover_dataset in H as (segs & -> & Hsegs & Hcs); [|reflexivity].
  pose proof (segments_at w (task_index ns) EPOCHS 0 segs (opening ns) [] Hsegs) as Hat.
  rewrite app_nil_r in Hat.
  assert (Hat' : Forall2 (fun i seg => at_epoch i (opening ns ++ concat segs) = seg /\
                                       epoch_trace w (task_index ns) i seg)
                   (seq 0 EPOCHS) segs).
  { apply Hat; [|reflexivity]. intros k _. apply at_epoch_opening. }
  destruct (Forall2_lookup_l _ _ _ i i Hcs) as (seg & Hseg & Hc).
  { apply lookup_seq. split; [reflexivity | exact Hi]. }
  destruct (Forall2_lookup_l _ _ _ i i Hat') as (seg' & Hseg' & Hi' & _).
  { apply lookup_seq. split; [reflexivity | exact Hi]. }
  rewrite Hseg in Hseg'. injection Hseg' as <-. now rewrite Hi'.
Qed.

Lemma every_epoch_covers_the_dataset_witness :
  epoch_covers (fun _ => ([ [demo_batch]; [demo_batch] ], None)) 3
    (at_epoch 3 (trace_of (run (Ok (demo_args 0)) demo_world))).
Proof.
  apply (every_epoch_covers_the_dataset demo_world (demo_args 0)
           (str "localhost:2222,localhost:2223")
           (([ [ [Byte.xff; Byte.x00] ] ], [Byte.x01]),
            ([ [ [Byte.x80; Byte.x01] ] ], [Byte.x03])) 2).
  - repeat split.
  - vm_compute. reflexivity.
  - unfold EPOCHS. lia.
Defined.

(** ** What the steps of any run train on *)

Lemma emits_for_each_indexed {A B} (P : event -> Prop) (body : nat -> A -> B -> M B) xs :
  forall k,
    (forall n x acc, xs !! n = Some x -> emits P (body (k + n)%nat x acc)) ->
    forall acc, emits P (for_each body k xs acc).
Proof.
  induction xs as [|x xs IH]; intros k Hbody acc; cbn [for_each].
  - apply emits_ret.
  - apply emits_bind.
    + specialize (Hbody 0%nat x acc eq_refl). now rewrite Nat.add_0_r in Hbody.
    + intros acc'. apply IH. intros n x' acc'' Hn.
      specialize (Hbody (S n) x' acc'' Hn). now rewrite Nat.add_succ_r in Hbody.
Qed.

Lemma train_step_accounted w GBS ds i j r xs x :
  fst (ds i) !! j = Some xs -> xs !! r = Some x ->
  emits (step_accounted w GBS ds) (train_step w GBS i j r x).
Proof.
  intros Hxs Hx. unfold train_step.
  apply emits_bind_lib; [intros; exact I|]. intros pred Hpred.
  repeat emits_step; try exact I.
  cbn [step_accounted]. exists xs, x, pred. auto.
Qed.

Lemma step_fn_accounted w GBS ds i j xs :
  fst (ds i) !! j = Some xs -> emits (step_accounted w GBS ds) (step_fn w GBS i j xs).
Proof.
  intros Hxs. unfold step_fn, strategy_run. apply emits_bind.
  - apply emits_for_each_indexed. intros r x acc Hx.
    apply emits_bind; [|intros; apply emits_ret].
    now apply train_step_accounted with xs.
  - intros losses. apply emits_lib. intros; exact I.
Qed.

Lemma accumulate_accounted w GBS ds i j xs tn :
  fst (ds i) !! j = Some xs -> emits (step_accounted w GBS ds) (accumulate w GBS i j xs tn).
Proof.
  intros Hxs st r st' t H. unfold accumulate in H.
  apply bind_run in H as [(e & H & ->) | (loss & st1 & t1 & t2 & Hstep & H & ->)].
  - eapply step_fn_accounted; eassumption.
  - apply Forall_app. split; [eapply step_fn_accounted; eassumption|].
    apply step_fn_returned in Hstep as (preds & losses & Hreps & Hred & _).
    assert (E : emits (step_accounted w GBS ds)
                  (let* _ := emit (Step_returned i j loss) in
                   ret (iadd (fst tn) loss, S (snd tn)))).
    { repeat emits_step. cbn [step_accounted]. exists xs, preds, losses. auto. }
    eapply E, H.
Qed.

Lemma epoch_accounted w ti ex GBS ds i :
  emits (step_accounted w GBS ds) (epoch w ti ex GBS ds i).
Proof.
  unfold epoch. apply emits_bind.
  - unfold iterate. apply emits_bind.
    + apply emits_for_each_indexed. intros j xs tn Hxs. now apply accumulate_accounted.
    + intros tn. destruct (snd (ds i)); [apply emits_throw | apply emits_ret]; exact I.
  - intros tn. unfold log_train_loss. repeat emits_step; exact I.
Qed.

(** X16. In any run that reaches the loop, returning or not, every
    value returned by [step_fn] is the reduction of the losses of the
    replicas on an element the dataset yielded in that epoch, each loss
    computed with the global batch size 64 times the number of replicas;
    every update of the metric pairs the labels of a replica's input
    with the thresholded logits of the model on the images of the same
    input. *)
Theorem steps_train_on_the_dataset (w : World) (ns : Namespace) (hosts : pystr)
    (d : (list (list (list uint8)) * list uint8) * (list (list (list uint8)) * list uint8))
    (nr : nat) (ds : dist_dataset) :
  setup_returns w ns d hosts nr ds ->
  Forall (step_accounted w (64 * Z.of_nat nr) ds) (trace_of (run (Ok ns) w)).
Proof.
  intros Hs. rewrite (run_after_setup _ _ _ _ _ _ Hs). unfold trace_of at 1. cbn [snd].
  apply Forall_app. split.
  - unfold opening. destruct (eq0 (task_index ns)); repeat constructor.
  - destruct (epochs w ns nr ds (training_store w ns hosts)) as [[r st] t] eqn:H.
    unfold trace_of. cbn [snd]. revert H. unfold epochs.
    apply emits_for_each. intros k i [] _. apply epoch_accounted.
Qed.

Lemma steps_train_on_the_dataset_witness :
  Forall (step_accounted demo_world 128 (fun _ => ([ [demo_batch]; [demo_batch] ], None)))
    (trace_of (run (Ok (demo_args 0)) demo_world)).
Proof.
  apply (steps_train_on_the_dataset demo_world (demo_args 0)
           (str "localhost:2222,localhost:2223")
           (([ [ [Byte.xff; Byte.x00] ] ], [Byte.x01]),
            ([ [ [Byte.x80; Byte.x01] ] ], [Byte.x03])) 2).
  repeat split.
Defined.
